(** * The ANARI demo: a shallow embedding of [examples/demo/src/main.cpp]

    The demo is glue code between two external libraries: GLFW (window,
    keyboard, buffer swap) and ANARI (device, scene objects, frames).  The
    embedding keeps the program's own control flow and data (the classes
    [RenderSystem], [WindowWrapper], [DisplaySystem] and [main]) and records
    every call that crosses into stdio, GLFW, OpenGL or ANARI in a log, oldest
    call first.  What the libraries do inside a call is not part of the
    program; the log is what the program asks of them, in order.

    The source file holds two programs.  The first, class-based one, with
    [RenderSystem], [WindowWrapper] and [DisplaySystem], is embedded at the
    top level.  The older single-function [main] that follows it in the file
    is embedded in the module [Legacy]; it shares the libraries, the log and
    the platform's answers with the first. *)

From Stdlib Require Import ZArith QArith List String Bool Lia.
From Stdlib Require DecimalString.
Import ListNotations.
Local Open Scope string_scope.
Local Open Scope list_scope.
Local Open Scope Z_scope.

Set Implicit Arguments.

(** ** Scalars *)

(** C++ [float].  The program never inspects a float: it moves literals,
    one quotient and [std::sin] of the clock into API calls.  The operations
    are kept abstract, so that every result holds whatever binary32
    arithmetic and libm compute. *)
Class FloatOps : Type := {
  float : Type;
  flit : Q -> float;             (* a decimal literal such as [0.1F] *)
  float_of_uint : Z -> float;    (* [(float)u] for an unsigned int *)
  fdiv : float -> float -> float;
  fsin : float -> float          (* [std::sin] *)
}.

(** A free term model of the float operations, used to run the program on
    concrete inputs. *)
Inductive fterm : Type :=
| TLit (q : Q)
| TOfUint (u : Z)
| TDiv (a b : fterm)
| TSin (a : fterm).

Definition TermFloat : FloatOps :=
  {| float := fterm; flit := TLit; float_of_uint := TOfUint;
     fdiv := TDiv; fsin := TSin |}.

(** [static_cast<uint32_t>(i)] of an [int]. *)
Definition to_uint32 (i : Z) : Z := i mod 2 ^ 32.

(** Opaque library handles ([GLFWwindow *], [anari::Device], ...): pointers,
    [nullptr] is 0. *)
Definition handle := Z.
Definition nullptr : handle := 0.
Definition is_set (h : handle) : bool := negb (h =? nullptr).

Definition kWidth : Z := 640.
Definition kHeight : Z := 480.

(** Constants of [GLFW/glfw3.h] and [GL/gl.h] the program names. *)
Definition GLFW_RELEASE : Z := 0.
Definition GLFW_PRESS : Z := 1.
Definition GLFW_REPEAT : Z := 2.
Definition GLFW_KEY_A : Z := 65.
Definition GLFW_KEY_D : Z := 68.
Definition GLFW_KEY_ESCAPE : Z := 256.
Definition GL_TRUE : Z := 1.

Section Program.
Context {FO : FloatOps}.

Definition uvec2 : Type := Z * Z.
Definition uvec3 : Type := Z * Z * Z.
Definition vec3 : Type := float * float * float.
Definition vec4 : Type := float * float * float * float.

(** [v[1] = y] on a [std::array<float, 3>]. *)
Definition vec3_set1 (v : vec3) (y : float) : vec3 :=
  let '(x, _, z) := v in (x, y, z).

(** ** Calls into the libraries *)

Inductive ANARIDataType : Type :=
| ANARI_UFIXED8_RGBA_SRGB
| ANARI_UINT32.

Inductive objkind : Type :=
| Renderer | Camera | World | Geometry | Material | Surface | Frame.

(** The value of a [setParameter] call. *)
Inductive value : Type :=
| VString (s : string)
| VFloat (x : float)
| VUInt (n : Z)
| VVec3 (v : vec3)
| VUVec2 (v : uvec2)
| VObject (h : handle)
| VDataType (t : ANARIDataType)
| VOnFrameCompletion.

(** The array of a [setParameterArray1D] call (the count is its length). *)
Inductive array1D : Type :=
| AVec3 (l : list vec3)
| AVec4 (l : list vec4)
| AUVec3 (l : list uvec3)
| AObjects (l : list handle).

Inductive call : Type :=
| std_printf (fmt : string) (args : list string)
| glfwInit
| glfwTerminate
| glfwCreateWindow (width height : Z) (title : string)
| glfwGetError
| glfwMakeContextCurrent (window : handle)
| glfwSetWindowUserPointer (window : handle)
| glfwSetKeyCallback (window : handle)
| glfwSetWindowShouldClose (window : handle) (v : Z)
| glfwWindowShouldClose (window : handle)
| glfwGetFramebufferSize (window : handle)
| glfwSwapBuffers (window : handle)
| glfwPollEvents
| glfwDestroyWindow (window : handle)
| glViewport (x y width height : Z)
| glClearColor (r g b a : float)
| glClear
| glDrawPixels (width height : Z)
| anari_loadLibrary (name : string) (result : handle)
| anari_getDeviceExtensionStruct (library : handle) (name : string)
| anari_newDevice (library : handle) (name : string) (result : handle)
| anari_newObject (device : handle) (kind : objkind) (subtype : string)
    (result : handle)
| anari_setParameter (device object : handle) (name : string) (v : value)
| anari_setParameterArray1D (device object : handle) (name : string)
    (a : array1D)
| anari_commitParameters (device object : handle)
| anari_release (device object : handle)
| anari_unloadLibrary (library : handle)
| anari_render (device frame : handle)
| anari_wait (device frame : handle)
| anari_map (device frame : handle) (channel : string)
| anari_unmap (device frame : handle) (channel : string).

(** ** The world outside the program *)

(** The capability flags [Init] reads from the extension struct. *)
Record Extensions : Type := {
  ANARI_KHR_GEOMETRY_TRIANGLE : bool;
  ANARI_KHR_CAMERA_PERSPECTIVE : bool;
  ANARI_KHR_MATERIAL_MATTE : bool;
  ANARI_KHR_FRAME_COMPLETION_CALLBACK : bool
}.

(** What the program can observe or change outside its own objects.  The
    first three fields change as the program runs: the log of calls, the
    close-request flag GLFW keeps for the window, and the handle the
    rendering backend hands out next (the backend returns a new, non-null
    handle from every load or creation call).  The last three are the
    answers the platform gives: the window [glfwCreateWindow] returns
    ([nullptr] when it fails), the text [glfwGetError] reports, and the
    device's extension struct. *)
Record Extern : Type := {
  calls : list call;
  should_close : bool;
  next_handle : positive;
  window_result : handle;
  error_str : string;
  extensions : Extensions
}.

Definition M (A : Type) : Type := Extern -> A * Extern.

Definition ret {A} (a : A) : M A := fun e => (a, e).
Definition bind {A B} (m : M A) (k : A -> M B) : M B :=
  fun e => let '(a, e') := m e in k a e'.
Definition exec {A} (m : M A) (e : Extern) : Extern := snd (m e).
Definition eval {A} (m : M A) (e : Extern) : A := fst (m e).

Notation "x <- m ;; k" := (bind m (fun x => k))
  (at level 61, m at next level, right associativity).
Notation "m ;; k" := (bind m (fun _ => k))
  (at level 61, right associativity).

Definition emit (c : call) : M unit :=
  fun e => (tt, {| calls := calls e ++ [c];
                   should_close := should_close e;
                   next_handle := next_handle e;
                   window_result := window_result e;
                   error_str := error_str e;
                   extensions := extensions e |}).

Definition fresh_handle : M handle :=
  fun e => (Z.pos (next_handle e),
            {| calls := calls e;
               should_close := should_close e;
               next_handle := Pos.succ (next_handle e);
               window_result := window_result e;
               error_str := error_str e;
               extensions := extensions e |}).

Definition set_should_close (b : bool) : M unit :=
  fun e => (tt, {| calls := calls e;
                   should_close := b;
                   next_handle := next_handle e;
                   window_result := window_result e;
                   error_str := error_str e;
                   extensions := extensions e |}).

Definition ask {A} (f : Extern -> A) : M A := fun e => (f e, e).

Definition when (b : bool) (m : M unit) : M unit :=
  if b then m else ret tt.

Definition printf (fmt : string) : M unit := emit (std_printf fmt []).

(** *** The ANARI calls the program makes *)

Definition loadLibrary (name : string) : M handle :=
  h <- fresh_handle ;;
  emit (anari_loadLibrary name h) ;;
  ret h.

Definition getDeviceExtensionStruct (library : handle) (name : string)
  : M Extensions :=
  emit (anari_getDeviceExtensionStruct library name) ;;
  ask extensions.

Definition newDevice (library : handle) (name : string) : M handle :=
  h <- fresh_handle ;;
  emit (anari_newDevice library name h) ;;
  ret h.

Definition newObject (device : handle) (kind : objkind) (subtype : string)
  : M handle :=
  h <- fresh_handle ;;
  emit (anari_newObject device kind subtype h) ;;
  ret h.

Definition setParameter (device object : handle) (name : string) (v : value)
  : M unit :=
  emit (anari_setParameter device object name v).

Definition setParameterArray1D (device object : handle) (name : string)
  (a : array1D) : M unit :=
  emit (anari_setParameterArray1D device object name a).

Definition commitParameters (device object : handle) : M unit :=
  emit (anari_commitParameters device object).

Definition release (device object : handle) : M unit :=
  emit (anari_release device object).

(** [anari::setAndReleaseParameter] of [anari_cpp.hpp]: set the parameter to
    the object, then release the caller's handle to it. *)
Definition setAndReleaseParameter (device object : handle) (name : string)
  (child : handle) : M unit :=
  setParameter device object name (VObject child) ;;
  release device child.

Definition unloadLibrary (library : handle) : M unit :=
  emit (anari_unloadLibrary library).

(** ** class RenderSystem *)

Record RenderSystem : Type := {
  library_ : handle;
  device_ : handle;
  renderer_ : handle;
  world_ : handle;
  camera_position_ : vec3;
  camera_direction_ : vec3;
  camera_up_ : vec3;
  camera_ : handle;
  frame_size_ : uvec2;
  frame_ : handle
}.

Definition vec3_zero : vec3 := (flit 0, flit 0, flit 0).

(** [RenderSystem() = default] with the member initialisers. *)
Definition RenderSystem_new : RenderSystem :=
  {| library_ := nullptr; device_ := nullptr; renderer_ := nullptr;
     world_ := nullptr;
     camera_position_ := vec3_zero; camera_direction_ := vec3_zero;
     camera_up_ := vec3_zero; camera_ := nullptr;
     frame_size_ := (kWidth, kHeight); frame_ := nullptr |}.

Definition set_library_ (h : handle) (r : RenderSystem) : RenderSystem :=
  {| library_ := h; device_ := device_ r; renderer_ := renderer_ r;
     world_ := world_ r; camera_position_ := camera_position_ r;
     camera_direction_ := camera_direction_ r; camera_up_ := camera_up_ r;
     camera_ := camera_ r; frame_size_ := frame_size_ r;
     frame_ := frame_ r |}.

Definition set_device_ (h : handle) (r : RenderSystem) : RenderSystem :=
  {| library_ := library_ r; device_ := h; renderer_ := renderer_ r;
     world_ := world_ r; camera_position_ := camera_position_ r;
     camera_direction_ := camera_direction_ r; camera_up_ := camera_up_ r;
     camera_ := camera_ r; frame_size_ := frame_size_ r;
     frame_ := frame_ r |}.

Definition set_renderer_ (h : handle) (r : RenderSystem) : RenderSystem :=
  {| library_ := library_ r; device_ := device_ r; renderer_ := h;
     world_ := world_ r; camera_position_ := camera_position_ r;
     camera_direction_ := camera_direction_ r; camera_up_ := camera_up_ r;
     camera_ := camera_ r; frame_size_ := frame_size_ r;
     frame_ := frame_ r |}.

Definition set_world_ (h : handle) (r : RenderSystem) : RenderSystem :=
  {| library_ := library_ r; device_ := device_ r; renderer_ := renderer_ r;
     world_ := h; camera_position_ := camera_position_ r;
     camera_direction_ := camera_direction_ r; camera_up_ := camera_up_ r;
     camera_ := camera_ r; frame_size_ := frame_size_ r;
     frame_ := frame_ r |}.

Definition set_camera_vectors (pos dir up : vec3) (r : RenderSystem)
  : RenderSystem :=
  {| library_ := library_ r; device_ := device_ r; renderer_ := renderer_ r;
     world_ := world_ r; camera_position_ := pos;
     camera_direction_ := dir; camera_up_ := up;
     camera_ := camera_ r; frame_size_ := frame_size_ r;
     frame_ := frame_ r |}.

Definition set_camera_ (h : handle) (r : RenderSystem) : RenderSystem :=
  {| library_ := library_ r; device_ := device_ r; renderer_ := renderer_ r;
     world_ := world_ r; camera_position_ := camera_position_ r;
     camera_direction_ := camera_direction_ r; camera_up_ := camera_up_ r;
     camera_ := h; frame_size_ := frame_size_ r;
     frame_ := frame_ r |}.

Definition set_frame_size_ (s : uvec2) (r : RenderSystem) : RenderSystem :=
  {| library_ := library_ r; device_ := device_ r; renderer_ := renderer_ r;
     world_ := world_ r; camera_position_ := camera_position_ r;
     camera_direction_ := camera_direction_ r; camera_up_ := camera_up_ r;
     camera_ := camera_ r; frame_size_ := s;
     frame_ := frame_ r |}.

Definition set_frame_ (h : handle) (r : RenderSystem) : RenderSystem :=
  {| library_ := library_ r; device_ := device_ r; renderer_ := renderer_ r;
     world_ := world_ r; camera_position_ := camera_position_ r;
     camera_direction_ := camera_direction_ r; camera_up_ := camera_up_ r;
     camera_ := camera_ r; frame_size_ := frame_size_ r;
     frame_ := h |}.

(** [~RenderSystem()] *)
Definition RenderSystem_delete (this : RenderSystem) : M unit :=
  when (is_set (device_ this) && is_set (frame_ this))
    (release (device_ this) (frame_ this)) ;;
  when (is_set (device_ this))
    (release (device_ this) (device_ this)) ;;
  when (is_set (library_ this))
    (unloadLibrary (library_ this)).

(** [Init].  The status callback [statusFunc] handed to [loadLibrary] only
    prints what the backend reports; it is not part of the log. *)
Definition Init (this : RenderSystem) : M RenderSystem :=
  printf "Initializing ANARI\n" ;;
  printf "Loading a library\n" ;;
  lib <- loadLibrary "helide" ;;
  let this := set_library_ lib this in
  printf "Creating a device\n" ;;
  exts <- getDeviceExtensionStruct (library_ this) "default" ;;
  when (negb (ANARI_KHR_GEOMETRY_TRIANGLE exts))
    (printf "WARNING: device doesn't support ANARI_KHR_GEOMETRY_TRIANGLE\n") ;;
  when (negb (ANARI_KHR_CAMERA_PERSPECTIVE exts))
    (printf "WARNING: device doesn't support ANARI_KHR_CAMERA_PERSPECTIVE\n") ;;
  when (negb (ANARI_KHR_MATERIAL_MATTE exts))
    (printf "WARNING: device doesn't support ANARI_KHR_MATERIAL_MATTE\n") ;;
  when (negb (ANARI_KHR_FRAME_COMPLETION_CALLBACK exts))
    (printf
       "INFO: device doesn't support ANARI_KHR_FRAME_COMPLETION_CALLBACK\n") ;;
  dev <- newDevice (library_ this) "default" ;;
  let this := set_device_ dev this in
  printf "Creating a renderer\n" ;;
  r <- newObject (device_ this) Renderer "default" ;;
  let this := set_renderer_ r this in
  setParameter (device_ this) (renderer_ this) "name"
    (VString "MainRenderer") ;;
  setParameter (device_ this) (renderer_ this) "ambientRadiance"
    (VFloat (flit 1)) ;;
  commitParameters (device_ this) (renderer_ this) ;;
  ret this.

Definition scene_vertex : list vec3 :=
  [ (flit (-1), flit (-1), flit 3);
    (flit (-1), flit 1, flit 3);
    (flit 1, flit (-1), flit 3);
    (flit 1, flit 1, flit 3) ].

Definition scene_color : list vec4 :=
  [ (flit (9 # 10), flit (5 # 10), flit (5 # 10), flit 1);
    (flit (8 # 10), flit (8 # 10), flit (8 # 10), flit 1);
    (flit (8 # 10), flit (8 # 10), flit (8 # 10), flit 1);
    (flit (5 # 10), flit (9 # 10), flit (5 # 10), flit 1) ].

Definition scene_index : list uvec3 := [ (0, 1, 2); (1, 2, 3) ].

Definition CreateScene (this : RenderSystem) : M RenderSystem :=
  printf "Creating a scene\n" ;;
  let imgSize : uvec2 := (kWidth, kHeight) in
  let this :=
    set_camera_vectors
      (flit 0, flit 0, flit 0)              (* camera_position_ *)
      (flit (1 # 10), flit 0, flit 1)       (* camera_direction_ *)
      (flit 0, flit 1, flit 0)              (* camera_up_ *)
      this in
  c <- newObject (device_ this) Camera "perspective" ;;
  let this := set_camera_ c this in
  setParameter (device_ this) (camera_ this) "aspect"
    (VFloat (fdiv (float_of_uint (fst imgSize))
                  (float_of_uint (snd imgSize)))) ;;
  setParameter (device_ this) (camera_ this) "position"
    (VVec3 (camera_position_ this)) ;;
  setParameter (device_ this) (camera_ this) "up"
    (VVec3 (camera_up_ this)) ;;
  setParameter (device_ this) (camera_ this) "direction"
    (VVec3 (camera_direction_ this)) ;;
  commitParameters (device_ this) (camera_ this) ;;
  w <- newObject (device_ this) World "" ;;
  let this := set_world_ w this in
  mesh <- newObject (device_ this) Geometry "triangle" ;;
  setParameterArray1D (device_ this) mesh "vertex.position"
    (AVec3 scene_vertex) ;;
  setParameterArray1D (device_ this) mesh "vertex.color"
    (AVec4 scene_color) ;;
  setParameterArray1D (device_ this) mesh "primitive.index"
    (AUVec3 scene_index) ;;
  commitParameters (device_ this) mesh ;;
  mat <- newObject (device_ this) Material "matte" ;;
  setParameter (device_ this) mat "color" (VString "color") ;;
  commitParameters (device_ this) mat ;;
  surface <- newObject (device_ this) Surface "" ;;
  setAndReleaseParameter (device_ this) surface "geometry" mesh ;;
  setAndReleaseParameter (device_ this) surface "material" mat ;;
  setParameter (device_ this) surface "id" (VUInt 2) ;;
  commitParameters (device_ this) surface ;;
  setParameterArray1D (device_ this) (world_ this) "surface"
    (AObjects [surface]) ;;
  setParameter (device_ this) (world_ this) "id" (VUInt 3) ;;
  release (device_ this) surface ;;
  commitParameters (device_ this) (world_ this) ;;
  ret this.

Definition SetupFrame (this : RenderSystem) : M RenderSystem :=
  printf "Setuping frame\n" ;;
  f <- newObject (device_ this) Frame "" ;;
  let this := set_frame_ f this in
  setAndReleaseParameter (device_ this) (frame_ this) "renderer"
    (renderer_ this) ;;
  setAndReleaseParameter (device_ this) (frame_ this) "camera"
    (camera_ this) ;;
  setAndReleaseParameter (device_ this) (frame_ this) "world"
    (world_ this) ;;
  setParameter (device_ this) (frame_ this) "frameCompletionCallback"
    VOnFrameCompletion ;;
  setParameter (device_ this) (frame_ this) "channel.color"
    (VDataType ANARI_UFIXED8_RGBA_SRGB) ;;
  setParameter (device_ this) (frame_ this) "channel.primitiveId"
    (VDataType ANARI_UINT32) ;;
  setParameter (device_ this) (frame_ this) "channel.objectId"
    (VDataType ANARI_UINT32) ;;
  setParameter (device_ this) (frame_ this) "channel.instanceId"
    (VDataType ANARI_UINT32) ;;
  commitParameters (device_ this) (frame_ this) ;;
  ret this.

Definition GetCameraPosition (this : RenderSystem) : vec3 :=
  camera_position_ this.
Definition GetCameraUp (this : RenderSystem) : vec3 := camera_up_ this.
Definition GetCameraDirection (this : RenderSystem) : vec3 :=
  camera_direction_ this.

Definition UpdateCamera (this : RenderSystem) (pos up dir : vec3)
  : M RenderSystem :=
  let this := set_camera_vectors pos dir up this in
  setParameter (device_ this) (camera_ this) "position"
    (VVec3 (camera_position_ this)) ;;
  setParameter (device_ this) (camera_ this) "up"
    (VVec3 (camera_up_ this)) ;;
  setParameter (device_ this) (camera_ this) "direction"
    (VVec3 (camera_direction_ this)) ;;
  commitParameters (device_ this) (camera_ this) ;;
  ret this.

Definition GetFrameSize (this : RenderSystem) : uvec2 := frame_size_ this.

Definition UpdateFrameSize (this : RenderSystem) (size : uvec2)
  : M RenderSystem :=
  let this := set_frame_size_ size this in
  setParameter (device_ this) (frame_ this) "size"
    (VUVec2 (frame_size_ this)) ;;
  commitParameters (device_ this) (frame_ this) ;;
  ret this.

Definition RenderFrame (this : RenderSystem) : M unit :=
  emit (anari_render (device_ this) (frame_ this)) ;;
  emit (anari_wait (device_ this) (frame_ this)).

Definition MapFrame (this : RenderSystem) : M unit :=
  emit (anari_map (device_ this) (frame_ this) "channel.color").

Definition UnmapFrame (this : RenderSystem) : M unit :=
  emit (anari_unmap (device_ this) (frame_ this) "channel.color").

(** ** class WindowWrapper *)

Record WindowWrapper : Type := { window_ : handle }.

(** [glfwSetWindowShouldClose(window, value)]: GLFW stores the flag. *)
Definition SetWindowShouldClose (window : handle) (v : Z) : M unit :=
  emit (glfwSetWindowShouldClose window v) ;;
  set_should_close (negb (v =? 0)).

Definition HandleKey (this : WindowWrapper) (key scancode action mods : Z)
  : M unit :=
  if action =? GLFW_PRESS then
    if key =? GLFW_KEY_ESCAPE then
      printf "Key: Window should close\n" ;;
      SetWindowShouldClose (window_ this) GL_TRUE
    else if key =? GLFW_KEY_A then
      printf "Key: Left\n"
    else if key =? GLFW_KEY_D then
      printf "Key: Right\n"
    else
      printf "Key: Unknown input\n"
  else ret tt.

(** [~WindowWrapper()] *)
Definition WindowWrapper_delete (this : WindowWrapper) : M unit :=
  when (is_set (window_ this)) (emit (glfwDestroyWindow (window_ this))).

(** ** class DisplaySystem *)

(** [window_wrapper_] is a [std::unique_ptr<WindowWrapper>]: empty until
    [CreateWindow] has run. *)
Record DisplaySystem : Type := { window_wrapper_ : option WindowWrapper }.

(** [DisplaySystem() { glfwInit(); }] *)
Definition DisplaySystem_new : M DisplaySystem :=
  emit glfwInit ;;
  ret {| window_wrapper_ := None |}.

(** [~DisplaySystem() { glfwTerminate(); }], then the member's destructor. *)
Definition DisplaySystem_delete (this : DisplaySystem) : M unit :=
  emit glfwTerminate ;;
  match window_wrapper_ this with
  | Some w => WindowWrapper_delete w
  | None => ret tt
  end.

(** [CreateWindow()].  The assignment
    [window_wrapper_ = std::make_unique<WindowWrapper>(window)] destroys the
    wrapper the display system held so far, if any, and with it that
    wrapper's window. *)
Definition CreateWindow (this : DisplaySystem) : M DisplaySystem :=
  printf "Info: Creating a window\n" ;;
  emit (glfwCreateWindow kWidth kHeight "glfw3-window") ;;
  window <- ask window_result ;;
  when (window =? nullptr)
    (emit glfwGetError ;;
     err <- ask error_str ;;
     emit (std_printf "Error: Cannot create a window, err=%s\n" [err])) ;;
  emit (glfwMakeContextCurrent window) ;;
  match window_wrapper_ this with
  | Some old => WindowWrapper_delete old
  | None => ret tt
  end ;;
  let this := {| window_wrapper_ := Some {| window_ := window |} |} in
  emit (glfwSetWindowUserPointer window) ;;
  emit (glfwSetKeyCallback window) ;;
  ret this.

(** [Window()] dereferences [window_wrapper_]; [main] calls it only after
    [CreateWindow].  On an empty pointer C++ leaves it undefined, the model
    answers [nullptr]. *)
Definition Window (this : DisplaySystem) : handle :=
  match window_wrapper_ this with
  | Some w => window_ w
  | None => nullptr
  end.

(** ** main *)

(** One key event as GLFW passes it to the key callback. *)
Record KeyEvent : Type := {
  ev_key : Z;
  ev_scancode : Z;
  ev_action : Z;
  ev_mods : Z
}.

(** What the platform answers during one pass of the render loop: the clock
    (seconds since [start_time], as a float), the framebuffer size, the key
    events that [glfwPollEvents] delivers, and whether the user asked the
    window manager to close the window (GLFW then raises the close request
    itself). *)
Record FrameInput : Type := {
  fi_time : float;
  fi_width : Z;
  fi_height : Z;
  fi_events : list KeyEvent;
  fi_close_clicked : bool
}.

(** The lambda [key_callback] registered by [CreateWindow]: GLFW calls it
    for the window it was registered on, and it forwards to the wrapper
    stored as the window's user pointer. *)
Definition key_callback (ds : DisplaySystem) (ev : KeyEvent) : M unit :=
  match window_wrapper_ ds with
  | Some w =>
      when (is_set (window_ w))
        (HandleKey w (ev_key ev) (ev_scancode ev) (ev_action ev) (ev_mods ev))
  | None => ret tt
  end.

Fixpoint deliver (ds : DisplaySystem) (evs : list KeyEvent) : M unit :=
  match evs with
  | [] => ret tt
  | ev :: rest => key_callback ds ev ;; deliver ds rest
  end.

(** [glfwPollEvents()]: GLFW runs the key callback on the pending key
    events and records a close request made through the window manager. *)
Definition PollEvents (ds : DisplaySystem) (evs : list KeyEvent)
  (close_clicked : bool) : M unit :=
  emit glfwPollEvents ;;
  deliver ds evs ;;
  when close_clicked (set_should_close true).

Definition WindowShouldClose (window : handle) : M bool :=
  emit (glfwWindowShouldClose window) ;;
  ask should_close.

(** The body of the [while] loop of [main]. *)
Definition loop_body (ds : DisplaySystem) (fi : FrameInput)
  (rs : RenderSystem) : M RenderSystem :=
  let time := fi_time fi in
  emit (glfwGetFramebufferSize (Window ds)) ;;
  let width := fi_width fi in
  let height := fi_height fi in
  let frame_size : uvec2 := (to_uint32 width, to_uint32 height) in
  rs <- UpdateFrameSize rs frame_size ;;
  let camera_pos := GetCameraPosition rs in
  let camera_up := GetCameraUp rs in
  let camera_dir := GetCameraDirection rs in
  let camera_pos := vec3_set1 camera_pos (fsin time) in
  rs <- UpdateCamera rs camera_pos camera_up camera_dir ;;
  RenderFrame rs ;;
  MapFrame rs ;;
  emit (glViewport 0 0 width height) ;;
  emit (glClearColor (flit (3 # 10)) (flit (3 # 10)) (flit (3 # 10))
          (flit 1)) ;;
  emit glClear ;;
  emit (glDrawPixels width height) ;;
  emit (glfwSwapBuffers (Window ds)) ;;
  UnmapFrame rs ;;
  PollEvents ds (fi_events fi) (fi_close_clicked fi) ;;
  ret rs.

(** [while (!glfwWindowShouldClose(ds.Window())) { ... }] over the recorded
    platform answers, one [FrameInput] per pass.  The result is the render
    system as the loop leaves it and whether the loop has ended: [false]
    means the answers ran out while the window was still open, that is, the
    program is still looping. *)
Fixpoint render_loop (ds : DisplaySystem) (frames : list FrameInput)
  (rs : RenderSystem) : M (RenderSystem * bool) :=
  closed <- WindowShouldClose (Window ds) ;;
  if closed : bool then ret (rs, true)
  else
    match frames with
    | [] => ret (rs, false)
    | fi :: rest =>
        rs <- loop_body ds fi rs ;;
        render_loop ds rest rs
    end.

(** The world as the loop's test of the close request leaves it. *)
Definition checked (ds : DisplaySystem) (e : Extern) : Extern :=
  exec (WindowShouldClose (Window ds)) e.

(** [main] up to the render loop. *)
Definition startup : M (DisplaySystem * RenderSystem) :=
  printf "Starting the app\n" ;;
  ds <- DisplaySystem_new ;;
  ds <- CreateWindow ds ;;
  let rs := RenderSystem_new in
  rs <- Init rs ;;
  rs <- CreateScene rs ;;
  rs <- SetupFrame rs ;;
  ret (ds, rs).

(** [main]: the exit code, or [None] while the program is still looping.
    [rs] is declared after [ds], so it is destroyed first. *)
Definition main (frames : list FrameInput) : M (option Z) :=
  p <- startup ;;
  let ds := fst p in
  let rs := snd p in
  r <- render_loop ds frames rs ;;
  let rs := fst r in
  if snd r : bool then
    RenderSystem_delete rs ;;
    DisplaySystem_delete ds ;;
    ret (Some 0)
  else ret None.

(** The world before [main] starts: nothing logged, no close request, and
    the platform's answers. *)
Definition initial (window : handle) (err : string) (exts : Extensions)
  : Extern :=
  {| calls := []; should_close := false; next_handle := 1%positive;
     window_result := window; error_str := err; extensions := exts |}.

(** ** Reading the log *)

(** The calls [m] adds to the log when it runs from [e]. *)
Definition logged {A} (m : M A) (e : Extern) (d : list call) : Prop :=
  calls (exec m e) = calls e ++ d.

(** Render requests, waits and buffer swaps. *)
Definition paced (c : call) : bool :=
  match c with
  | anari_render _ _ | anari_wait _ _ | glfwSwapBuffers _ => true
  | _ => false
  end.

(** The shape of one pass of the render loop that polled [fi]: the size of
    the frame [fr] is set from the polled framebuffer size and committed,
    then come one render request and its wait, then the buffer swap; [a],
    [b] and [c] hold no further render, wait or swap. *)
Definition pass_log (win dev fr : handle) (fi : FrameInput)
  (it : list call) : Prop :=
  exists a b c,
    it = glfwGetFramebufferSize win
         :: anari_setParameter dev fr "size"
              (VUVec2 (to_uint32 (fi_width fi), to_uint32 (fi_height fi)))
         :: anari_commitParameters dev fr
         :: a ++ anari_render dev fr :: anari_wait dev fr
         :: b ++ glfwSwapBuffers win :: c
    /\ Forall (fun x => paced x = false) (a ++ b ++ c).

(** Calls that create, hand over or give up a library object. *)
Definition lifecycle (c : call) : bool :=
  match c with
  | anari_loadLibrary _ _ | anari_newDevice _ _ _ | anari_newObject _ _ _ _
  | anari_release _ _ | anari_unloadLibrary _ => true
  | anari_setParameter _ _ _ (VObject _) => true
  | anari_setParameterArray1D _ _ _ (AObjects _) => true
  | _ => false
  end.

(** The scene objects created, in order, with their kinds. *)
Fixpoint created (l : list call) : list (objkind * handle) :=
  match l with
  | [] => []
  | anari_newObject _ k _ h :: r => (k, h) :: created r
  | _ :: r => created r
  end.

(** [stores child c]: the object and parameter name under which call [c]
    stores the object [child], if it does. *)
Definition stores (child : handle) (c : call) : option (handle * string) :=
  match c with
  | anari_setParameter _ parent name (VObject h) =>
      if h =? child then Some (parent, name) else None
  | anari_setParameterArray1D _ parent name (AObjects hs) =>
      if existsb (Z.eqb child) hs then Some (parent, name) else None
  | _ => None
  end.

(** Every place [child] was stored into, in order. *)
Fixpoint parents (child : handle) (l : list call) : list (handle * string) :=
  match l with
  | [] => []
  | c :: r =>
      match stores child c with
      | Some p => p :: parents child r
      | None => parents child r
      end
  end.

(** How often [h] was released. *)
Fixpoint releases (h : handle) (l : list call) : nat :=
  match l with
  | [] => O
  | anari_release _ o :: r =>
      if o =? h then S (releases h r) else releases h r
  | _ :: r => releases h r
  end.

Definition is_release (dev h : handle) (c : call) : bool :=
  match c with
  | anari_release d o => (d =? dev) && (o =? h)
  | _ => false
  end.

(** [h] is released through [dev], and the device [dev] is released later. *)
Fixpoint released_before_device (dev h : handle) (l : list call) : bool :=
  match l with
  | [] => false
  | c :: r =>
      if is_release dev h c then existsb (is_release dev dev) r
      else released_before_device dev h r
  end.

(** [h] is stored into a parent, and released through [dev] later. *)
Fixpoint stored_before_released (dev h : handle) (l : list call) : bool :=
  match l with
  | [] => false
  | c :: r =>
      match stores h c with
      | Some _ => existsb (is_release dev h) r
      | None => stored_before_released dev h r
      end
  end.

(** The lifecycle discipline on a log: the scene objects created are
    exactly a renderer, a camera, a world, a geometry, a material, a surface
    and a frame, all distinct; each is released exactly once, and before
    the device [dev] is released (itself exactly once); each but the frame
    is stored into exactly one parent, before it is released: geometry and
    material into the surface, the surface into the world, and renderer,
    camera and world into the frame. *)
Definition lifecycle_discipline (l : list call) : Prop :=
  exists dev renderer camera world mesh mat surface frame,
    created l =
      [ (Renderer, renderer); (Camera, camera); (World, world);
        (Geometry, mesh); (Material, mat); (Surface, surface);
        (Frame, frame) ]
    /\ NoDup [ dev; renderer; camera; world; mesh; mat; surface; frame ]
    /\ releases dev l = 1%nat
    /\ (forall k h, In (k, h) (created l) ->
          releases h l = 1%nat /\ released_before_device dev h l = true)
    /\ parents mesh l = [ (surface, "geometry") ]
    /\ parents mat l = [ (surface, "material") ]
    /\ parents surface l = [ (world, "surface") ]
    /\ parents renderer l = [ (frame, "renderer") ]
    /\ parents camera l = [ (frame, "camera") ]
    /\ parents world l = [ (frame, "world") ]
    /\ parents frame l = []
    /\ (forall h, In h [ mesh; mat; surface; renderer; camera; world ] ->
          stored_before_released dev h l = true).

(** An order-preserving selection of the elements of a list. *)
Inductive selection {A} : list A -> list A -> Prop :=
| sel_nil : selection [] []
| sel_skip x l l' : selection l l' -> selection l (x :: l')
| sel_take x l l' : selection l l' -> selection (x :: l) (x :: l').

(** The calls a key event can cause: a message or a close request. *)
Definition key_call (c : call) : bool :=
  match c with
  | std_printf _ _ | glfwSetWindowShouldClose _ _ => true
  | _ => false
  end.

(** The kinds of call the render loop makes: the close-request query, the
    framebuffer poll, vector-valued parameter updates and commits, render,
    wait, map and unmap, the OpenGL drawing calls, the swap, the event poll,
    and what key events cause. *)
Definition loop_call (c : call) : bool :=
  match c with
  | glfwWindowShouldClose _ | glfwGetFramebufferSize _
  | anari_setParameter _ _ _ (VUVec2 _) | anari_setParameter _ _ _ (VVec3 _)
  | anari_commitParameters _ _ | anari_render _ _ | anari_wait _ _
  | anari_map _ _ _ | anari_unmap _ _ _
  | glViewport _ _ _ _ | glClearColor _ _ _ _ | glClear | glDrawPixels _ _
  | glfwSwapBuffers _ | glfwPollEvents => true
  | _ => key_call c
  end.

(** The calls [m] adds to the log when it runs from [e], computed. *)
Definition new_calls {A} (m : M A) (e : Extern) : list call :=
  skipn (List.length (calls e)) (calls (exec m e)).

(** What the destruction of the wrapper a display system holds logs: the
    destruction of its window, when it has one. *)
Definition replaced_wrapper_log (this : DisplaySystem) : list call :=
  match window_wrapper_ this with
  | Some old =>
      if is_set (window_ old) then [glfwDestroyWindow (window_ old)] else []
  | None => []
  end.

(** What [CreateWindow] logs when no window could be created: its
    announcement, the one request for a window, the query for the error and
    the diagnostic, then the three calls that receive the empty handle; the
    wrapper held so far is destroyed after the first of them. *)
Definition failed_window_log (this : DisplaySystem) (err : string)
  : list call :=
  [ std_printf "Info: Creating a window\n" [];
    glfwCreateWindow kWidth kHeight "glfw3-window";
    glfwGetError;
    std_printf "Error: Cannot create a window, err=%s\n" [err];
    glfwMakeContextCurrent nullptr ]
  ++ replaced_wrapper_log this
  ++ [ glfwSetWindowUserPointer nullptr;
       glfwSetKeyCallback nullptr ].

(** A camera vector sent to the backend is in keeping with the scene's
    initial camera: up is (0, 1, 0), direction is (0.1, 0, 1), and the
    position has x = 0 and z = 0. *)
Definition camera_param_ok (c : call) : Prop :=
  match c with
  | anari_setParameter _ _ name (VVec3 v) =>
      (name = "up" -> v = (flit 0, flit 1, flit 0))
      /\ (name = "direction" -> v = (flit (1 # 10), flit 0, flit 1))
      /\ (name = "position" -> fst (fst v) = flit 0 /\ snd v = flit 0)
  | _ => True
  end.

(** Updates of the camera position and of the mesh colours. *)
Definition sets_camera_position (cam : handle) (c : call) : bool :=
  match c with
  | anari_setParameter _ o name (VVec3 _) =>
      (o =? cam) && String.eqb name "position"
  | _ => false
  end.

Definition sets_vertex_color (c : call) : bool :=
  match c with
  | anari_setParameterArray1D _ _ name _ => String.eqb name "vertex.color"
  | _ => false
  end.

(** Requests for a window. *)
Definition requests_window (c : call) : bool :=
  match c with
  | glfwCreateWindow _ _ _ => true
  | _ => false
  end.

(** The calls the destructors make. *)
Definition shutdown_call (c : call) : bool :=
  match c with
  | anari_release _ _ | anari_unloadLibrary _ | glfwTerminate
  | glfwDestroyWindow _ => true
  | _ => false
  end.

(** A pass of the loop that animates both the camera [cam] and the mesh
    colours: its calls hold an update of the camera position and an update
    of the per-vertex colours. *)
Definition animates_camera_and_colors (cam : handle) (d : list call) : Prop :=
  existsb (sets_camera_position cam) d = true
  /\ existsb sets_vertex_color d = true.


(** *** The libraries' side of a call *)

(** The log holds the calls the program makes as long as each of them
    returns.  Whether a call returns is the library's affair, not the
    program's: a [platform] tells of each call whether it returns ([true])
    or the process dies inside it ([false]). *)
Definition platform : Type := call -> bool.

(** Under platform [p] the process gets through the calls [d]: each of
    them returns. *)
Definition survives (p : platform) (d : list call) : bool := forallb p d.

(** The calls the process gets to make of [d] under [p]: those up to and
    including the first that does not return. *)
Fixpoint reached (p : platform) (d : list call) : list call :=
  match d with
  | [] => []
  | c :: r => c :: (if p c then reached p r else [])
  end.

(** The window handle a call hands to GLFW, if it takes one. *)
Definition window_of (c : call) : option handle :=
  match c with
  | glfwMakeContextCurrent w | glfwSetWindowUserPointer w
  | glfwSetKeyCallback w | glfwSetWindowShouldClose w _
  | glfwWindowShouldClose w | glfwGetFramebufferSize w | glfwSwapBuffers w
  | glfwDestroyWindow w => Some w
  | _ => None
  end.

(** [p] lets every call return that is not handed the empty window
    handle. *)
Definition faults_on_empty_window_only (p : platform) : Prop :=
  forall c, window_of c <> Some nullptr -> p c = true.

(** A windowing library that accepts the empty handle everywhere. *)
Definition lenient_windows : platform := fun _ => true.

(** A windowing library that accepts the empty handle only where it has a
    meaning, in [glfwMakeContextCurrent] (no context is current then), and
    lets no other call on the empty handle return. *)
Definition strict_windows : platform :=
  fun c =>
    match c with
    | glfwMakeContextCurrent _ => true
    | _ =>
        match window_of c with
        | Some w => is_set w
        | None => true
        end
    end.

(** C6 as the specification words it, under platform [p]: when no window
    could be created, [CreateWindow] logs the diagnostic, leaves the stored
    handle empty, asks for a window once, and does not crash, and the
    program continues: [main] gets through to the render loop. *)
Definition failure_is_not_fatal (p : platform) (this : DisplaySystem)
  (e : Extern) : Prop :=
  window_result e = nullptr ->
  In (std_printf "Error: Cannot create a window, err=%s\n" [error_str e])
    (new_calls (CreateWindow this) e)
  /\ Window (eval (CreateWindow this) e) = nullptr
  /\ List.length (filter requests_window (new_calls (CreateWindow this) e))
     = 1%nat
  /\ survives p (new_calls (CreateWindow this) e) = true
  /\ survives p (new_calls startup e) = true.

(** ** Further readings of the program and its log *)

Definition is_render (c : call) : bool :=
  match c with
  | anari_render _ _ => true
  | _ => false
  end.

(** A key event that is a press of escape. *)
Definition escape_press (ev : KeyEvent) : bool :=
  (ev_key ev =? GLFW_KEY_ESCAPE) && (ev_action ev =? GLFW_PRESS).

(** The platform's answers of one pass raise a close request: escape is
    pressed on an existing window, or the window manager asks to close. *)
Definition closes (ds : DisplaySystem) (fi : FrameInput) : bool :=
  (is_set (Window ds) && existsb escape_press (fi_events fi))
  || fi_close_clicked fi.

(** How many passes the loop makes over the answers [frames] when it
    starts with the close request as [closed] tells: none once the request
    is raised or the answers have run out, and otherwise one more than
    after the pass over the first answer, which leaves the request raised
    exactly when that answer raises it. *)
Fixpoint iterations (ds : DisplaySystem) (closed : bool)
  (frames : list FrameInput) : nat :=
  if closed then O
  else
    match frames with
    | [] => O
    | fi :: rest => S (iterations ds (closes ds fi) rest)
    end.

(** The render system one pass of the loop leaves behind. *)
Definition after_pass (rs : RenderSystem) (fi : FrameInput) : RenderSystem :=
  set_camera_vectors
    (vec3_set1 (camera_position_ rs) (fsin (fi_time fi)))
    (camera_direction_ rs) (camera_up_ rs)
    (set_frame_size_ (to_uint32 (fi_width fi), to_uint32 (fi_height fi)) rs).

(** Call [c] works on object [h]: it sets or commits its parameters, renders,
    waits on, maps or unmaps it, or stores it into another object. *)
Definition uses (h : handle) (c : call) : bool :=
  match c with
  | anari_setParameter _ o _ _ | anari_setParameterArray1D _ o _ _
  | anari_commitParameters _ o | anari_render _ o | anari_wait _ o
  | anari_map _ o _ | anari_unmap _ o _ =>
      (o =? h) || match stores h c with Some _ => true | None => false end
  | _ => false
  end.

Definition gives_up (h : handle) (c : call) : bool :=
  match c with
  | anari_release _ o => o =? h
  | _ => false
  end.

(** The program releases its handle [h] and works on [h] later. *)
Fixpoint used_after_release (h : handle) (l : list call) : bool :=
  match l with
  | [] => false
  | c :: r =>
      if gives_up h c then existsb (uses h) r else used_after_release h r
  end.

Definition sets_aspect (c : call) : bool :=
  match c with
  | anari_setParameter _ _ name _ => String.eqb name "aspect"
  | _ => false
  end.

(** Calls around the mapped colour buffer: map, unmap, and the draw that
    reads the mapped pixels. *)
Definition buffer_call (c : call) : bool :=
  match c with
  | anari_map _ _ _ | anari_unmap _ _ _ | glDrawPixels _ _ => true
  | _ => false
  end.

(** The lines [Init] prints about a capability the device lacks. *)
Definition capability_notice (c : call) : bool :=
  match c with
  | std_printf fmt [] =>
      String.prefix "WARNING: device doesn't support" fmt
      || String.prefix "INFO: device doesn't support" fmt
  | _ => false
  end.

(** How many of the four capabilities [Init] asks about are missing. *)
Definition missing (x : Extensions) : nat :=
  List.length
    (filter negb
       [ ANARI_KHR_GEOMETRY_TRIANGLE x; ANARI_KHR_CAMERA_PERSPECTIVE x;
         ANARI_KHR_MATERIAL_MATTE x; ANARI_KHR_FRAME_COMPLETION_CALLBACK x ]).

(** Calls that work on or release an object of the rendering backend. *)
Definition object_call (c : call) : bool :=
  match c with
  | anari_setParameter _ _ _ _ | anari_setParameterArray1D _ _ _ _
  | anari_commitParameters _ _ | anari_release _ _ | anari_render _ _
  | anari_wait _ _ | anari_map _ _ _ | anari_unmap _ _ _ => true
  | _ => false
  end.

(** Calls that tear a library down: the device's release of itself, the
    unload of the rendering library, the termination of GLFW and the
    destruction of the window. *)
Definition teardown_call (c : call) : bool :=
  match c with
  | anari_release d o => d =? o
  | anari_unloadLibrary _ | glfwTerminate | glfwDestroyWindow _ => true
  | _ => false
  end.

(** [d] is what one pass of the loop logs, for a render system with the
    device, camera and frame of [rs]. *)
Definition pass_of (ds : DisplaySystem) (rs : RenderSystem) (d : list call)
  : Prop :=
  exists fi rs' e,
    device_ rs' = device_ rs /\ camera_ rs' = camera_ rs
    /\ frame_ rs' = frame_ rs /\ logged (loop_body ds fi rs') e d.

(** [d] is what one pass of the loop logs in a run of [main] from the
    initial world with window [w]: there the device is handle 2, the camera
    4 and the frame 9. *)
Definition main_pass (w : handle) (d : list call) : Prop :=
  pass_of {| window_wrapper_ := Some {| window_ := w |} |}
    {| library_ := 1; device_ := 2; renderer_ := 3; world_ := 5;
       camera_position_ := (flit 0, flit 0, flit 0);
       camera_direction_ := (flit (1 # 10), flit 0, flit 1);
       camera_up_ := (flit 0, flit 1, flit 0);
       camera_ := 4; frame_size_ := (kWidth, kHeight); frame_ := 9 |} d.

(** The loop's calls when its passes log [bodies]: the test before each
    pass, and the test that ends the loop or finds no further answer. *)
Definition loop_log (ds : DisplaySystem) (bodies : list (list call))
  : list call :=
  List.concat (map (cons (glfwWindowShouldClose (Window ds))) bodies)
  ++ [glfwWindowShouldClose (Window ds)].

End Program.

(** ** statusFunc *)

(** The six severities of [anari.h] that [statusFunc] tells apart.  Their
    values are the header's; the program only compares with them. *)
Record Severities : Type := {
  ANARI_SEVERITY_FATAL_ERROR : Z;
  ANARI_SEVERITY_ERROR : Z;
  ANARI_SEVERITY_WARNING : Z;
  ANARI_SEVERITY_PERFORMANCE_WARNING : Z;
  ANARI_SEVERITY_INFO : Z;
  ANARI_SEVERITY_DEBUG : Z
}.

Definition severities (s : Severities) : list Z :=
  [ ANARI_SEVERITY_FATAL_ERROR s; ANARI_SEVERITY_ERROR s;
    ANARI_SEVERITY_WARNING s; ANARI_SEVERITY_PERFORMANCE_WARNING s;
    ANARI_SEVERITY_INFO s; ANARI_SEVERITY_DEBUG s ].

(** [statusFunc], the status callback handed to [loadLibrary]: the
    [fprintf(stderr, format, message)] calls it makes, as pairs of format
    and message. *)
Definition statusFunc (s : Severities) (severity : Z) (message : string)
  : list (string * string) :=
  if severity =? ANARI_SEVERITY_FATAL_ERROR s then
    [ ("[FATAL] %s\n", message) ]
  else if severity =? ANARI_SEVERITY_ERROR s then
    [ ("[ERROR] %s\n", message) ]
  else if severity =? ANARI_SEVERITY_WARNING s then
    [ ("[WARN ] %s\n", message) ]
  else if severity =? ANARI_SEVERITY_PERFORMANCE_WARNING s then
    [ ("[PERF ] %s\n", message) ]
  else if severity =? ANARI_SEVERITY_INFO s then
    [ ("[INFO ] %s\n", message) ]
  else if severity =? ANARI_SEVERITY_DEBUG s then
    [ ("[DEBUG] %s\n", message) ]
  else [].

(** ** getPixelValue *)

(** [getPixelValue(coord, width, buf)]: [buf[coord[1] * width + coord[0]]].
    The index is computed in [unsigned int], so [width] is converted and
    the arithmetic wraps at 2^32; a read past the end of the buffer is
    undefined in C++, [None] here. *)
Definition getPixelValue {T} (coord : uvec2) (width : Z) (buf : list T)
  : option T :=
  nth_error buf
    (Z.to_nat (to_uint32 (snd coord * to_uint32 width + fst coord))).

(** The anari_enums.h values. *)
Definition anari_severities : Severities :=
  {| ANARI_SEVERITY_FATAL_ERROR := 6000;
     ANARI_SEVERITY_ERROR := 6001;
     ANARI_SEVERITY_WARNING := 6002;
     ANARI_SEVERITY_PERFORMANCE_WARNING := 6003;
     ANARI_SEVERITY_INFO := 6004;
     ANARI_SEVERITY_DEBUG := 6005 |}.

(** ** The older program *)

(** [printf]'s rendering of a [%u] argument. *)
Definition show_uint (n : Z) : string :=
  DecimalString.NilZero.string_of_uint (N.to_uint (Z.to_N n)).

(** An [unsigned int] passed where an [int] is expected. *)
Definition to_int32 (u : Z) : Z := (u + 2 ^ 31) mod 2 ^ 32 - 2 ^ 31.

(** What [anari::map] answers for a channel: the pixel type ([None] for a
    type the program does not name) and the pixels. *)
Record MappedFrameData : Type := {
  pixelType : option ANARIDataType;
  data : list Z
}.

Definition is_uint32 (m : MappedFrameData) : bool :=
  match pixelType m with
  | Some ANARI_UINT32 => true
  | _ => false
  end.

(** The three id buffers the backend answers in one pass. *)
Record IdBuffers : Type := {
  fbPrimId : MappedFrameData;
  fbObjId : MappedFrameData;
  fbInstId : MappedFrameData
}.

(** The second program of the source file: a single [main] with a small
    [DisplaySystem] and a free key callback.  It shares the libraries, the
    log and the platform's answers with the first program. *)
Module Legacy.
Section Older.
Context {FO : FloatOps}.

(** [std::cos]. *)
Variable fcos : float -> float.

Notation "x <- m ;; k" := (bind m (fun x => k))
  (at level 61, m at next level, right associativity).
Notation "m ;; k" := (bind m (fun _ => k))
  (at level 61, right associativity).

Definition key_callback (window : handle) (key scancode action mods : Z)
  : M unit :=
  when ((key =? GLFW_KEY_ESCAPE) && (action =? GLFW_PRESS))
    (SetWindowShouldClose window GL_TRUE).

Record DisplaySystem : Type := { window_ : handle }.

(** [DisplaySystem() { glfwInit(); }], with [window_{nullptr}]. *)
Definition DisplaySystem_new : M DisplaySystem :=
  emit glfwInit ;;
  ret {| window_ := nullptr |}.

(** [~DisplaySystem()] *)
Definition DisplaySystem_delete (this : DisplaySystem) : M unit :=
  when (is_set (window_ this)) (emit (glfwDestroyWindow (window_ this))) ;;
  emit glfwTerminate.

Definition CreateWindow (this : DisplaySystem) : M DisplaySystem :=
  printf "Info: Creating a window\n" ;;
  emit (glfwCreateWindow kWidth kHeight "glfw3-window") ;;
  window <- ask window_result ;;
  let this := {| window_ := window |} in
  when (window_ this =? nullptr)
    (emit glfwGetError ;;
     err <- ask error_str ;;
     emit (std_printf "Error: Cannot create a window, err=%s\n" [err])) ;;
  emit (glfwMakeContextCurrent (window_ this)) ;;
  emit (glfwSetKeyCallback (window_ this)) ;;
  ret this.

Definition Window (this : DisplaySystem) : handle := window_ this.

(** [vec4 color[4]], and [color[i][0] = x]. *)
Definition colors : Type := vec4 * vec4 * vec4 * vec4.

Definition vec4_set0 (v : vec4) (x : float) : vec4 :=
  let '(_, g, b, a) := v in (x, g, b, a).

Definition colors_list (c : colors) : list vec4 :=
  let '(c0, c1, c2, c3) := c in [c0; c1; c2; c3].

(** The local variables of [main] that the loop and the cleanup read or
    write. *)
Record Locals : Type := {
  ds : DisplaySystem;
  imgSize : uvec2;
  cam_pos : vec3;
  color : colors;
  lib : handle;
  d : handle;
  camera : handle;
  mesh : handle;
  frame : handle
}.

(** [main] up to the render loop. *)
Definition startup : M Locals :=
  printf "Starting the app\n" ;;
  ds <- DisplaySystem_new ;;
  ds <- CreateWindow ds ;;
  let imgSize : uvec2 := (kWidth, kHeight) in
  let cam_pos : vec3 := (flit 0, flit 0, flit 0) in
  let cam_up : vec3 := (flit 0, flit 1, flit 0) in
  let cam_view : vec3 := (flit (1 # 10), flit 0, flit 1) in
  let color : colors :=
    ((flit (9 # 10), flit (5 # 10), flit (5 # 10), flit 1),
     (flit (8 # 10), flit (8 # 10), flit (8 # 10), flit 1),
     (flit (8 # 10), flit (8 # 10), flit (8 # 10), flit 1),
     (flit (5 # 10), flit (9 # 10), flit (5 # 10), flit 1)) in
  printf "initialize ANARI..." ;;
  lib <- loadLibrary "helide" ;;
  exts <- getDeviceExtensionStruct lib "default" ;;
  when (negb (ANARI_KHR_GEOMETRY_TRIANGLE exts))
    (printf "WARNING: device doesn't support ANARI_KHR_GEOMETRY_TRIANGLE\n") ;;
  when (negb (ANARI_KHR_CAMERA_PERSPECTIVE exts))
    (printf "WARNING: device doesn't support ANARI_KHR_CAMERA_PERSPECTIVE\n") ;;
  when (negb (ANARI_KHR_MATERIAL_MATTE exts))
    (printf "WARNING: device doesn't support ANARI_KHR_MATERIAL_MATTE\n") ;;
  when (negb (ANARI_KHR_FRAME_COMPLETION_CALLBACK exts))
    (printf
       "INFO: device doesn't support ANARI_KHR_FRAME_COMPLETION_CALLBACK\n") ;;
  d <- newDevice lib "default" ;;
  printf "done!\n" ;;
  printf "setting up camera..." ;;
  camera <- newObject d Camera "perspective" ;;
  setParameter d camera "aspect"
    (VFloat (fdiv (float_of_uint (fst imgSize))
                  (float_of_uint (snd imgSize)))) ;;
  setParameter d camera "position" (VVec3 cam_pos) ;;
  setParameter d camera "direction" (VVec3 cam_view) ;;
  setParameter d camera "up" (VVec3 cam_up) ;;
  commitParameters d camera ;;
  printf "done!\n" ;;
  printf "setting up scene..." ;;
  world <- newObject d World "" ;;
  mesh <- newObject d Geometry "triangle" ;;
  setParameterArray1D d mesh "vertex.position" (AVec3 scene_vertex) ;;
  setParameterArray1D d mesh "vertex.color" (AVec4 (colors_list color)) ;;
  setParameterArray1D d mesh "primitive.index" (AUVec3 scene_index) ;;
  commitParameters d mesh ;;
  mat <- newObject d Material "matte" ;;
  setParameter d mat "color" (VString "color") ;;
  commitParameters d mat ;;
  surface <- newObject d Surface "" ;;
  setAndReleaseParameter d surface "geometry" mesh ;;
  setAndReleaseParameter d surface "material" mat ;;
  setParameter d surface "id" (VUInt 2) ;;
  commitParameters d surface ;;
  setParameterArray1D d world "surface" (AObjects [surface]) ;;
  setParameter d world "id" (VUInt 3) ;;
  release d surface ;;
  commitParameters d world ;;
  printf "done!\n" ;;
  printf "setting up renderer..." ;;
  renderer <- newObject d Renderer "default" ;;
  setParameter d renderer "name" (VString "MainRenderer") ;;
  setParameter d renderer "ambientRadiance" (VFloat (flit 1)) ;;
  commitParameters d renderer ;;
  frame <- newObject d Frame "" ;;
  setAndReleaseParameter d frame "renderer" renderer ;;
  setAndReleaseParameter d frame "camera" camera ;;
  setAndReleaseParameter d frame "world" world ;;
  setParameter d frame "frameCompletionCallback" VOnFrameCompletion ;;
  commitParameters d frame ;;
  ret {| ds := ds; imgSize := imgSize; cam_pos := cam_pos; color := color;
         lib := lib; d := d; camera := camera; mesh := mesh;
         frame := frame |}.

(** [glfwPollEvents()] with the older callback registered. *)
Fixpoint deliver (window : handle) (evs : list KeyEvent) : M unit :=
  match evs with
  | [] => ret tt
  | ev :: rest =>
      when (is_set window)
        (key_callback window (ev_key ev) (ev_scancode ev) (ev_action ev)
           (ev_mods ev)) ;;
      deliver window rest
  end.

Definition PollEvents (window : handle) (evs : list KeyEvent)
  (close_clicked : bool) : M unit :=
  emit glfwPollEvents ;;
  deliver window evs ;;
  when close_clicked (set_should_close true).

(** [if (cond) printf(fmt, getPixelValue(...));] then [k]; the read's value
    is [px], [None] when the read is past the end of the buffer, which
    leaves the rest of the run undefined. *)
Definition print_pixel {A} (cond : bool) (fmt : string) (px : option Z)
  (k : M (option A)) : M (option A) :=
  if cond then
    match px with
    | Some v => emit (std_printf fmt [show_uint v]) ;; k
    | None => ret None
    end
  else k.

(** The body of the [while] loop; [None] when the pass runs into an
    undefined read. *)
Definition loop_body (fi : FrameInput) (ids : IdBuffers) (l : Locals)
  : M (option Locals) :=
  let time := fi_time fi in
  emit (glfwGetFramebufferSize (Window (ds l))) ;;
  let width := fi_width fi in
  let height := fi_height fi in
  let imgSize : uvec2 := (to_uint32 width, to_uint32 height) in
  let color :=
    let '(c0, c1, c2, c3) := color l in
    (vec4_set0 c0 (fsin time), c1, c2, vec4_set0 c3 (fcos time)) in
  setParameterArray1D (d l) (mesh l) "vertex.color"
    (AVec4 (colors_list color)) ;;
  commitParameters (d l) (mesh l) ;;
  let new_cam_pos := vec3_set1 (cam_pos l) (fsin time) in
  setParameter (d l) (camera l) "position" (VVec3 new_cam_pos) ;;
  commitParameters (d l) (camera l) ;;
  setParameter (d l) (frame l) "size" (VUVec2 imgSize) ;;
  setParameter (d l) (frame l) "channel.color"
    (VDataType ANARI_UFIXED8_RGBA_SRGB) ;;
  setParameter (d l) (frame l) "channel.primitiveId"
    (VDataType ANARI_UINT32) ;;
  setParameter (d l) (frame l) "channel.objectId" (VDataType ANARI_UINT32) ;;
  setParameter (d l) (frame l) "channel.instanceId"
    (VDataType ANARI_UINT32) ;;
  commitParameters (d l) (frame l) ;;
  emit (anari_render (d l) (frame l)) ;;
  emit (anari_wait (d l) (frame l)) ;;
  emit (anari_map (d l) (frame l) "channel.color") ;;
  emit (glViewport 0 0 width height) ;;
  emit (glClearColor (flit (3 # 10)) (flit (3 # 10)) (flit (3 # 10))
          (flit 1)) ;;
  emit glClear ;;
  emit (glDrawPixels width height) ;;
  emit (glfwSwapBuffers (Window (ds l))) ;;
  emit (anari_unmap (d l) (frame l) "channel.color") ;;
  emit (anari_map (d l) (frame l) "channel.primitiveId") ;;
  emit (anari_map (d l) (frame l) "channel.objectId") ;;
  emit (anari_map (d l) (frame l) "channel.instanceId") ;;
  let queryPixel : uvec2 := (fst imgSize / 2, snd imgSize / 2) in
  emit (std_printf "checking id buffers @ [%u, %u]:\n"
          [show_uint (fst queryPixel); show_uint (snd queryPixel)]) ;;
  let l' :=
    {| ds := ds l; imgSize := imgSize; cam_pos := cam_pos l; color := color;
       lib := lib l; d := d l; camera := camera l; mesh := mesh l;
       frame := frame l |} in
  print_pixel (is_uint32 (fbPrimId ids)) "    primId: %u\n"
    (getPixelValue queryPixel (to_int32 (fst imgSize)) (data (fbPrimId ids)))
    (print_pixel (is_uint32 (fbObjId ids)) "     objId: %u\n"
       (getPixelValue queryPixel (to_int32 (fst imgSize))
          (data (fbObjId ids)))
       (print_pixel (is_uint32 (fbPrimId ids)) "    instId: %u\n"
          (getPixelValue queryPixel (to_int32 (fst imgSize))
             (data (fbInstId ids)))
          (PollEvents (Window (ds l)) (fi_events fi) (fi_close_clicked fi) ;;
           ret (Some l')))).

(** How a run of [main] stands: it returned, it is still in the loop (the
    recorded answers ran out), or it ran into an undefined read. *)
Inductive outcome : Type :=
| returned (code : Z)
| looping
| undefined.

Fixpoint render_loop (frames : list (FrameInput * IdBuffers)) (l : Locals)
  : M (option (Locals * bool)) :=
  closed <- WindowShouldClose (Window (ds l)) ;;
  if closed : bool then ret (Some (l, true))
  else
    match frames with
    | [] => ret (Some (l, false))
    | (fi, ids) :: rest =>
        r <- loop_body fi ids l ;;
        match r with
        | Some l' => render_loop rest l'
        | None => ret None
        end
    end.

Definition main (frames : list (FrameInput * IdBuffers)) : M outcome :=
  l <- startup ;;
  r <- render_loop frames l ;;
  match r with
  | None => ret undefined
  | Some (_, false) => ret looping
  | Some (l, true) =>
      printf "\ncleaning up objects..." ;;
      release (d l) (frame l) ;;
      release (d l) (d l) ;;
      unloadLibrary (lib l) ;;
      printf "done!\n" ;;
      DisplaySystem_delete (ds l) ;;
      ret (returned 0)
  end.

End Older.
End Legacy.

(** ** Reading the older program's log *)

Module LegacyLog.
Section Log.
Context {FO : FloatOps}.
Variable fcos : float -> float.

(** The colours with new red components for the first and the last
    vertex. *)
Definition set_reds (c : Legacy.colors) (r0 r3 : float) : Legacy.colors :=
  let '(c0, c1, c2, c3) := c in
  (Legacy.vec4_set0 c0 r0, c1, c2, Legacy.vec4_set0 c3 r3).

(** The local variables one pass of the loop leaves behind. *)
Definition after_pass (l : Legacy.Locals) (fi : FrameInput) : Legacy.Locals :=
  {| Legacy.ds := Legacy.ds l;
     Legacy.imgSize := (to_uint32 (fi_width fi), to_uint32 (fi_height fi));
     Legacy.cam_pos := Legacy.cam_pos l;
     Legacy.color :=
       set_reds (Legacy.color l) (fsin (fi_time fi)) (fcos (fi_time fi));
     Legacy.lib := Legacy.lib l; Legacy.d := Legacy.d l;
     Legacy.camera := Legacy.camera l; Legacy.mesh := Legacy.mesh l;
     Legacy.frame := Legacy.frame l |}.

(** The calls of a pass up to the announcement of the id check, for the
    answers [fi] and the locals [l]. *)
Definition pass_head (l : Legacy.Locals) (fi : FrameInput) : list call :=
  let w := Legacy.Window (Legacy.ds l) in
  let dev := Legacy.d l in
  let fr := Legacy.frame l in
  let size := (to_uint32 (fi_width fi), to_uint32 (fi_height fi)) in
  [ glfwGetFramebufferSize w;
    anari_setParameterArray1D dev (Legacy.mesh l) "vertex.color"
      (AVec4 (Legacy.colors_list
                (set_reds (Legacy.color l) (fsin (fi_time fi))
                   (fcos (fi_time fi)))));
    anari_commitParameters dev (Legacy.mesh l);
    anari_setParameter dev (Legacy.camera l) "position"
      (VVec3 (vec3_set1 (Legacy.cam_pos l) (fsin (fi_time fi))));
    anari_commitParameters dev (Legacy.camera l);
    anari_setParameter dev fr "size" (VUVec2 size);
    anari_setParameter dev fr "channel.color"
      (VDataType ANARI_UFIXED8_RGBA_SRGB);
    anari_setParameter dev fr "channel.primitiveId" (VDataType ANARI_UINT32);
    anari_setParameter dev fr "channel.objectId" (VDataType ANARI_UINT32);
    anari_setParameter dev fr "channel.instanceId" (VDataType ANARI_UINT32);
    anari_commitParameters dev fr;
    anari_render dev fr;
    anari_wait dev fr;
    anari_map dev fr "channel.color";
    glViewport 0 0 (fi_width fi) (fi_height fi);
    glClearColor (flit (3 # 10)) (flit (3 # 10)) (flit (3 # 10)) (flit 1);
    glClear;
    glDrawPixels (fi_width fi) (fi_height fi);
    glfwSwapBuffers w;
    anari_unmap dev fr "channel.color";
    anari_map dev fr "channel.primitiveId";
    anari_map dev fr "channel.objectId";
    anari_map dev fr "channel.instanceId";
    std_printf "checking id buffers @ [%u, %u]:\n"
      [ show_uint (fst size / 2); show_uint (snd size / 2) ] ].

(** The locals as [main] has them when it enters the loop, in a run from
    the initial world with window [w]. *)
Definition entry (w : handle) : Legacy.Locals :=
  {| Legacy.ds := {| Legacy.window_ := w |};
     Legacy.imgSize := (kWidth, kHeight);
     Legacy.cam_pos := (flit 0, flit 0, flit 0);
     Legacy.color :=
       ((flit (9 # 10), flit (5 # 10), flit (5 # 10), flit 1),
        (flit (8 # 10), flit (8 # 10), flit (8 # 10), flit 1),
        (flit (8 # 10), flit (8 # 10), flit (8 # 10), flit 1),
        (flit (5 # 10), flit (9 # 10), flit (5 # 10), flit 1));
     Legacy.lib := 1; Legacy.d := 2; Legacy.camera := 3; Legacy.mesh := 5;
     Legacy.frame := 9 |}.

(** [l'] differs from [l] at most in the image size and in the two red
    components the loop animates. *)
Definition same_scene (l l' : Legacy.Locals) : Prop :=
  Legacy.ds l' = Legacy.ds l /\ Legacy.cam_pos l' = Legacy.cam_pos l
  /\ Legacy.lib l' = Legacy.lib l /\ Legacy.d l' = Legacy.d l
  /\ Legacy.camera l' = Legacy.camera l /\ Legacy.mesh l' = Legacy.mesh l
  /\ Legacy.frame l' = Legacy.frame l
  /\ exists r0 r3, Legacy.color l' = set_reds (Legacy.color l) r0 r3.

(** The cleanup at the end of [main], with the destructor of the display
    system. *)
Definition cleanup (w : handle) : list call :=
  [ std_printf "\ncleaning up objects..." [];
    anari_release 2 9; anari_release 2 2; anari_unloadLibrary 1;
    std_printf "done!\n" [] ]
  ++ (if is_set w then [glfwDestroyWindow w] else [])
  ++ [ glfwTerminate ].

End Log.

(** Calls of a pass after the announcement of the id check: the lines of
    the check, the event poll, and the close request of the key
    callback. *)
Definition report_call {FO : FloatOps} (c : call) : bool :=
  match c with
  | std_printf _ _ | glfwPollEvents | glfwSetWindowShouldClose _ _ => true
  | _ => false
  end.

(** The line of the id check printed with format [fmt]. *)
Definition id_line {FO : FloatOps} (fmt : string) (c : call) : bool :=
  match c with
  | std_printf f [_] => String.eqb f fmt
  | _ => false
  end.

(** Updates of the per-vertex colours or of the position of camera
    [cam]. *)
Definition animator {FO : FloatOps} (cam : handle) (c : call) : bool :=
  sets_vertex_color c || sets_camera_position cam c.

End LegacyLog.

(** ** Concrete inputs *)

Definition all_extensions : Extensions :=
  {| ANARI_KHR_GEOMETRY_TRIANGLE := true;
     ANARI_KHR_CAMERA_PERSPECTIVE := true;
     ANARI_KHR_MATERIAL_MATTE := true;
     ANARI_KHR_FRAME_COMPLETION_CALLBACK := true |}.

Definition key_press (key : Z) : KeyEvent :=
  {| ev_key := key; ev_scancode := 0; ev_action := GLFW_PRESS;
     ev_mods := 0 |}.

(** A resized window, half a second in, and a press of escape. *)
Definition sample_frame : @FrameInput TermFloat :=
  {| fi_time := TLit (1 # 2) : @float TermFloat;
     fi_width := 800; fi_height := 600;
     fi_events := [key_press GLFW_KEY_ESCAPE];
     fi_close_clicked := false |}.

(** An answer that raises no close request: a press of [A]. *)
Definition quiet_frame : @FrameInput TermFloat :=
  {| fi_time := TLit (1 # 4) : @float TermFloat;
     fi_width := 640; fi_height := 480;
     fi_events := [key_press GLFW_KEY_A];
     fi_close_clicked := false |}.

(** A platform on which window creation succeeds (window 77), and one on
    which it fails. *)
Definition sample_world : @Extern TermFloat :=
  initial 77 "" all_extensions.

Definition windowless_world : @Extern TermFloat :=
  initial nullptr "no display" all_extensions.

Definition sample_wrapper : WindowWrapper := {| window_ := 77 |}.

(** The display and render systems as [main] has them when it enters the
    render loop. *)
Definition sample_display : DisplaySystem :=
  fst (eval startup sample_world).

Definition sample_system : @RenderSystem TermFloat :=
  snd (eval startup sample_world).

(** For runs of the older program the floats are terms with a cosine. *)
Inductive trig : Type :=
| GLit (q : Q)
| GOfUint (n : Z)
| GDiv (a b : trig)
| GSin (a : trig)
| GCos (a : trig).

Definition TrigFloat : FloatOps :=
  {| float := trig; flit := GLit; float_of_uint := GOfUint;
     fdiv := GDiv; fsin := GSin |}.

(** [std::cos] in that model. *)
Definition sample_cos : @float TrigFloat -> @float TrigFloat := GCos.

(** Id buffers of a 2 x 2 image. *)
Definition sample_ids : IdBuffers :=
  {| fbPrimId := {| pixelType := Some ANARI_UINT32; data := [0; 0; 1; 1] |};
     fbObjId := {| pixelType := Some ANARI_UINT32; data := [2; 2; 2; 2] |};
     fbInstId := {| pixelType := None; data := [7; 7; 7; 7] |} |}.

(** A 2 x 2 framebuffer, a quarter of a second in, and a press of escape. *)
Definition small_frame : @FrameInput TrigFloat :=
  {| fi_time := GLit (1 # 4) : @float TrigFloat;
     fi_width := 2; fi_height := 2;
     fi_events := [key_press GLFW_KEY_ESCAPE];
     fi_close_clicked := false |}.

Definition legacy_world : @Extern TrigFloat := initial 77 "" all_extensions.

(** * Properties *)

Section Properties.
Context {FO : FloatOps}.

Notation "x <- m ;; k" := (bind m (fun x => k))
  (at level 61, m at next level, right associativity).
Notation "m ;; k" := (bind m (fun _ => k))
  (at level 61, right associativity).

(** ** Running the monad *)

Lemma exec_bind {A B} (m : M A) (k : A -> M B) (e : Extern) :
  exec (bind m k) e = exec (k (eval m e)) (exec m e).
Proof. unfold exec, eval, bind. destruct (m e); reflexivity. Qed.

Lemma eval_bind {A B} (m : M A) (k : A -> M B) (e : Extern) :
  eval (bind m k) e = eval (k (eval m e)) (exec m e).
Proof. unfold exec, eval, bind. destruct (m e); reflexivity. Qed.

Lemma run_eta {A} (m : M A) (e : Extern) : m e = (eval m e, exec m e).
Proof. unfold exec, eval. destruct (m e); reflexivity. Qed.

Lemma logged_new_calls {A} (m : M A) (e : Extern) (d : list call) :
  logged m e d -> new_calls m e = d.
Proof.
  unfold logged, new_calls. intros H. rewrite H, skipn_app, skipn_all.
  now rewrite Nat.sub_diag.
Qed.

(** ** The key handler *)

Ltac key_cases key action :=
  unfold HandleKey;
  destruct (Z.eqb_spec action GLFW_PRESS);
  [ destruct (Z.eqb_spec key GLFW_KEY_ESCAPE);
    [ | destruct (Z.eqb_spec key GLFW_KEY_A);
        [ | destruct (Z.eqb_spec key GLFW_KEY_D) ] ]
  | ]; cbn.

(** C1. Whatever key event reaches the key handler, the window's
    close-request flag is raised exactly by a press of escape: afterwards the
    flag is set iff it was set before or the event is a press of escape.  For
    every other key the flag is left as it was (unset stays unset), and the
    handler's only call is one message to the log when the event is a press,
    none otherwise. *)
Theorem HandleKey_only_escape_closes (this : WindowWrapper)
  (key scancode action mods : Z) (e : Extern) :
  let e' := exec (HandleKey this key scancode action mods) e in
  (should_close e' = true <->
   should_close e = true \/ (key = GLFW_KEY_ESCAPE /\ action = GLFW_PRESS))
  /\ (key <> GLFW_KEY_ESCAPE ->
      should_close e' = should_close e
      /\ exists msg,
           calls e' =
           calls e ++ (if action =? GLFW_PRESS then [std_printf msg []]
                       else [])).
Proof.
  key_cases key action; (split; [ | intros Hk; split; [ | ] ]);
    try reflexivity; try (exfalso; apply Hk; assumption);
    try (eexists; reflexivity);
    try (exists ""; symmetry; apply app_nil_r);
    try (split; [ intros H; now left | intros [H | [H1 H2]];
                  [ exact H | contradiction ] ]).
  split; [ intros _; right; split; assumption | reflexivity ].
Qed.

(** C8. An event that is not a press (a release or a repeat) changes
    nothing, whatever the key: the handler returns with the outside world,
    close-request flag and log included, exactly as it found it. *)
Theorem HandleKey_ignores_non_press (this : WindowWrapper)
  (key scancode action mods : Z) (e : Extern) :
  action <> GLFW_PRESS ->
  HandleKey this key scancode action mods e = (tt, e).
Proof.
  intros H. unfold HandleKey.
  destruct (Z.eqb_spec action GLFW_PRESS); [ contradiction | reflexivity ].
Qed.

(** The same over a batch of events, as [glfwPollEvents] delivers them to
    the registered callback: the flag ends set iff it was set or the batch
    holds a press of escape (events reach the handler only when there is a
    window). *)
Lemma deliver_should_close (ds : DisplaySystem) (evs : list KeyEvent)
  (e : Extern) :
  should_close (exec (deliver ds evs) e)
  = should_close e
    || (is_set (Window ds)
        && existsb (fun ev => (ev_key ev =? GLFW_KEY_ESCAPE)
                              && (ev_action ev =? GLFW_PRESS)) evs).
Proof.
  revert e. induction evs as [ | ev rest IH ]; intros e.
  - cbn. now rewrite andb_false_r, orb_false_r.
  - cbn [deliver existsb]. rewrite exec_bind, IH.
    unfold key_callback, Window, when.
    destruct (window_wrapper_ ds) as [ w | ]; cbn;
      [ destruct (is_set (window_ w)); cbn | ];
      rewrite ?orb_false_r; try reflexivity.
    unfold HandleKey.
    destruct (ev_action ev =? GLFW_PRESS), (ev_key ev =? GLFW_KEY_ESCAPE),
      (ev_key ev =? GLFW_KEY_A), (ev_key ev =? GLFW_KEY_D);
      cbn; rewrite ?orb_true_r; reflexivity.
Qed.

(** ** The per-frame updates *)

(** C7. For every triple [pos], [up], [dir] and every state,
    [UpdateCamera] leaves a system whose three getters return [pos], [up]
    and [dir], and its calls are exactly: set the camera's position, up and
    direction to them, then commit the camera.  Likewise, after
    [UpdateFrameSize size] the getter returns [size], and the calls are:
    set the frame's size to it, then commit the frame.  Neither has a
    precondition, so both can run on every frame. *)
Theorem UpdateCamera_UpdateFrameSize_set_and_commit (this : RenderSystem)
  (pos up dir : vec3) (size : uvec2) (e : Extern) :
  (GetCameraPosition (eval (UpdateCamera this pos up dir) e) = pos
   /\ GetCameraUp (eval (UpdateCamera this pos up dir) e) = up
   /\ GetCameraDirection (eval (UpdateCamera this pos up dir) e) = dir
   /\ logged (UpdateCamera this pos up dir) e
        [ anari_setParameter (device_ this) (camera_ this) "position"
            (VVec3 pos);
          anari_setParameter (device_ this) (camera_ this) "up" (VVec3 up);
          anari_setParameter (device_ this) (camera_ this) "direction"
            (VVec3 dir);
          anari_commitParameters (device_ this) (camera_ this) ])
  /\ (GetFrameSize (eval (UpdateFrameSize this size) e) = size
      /\ logged (UpdateFrameSize this size) e
           [ anari_setParameter (device_ this) (frame_ this) "size"
               (VUVec2 size);
             anari_commitParameters (device_ this) (frame_ this) ]).
Proof.
  unfold logged. cbn. repeat rewrite <- app_assoc. cbn.
  repeat split; reflexivity.
Qed.

(** The updates touch no handle of the system. *)
Lemma UpdateCamera_handles (this : RenderSystem) (pos up dir : vec3)
  (e : Extern) :
  let this' := eval (UpdateCamera this pos up dir) e in
  library_ this' = library_ this /\ device_ this' = device_ this
  /\ camera_ this' = camera_ this /\ frame_ this' = frame_ this
  /\ frame_size_ this' = frame_size_ this.
Proof. cbn. repeat split; reflexivity. Qed.

Lemma UpdateFrameSize_handles (this : RenderSystem) (size : uvec2)
  (e : Extern) :
  let this' := eval (UpdateFrameSize this size) e in
  library_ this' = library_ this /\ device_ this' = device_ this
  /\ camera_ this' = camera_ this /\ frame_ this' = frame_ this
  /\ camera_position_ this' = camera_position_ this
  /\ camera_up_ this' = camera_up_ this
  /\ camera_direction_ this' = camera_direction_ this.
Proof. cbn. repeat split; reflexivity. Qed.

(** ** Shutdown *)

Ltac handle_cases this :=
  unfold RenderSystem_delete, when, is_set, nullptr in *;
  destruct (Z.eqb_spec (device_ this) 0);
  destruct (Z.eqb_spec (frame_ this) 0);
  destruct (Z.eqb_spec (library_ this) 0); cbn in *.

(** C3. Whatever state the render system is in, its destructor's calls are
    an order-preserving selection of: release the frame, release the
    device, unload the library.  So a frame release never follows the device
    release, and no release follows the unload.  When all three handles are
    set, as they are after [Init] and [SetupFrame], the calls are exactly
    these three, in this order. *)
Theorem RenderSystem_delete_order (this : RenderSystem) (e : Extern) :
  exists d,
    logged (RenderSystem_delete this) e d
    /\ selection d
         [ anari_release (device_ this) (frame_ this);
           anari_release (device_ this) (device_ this);
           anari_unloadLibrary (library_ this) ]
    /\ (is_set (library_ this) = true ->
        is_set (device_ this) = true ->
        is_set (frame_ this) = true ->
        d = [ anari_release (device_ this) (frame_ this);
              anari_release (device_ this) (device_ this);
              anari_unloadLibrary (library_ this) ]).
Proof.
  unfold logged.
  handle_cases this; repeat rewrite <- app_assoc; cbn;
    eexists; (split; [ try reflexivity; symmetry; apply app_nil_r | ]);
    (split; [ repeat first [ apply sel_nil | apply sel_take | apply sel_skip ]
            | intros; congruence ]).
Qed.

(** C10. A render system whose device and library handles are empty, as
    they are before [Init], is destroyed without a single call.  In every
    state, each release the destructor issues goes to the system's device
    handle and that handle is not empty; and the frame is released only when
    both the device handle and the frame handle are set. *)
Theorem RenderSystem_delete_guards (this : RenderSystem) (e : Extern) :
  (device_ this = nullptr -> library_ this = nullptr ->
   RenderSystem_delete this e = (tt, e))
  /\ exists d,
       logged (RenderSystem_delete this) e d
       /\ (forall dv o, In (anari_release dv o) d ->
             dv = device_ this /\ dv <> nullptr)
       /\ (forall dv, In (anari_release dv (frame_ this)) d ->
             device_ this <> nullptr /\ frame_ this <> nullptr).
Proof.
  unfold logged. split.
  - intros Hd Hl. unfold RenderSystem_delete, when, is_set.
    rewrite Hd, Hl. cbn. destruct e; reflexivity.
  - handle_cases this; repeat rewrite <- app_assoc; cbn;
      eexists; (split; [ try reflexivity; symmetry; apply app_nil_r | ]);
      (split; [ intros dv o H | intros dv H ]);
      cbn in H; intuition (try discriminate; try congruence);
      match goal with
      | H : anari_release _ _ = anari_release _ _ |- _ =>
          injection H as H1 H2; congruence
      end.
Qed.

(** ** The render loop *)

Lemma HandleKey_logged (w : WindowWrapper) (key scancode action mods : Z)
  (e : Extern) :
  exists d, logged (HandleKey w key scancode action mods) e d
            /\ Forall (fun c => key_call c = true) d.
Proof.
  unfold logged. key_cases key action; repeat rewrite <- app_assoc; cbn;
    eexists; (split; [ try reflexivity; symmetry; apply app_nil_r | ]);
    repeat constructor.
Qed.

Lemma deliver_logged (ds : DisplaySystem) (evs : list KeyEvent) (e : Extern) :
  exists d, logged (deliver ds evs) e d
            /\ Forall (fun c => key_call c = true) d.
Proof.
  revert e. induction evs as [ | ev rest IH ]; intros e.
  - exists []. split; [ unfold logged; cbn; symmetry; apply app_nil_r
                      | constructor ].
  - cbn [deliver]. unfold logged. rewrite exec_bind.
    destruct (IH (exec (key_callback ds ev) e)) as (d2 & H2 & F2).
    assert (exists d1, logged (key_callback ds ev) e d1
                       /\ Forall (fun c => key_call c = true) d1)
      as (d1 & H1 & F1).
    { unfold key_callback, when.
      destruct (window_wrapper_ ds) as [ w | ];
        [ destruct (is_set (window_ w)) | ];
        try apply HandleKey_logged;
        (exists []; split;
         [ unfold logged; cbn; symmetry; apply app_nil_r | constructor ]). }
    exists (d1 ++ d2). split.
    + unfold logged in *. rewrite H2, H1. now rewrite app_assoc.
    + apply Forall_app; split; assumption.
Qed.

(** What one pass of the loop returns and logs. *)
Lemma loop_body_eval (ds : DisplaySystem) (fi : FrameInput)
  (rs : RenderSystem) (e : Extern) :
  eval (loop_body ds fi rs) e =
  set_camera_vectors
    (vec3_set1 (camera_position_ rs) (fsin (fi_time fi)))
    (camera_direction_ rs) (camera_up_ rs)
    (set_frame_size_ (to_uint32 (fi_width fi), to_uint32 (fi_height fi)) rs).
Proof.
  unfold loop_body. repeat rewrite eval_bind. reflexivity.
Qed.

Lemma loop_body_logged (ds : DisplaySystem) (fi : FrameInput)
  (rs : RenderSystem) (e : Extern) :
  exists k,
    logged (loop_body ds fi rs) e
      (glfwGetFramebufferSize (Window ds)
       :: anari_setParameter (device_ rs) (frame_ rs) "size"
            (VUVec2 (to_uint32 (fi_width fi), to_uint32 (fi_height fi)))
       :: anari_commitParameters (device_ rs) (frame_ rs)
       :: anari_setParameter (device_ rs) (camera_ rs) "position"
            (VVec3 (vec3_set1 (camera_position_ rs) (fsin (fi_time fi))))
       :: anari_setParameter (device_ rs) (camera_ rs) "up"
            (VVec3 (camera_up_ rs))
       :: anari_setParameter (device_ rs) (camera_ rs) "direction"
            (VVec3 (camera_direction_ rs))
       :: anari_commitParameters (device_ rs) (camera_ rs)
       :: anari_render (device_ rs) (frame_ rs)
       :: anari_wait (device_ rs) (frame_ rs)
       :: anari_map (device_ rs) (frame_ rs) "channel.color"
       :: glViewport 0 0 (fi_width fi) (fi_height fi)
       :: glClearColor (flit (3 # 10)) (flit (3 # 10)) (flit (3 # 10))
            (flit 1)
       :: glClear
       :: glDrawPixels (fi_width fi) (fi_height fi)
       :: glfwSwapBuffers (Window ds)
       :: anari_unmap (device_ rs) (frame_ rs) "channel.color"
       :: glfwPollEvents
       :: k)
    /\ Forall (fun c => key_call c = true) k.
Proof.
  unfold logged, loop_body, PollEvents. repeat rewrite exec_bind.
  match goal with
  | |- context [exec (deliver ?d ?l) ?e0] =>
      destruct (deliver_logged d l e0) as (k & Hk & Fk)
  end.
  exists k. split; [ | exact Fk ].
  unfold logged in Hk. destruct (fi_close_clicked fi); cbn in *; rewrite Hk;
    repeat rewrite <- app_assoc; reflexivity.
Qed.

Lemma checked_calls (ds : DisplaySystem) (e : Extern) :
  calls (checked ds e) = calls e ++ [glfwWindowShouldClose (Window ds)].
Proof. reflexivity. Qed.

Lemma render_loop_closed (ds : DisplaySystem) (frames : list FrameInput)
  (rs : RenderSystem) (e : Extern) :
  should_close e = true ->
  render_loop ds frames rs e = ((rs, true), checked ds e).
Proof.
  intros H. destruct frames; cbn; rewrite H; reflexivity.
Qed.

Lemma render_loop_out (ds : DisplaySystem) (rs : RenderSystem) (e : Extern) :
  should_close e = false ->
  render_loop ds [] rs e = ((rs, false), checked ds e).
Proof. intros H. cbn. rewrite H. reflexivity. Qed.

Lemma render_loop_step (ds : DisplaySystem) (fi : FrameInput)
  (rest : list FrameInput) (rs : RenderSystem) (e : Extern) :
  should_close e = false ->
  render_loop ds (fi :: rest) rs e =
  render_loop ds rest (eval (loop_body ds fi rs) (checked ds e))
    (exec (loop_body ds fi rs) (checked ds e)).
Proof.
  intros H. cbn [render_loop]. unfold bind at 1.
  change (WindowShouldClose (Window ds) e) with (should_close e, checked ds e).
  rewrite H. unfold bind at 1.
  rewrite (run_eta (loop_body ds fi rs) (checked ds e)). reflexivity.
Qed.

(** A loop-invariant rule for the render loop: what holds at the loop's
    test and survives a pass holds when the loop is left, however many
    passes ran. *)
Lemma render_loop_invariant (I : RenderSystem -> Extern -> Prop)
  (ds : DisplaySystem) :
  (forall rs e, I rs e -> I rs (checked ds e)) ->
  (forall fi rs e,
      I rs e -> I (eval (loop_body ds fi rs) e) (exec (loop_body ds fi rs) e)) ->
  forall frames rs e,
    I rs e ->
    I (fst (eval (render_loop ds frames rs) e))
      (exec (render_loop ds frames rs) e).
Proof.
  intros Hc Hb frames. induction frames as [ | fi rest IH ]; intros rs e HI;
    unfold eval, exec; destruct (should_close e) eqn:Hs.
  - rewrite render_loop_closed by assumption. cbn. now apply Hc.
  - rewrite render_loop_out by assumption. cbn. now apply Hc.
  - rewrite render_loop_closed by assumption. cbn. now apply Hc.
  - rewrite render_loop_step by assumption. apply IH. apply Hb. now apply Hc.
Qed.


Lemma key_call_not_paced (c : call) : key_call c = true -> paced c = false.
Proof. destruct c; cbn; congruence. Qed.

Lemma key_call_loop_call (c : call) : key_call c = true -> loop_call c = true.
Proof. destruct c; cbn; congruence. Qed.

Lemma loop_body_handles (ds : DisplaySystem) (fi : FrameInput)
  (rs : RenderSystem) (e : Extern) :
  let rs' := eval (loop_body ds fi rs) e in
  library_ rs' = library_ rs /\ device_ rs' = device_ rs
  /\ camera_ rs' = camera_ rs /\ frame_ rs' = frame_ rs.
Proof. cbv zeta. rewrite loop_body_eval. repeat split; reflexivity. Qed.

Lemma loop_body_pass_log (ds : DisplaySystem) (fi : FrameInput)
  (rs : RenderSystem) (e : Extern) :
  exists it, logged (loop_body ds fi rs) e it
             /\ pass_log (Window ds) (device_ rs) (frame_ rs) fi it.
Proof.
  destruct (loop_body_logged ds fi rs e) as (k & Hk & Fk).
  eexists. split; [ exact Hk | ].
  exists [ anari_setParameter (device_ rs) (camera_ rs) "position"
             (VVec3 (vec3_set1 (camera_position_ rs) (fsin (fi_time fi))));
           anari_setParameter (device_ rs) (camera_ rs) "up"
             (VVec3 (camera_up_ rs));
           anari_setParameter (device_ rs) (camera_ rs) "direction"
             (VVec3 (camera_direction_ rs));
           anari_commitParameters (device_ rs) (camera_ rs) ],
         [ anari_map (device_ rs) (frame_ rs) "channel.color";
           glViewport 0 0 (fi_width fi) (fi_height fi);
           glClearColor (flit (3 # 10)) (flit (3 # 10)) (flit (3 # 10))
             (flit 1);
           glClear;
           glDrawPixels (fi_width fi) (fi_height fi) ],
         (anari_unmap (device_ rs) (frame_ rs) "channel.color"
          :: glfwPollEvents :: k).
  split; [ reflexivity | ].
  cbn. repeat (constructor; [ reflexivity | ]).
  eapply Forall_impl; [ | exact Fk ]. exact key_call_not_paced.
Qed.

Lemma emit_should_close (c : call) (e : Extern) :
  should_close (exec (emit c) e) = should_close e.
Proof. reflexivity. Qed.

Lemma UpdateFrameSize_should_close (r : RenderSystem) (s : uvec2)
  (e : Extern) :
  should_close (exec (UpdateFrameSize r s) e) = should_close e.
Proof. reflexivity. Qed.

Lemma UpdateCamera_should_close (r : RenderSystem) (p u d : vec3)
  (e : Extern) :
  should_close (exec (UpdateCamera r p u d) e) = should_close e.
Proof. reflexivity. Qed.

Lemma RenderFrame_should_close (r : RenderSystem) (e : Extern) :
  should_close (exec (RenderFrame r) e) = should_close e.
Proof. reflexivity. Qed.

Lemma MapFrame_should_close (r : RenderSystem) (e : Extern) :
  should_close (exec (MapFrame r) e) = should_close e.
Proof. reflexivity. Qed.

Lemma UnmapFrame_should_close (r : RenderSystem) (e : Extern) :
  should_close (exec (UnmapFrame r) e) = should_close e.
Proof. reflexivity. Qed.

Lemma loop_body_should_close (ds : DisplaySystem) (fi : FrameInput)
  (rs : RenderSystem) (e : Extern) :
  should_close (exec (loop_body ds fi rs) e) = should_close e || closes ds fi.
Proof.
  unfold loop_body, PollEvents, closes. repeat rewrite exec_bind.
  match goal with
  | |- context [exec (deliver ?d ?l) ?E] =>
      pose proof (deliver_should_close d l E) as HD;
      rewrite emit_should_close, UnmapFrame_should_close,
        !emit_should_close, MapFrame_should_close, RenderFrame_should_close,
        UpdateCamera_should_close, UpdateFrameSize_should_close,
        emit_should_close in HD;
      generalize dependent (exec (deliver d l) E)
  end.
  intros E' HD. unfold when, exec, ret, set_should_close.
  destruct (fi_close_clicked fi); cbn [snd should_close].
  - now rewrite !orb_true_r.
  - rewrite HD, orb_false_r. reflexivity.
Qed.

Lemma checked_should_close (ds : DisplaySystem) (e : Extern) :
  should_close (checked ds e) = should_close e.
Proof. reflexivity. Qed.

(** C2. The render loop makes one pass per answer of the platform, up to
    and including the first answer that raises the close request: as many
    passes as [iterations] counts, none only when the request is raised
    from the start or there is no answer.  Its log is made of these passes,
    each opened by the loop's test of the close request, and one closing
    test.  The k-th pass belongs to the k-th framebuffer size the platform
    answered and has the shape [pass_log]: the frame's size parameter is set
    from the size polled in that very pass and committed before the render
    request; there is exactly one render request, directly followed by the
    wait on the same device and frame, and both come before the pass's one
    buffer swap. *)
Theorem render_loop_passes (ds : DisplaySystem) (frames : list FrameInput)
  (rs : RenderSystem) (e : Extern) :
  exists its,
    List.length its = iterations ds (should_close e) frames
    /\ logged (render_loop ds frames rs) e
         (List.concat (map (cons (glfwWindowShouldClose (Window ds))) its)
          ++ [glfwWindowShouldClose (Window ds)])
    /\ Forall2 (pass_log (Window ds) (device_ rs) (frame_ rs))
         (firstn (List.length its) frames) its.
Proof.
  revert rs e. induction frames as [ | fi rest IH ]; intros rs e;
    unfold logged, exec; destruct (should_close e) eqn:Hs.
  - rewrite render_loop_closed by assumption.
    exists []. split; [ reflexivity | ].
    split; [ reflexivity | constructor ].
  - rewrite render_loop_out by assumption.
    exists []. split; [ reflexivity | ].
    split; [ reflexivity | constructor ].
  - rewrite render_loop_closed by assumption.
    exists []. split; [ reflexivity | ].
    split; [ reflexivity | constructor ].
  - rewrite render_loop_step by assumption.
    destruct (loop_body_pass_log ds fi rs (checked ds e)) as (it & Hit & Pit).
    destruct (loop_body_handles ds fi rs (checked ds e)) as (_ & Hd & _ & Hf).
    destruct (IH (eval (loop_body ds fi rs) (checked ds e))
                 (exec (loop_body ds fi rs) (checked ds e)))
      as (its & Hn & Hits & Pits).
    rewrite loop_body_should_close, checked_should_close, Hs in Hn.
    rewrite Hd, Hf in Pits.
    exists (it :: its). split; [ | split ].
    + cbn [List.length iterations]. rewrite Hn. reflexivity.
    + unfold logged in Hits. unfold exec at 1 in Hits. rewrite Hits.
      unfold logged in Hit. rewrite Hit, checked_calls.
      cbn [map List.concat]. repeat rewrite <- app_assoc. reflexivity.
    + cbn [List.length firstn]. constructor; assumption.
Qed.


(** ** Startup and shutdown around the loop *)

Lemma main_run (frames : list FrameInput) (e : Extern) :
  let p := eval startup e in
  let e1 := exec startup e in
  let r := eval (render_loop (fst p) frames (snd p)) e1 in
  let e2 := exec (render_loop (fst p) frames (snd p)) e1 in
  main frames e =
  if snd r then
    (Some 0,
     exec (DisplaySystem_delete (fst p))
       (exec (RenderSystem_delete (fst r)) e2))
  else (None, e2).
Proof.
  cbv zeta. rewrite (run_eta (main frames) e). unfold main.
  rewrite eval_bind, exec_bind, eval_bind, exec_bind.
  destruct (snd (eval (render_loop (fst (eval startup e)) frames
                         (snd (eval startup e))) (exec startup e))).
  - rewrite eval_bind, exec_bind, eval_bind, exec_bind. reflexivity.
  - reflexivity.
Qed.

Lemma startup_eval (w : handle) (err : string) (exts : Extensions) :
  eval startup (initial w err exts) =
  ({| window_wrapper_ := Some {| window_ := w |} |},
   {| library_ := 1; device_ := 2; renderer_ := 3; world_ := 5;
      camera_position_ := (flit 0, flit 0, flit 0);
      camera_direction_ := (flit (1 # 10), flit 0, flit 1);
      camera_up_ := (flit 0, flit 1, flit 0);
      camera_ := 4; frame_size_ := (kWidth, kHeight); frame_ := 9 |}).
Proof.
  destruct exts as [a b c d].
  unfold eval, startup, bind, CreateWindow, when, bind, initial. cbn.
  destruct (w =? nullptr), a, b, c, d; reflexivity.
Qed.

Lemma startup_lifecycle (w : handle) (err : string) (exts : Extensions) :
  filter lifecycle (calls (exec startup (initial w err exts))) =
  [ anari_loadLibrary "helide" 1;
    anari_newDevice 1 "default" 2;
    anari_newObject 2 Renderer "default" 3;
    anari_newObject 2 Camera "perspective" 4;
    anari_newObject 2 World "" 5;
    anari_newObject 2 Geometry "triangle" 6;
    anari_newObject 2 Material "matte" 7;
    anari_newObject 2 Surface "" 8;
    anari_setParameter 2 8 "geometry" (VObject 6);
    anari_release 2 6;
    anari_setParameter 2 8 "material" (VObject 7);
    anari_release 2 7;
    anari_setParameterArray1D 2 5 "surface" (AObjects [8]);
    anari_release 2 8;
    anari_newObject 2 Frame "" 9;
    anari_setParameter 2 9 "renderer" (VObject 3);
    anari_release 2 3;
    anari_setParameter 2 9 "camera" (VObject 4);
    anari_release 2 4;
    anari_setParameter 2 9 "world" (VObject 5);
    anari_release 2 5 ].
Proof.
  destruct exts as [a b c d].
  unfold exec, startup, bind, CreateWindow, when, bind, initial. cbn.
  destruct (w =? nullptr), a, b, c, d; reflexivity.
Qed.

Lemma render_loop_handles (ds : DisplaySystem) (frames : list FrameInput)
  (rs : RenderSystem) (e : Extern) :
  let rs' := fst (eval (render_loop ds frames rs) e) in
  library_ rs' = library_ rs /\ device_ rs' = device_ rs
  /\ camera_ rs' = camera_ rs /\ frame_ rs' = frame_ rs.
Proof.
  apply (render_loop_invariant
           (fun rs' _ => library_ rs' = library_ rs /\ device_ rs' = device_ rs
                         /\ camera_ rs' = camera_ rs /\ frame_ rs' = frame_ rs)).
  - trivial.
  - intros fi rs1 e1 (H1 & H2 & H3 & H4).
    destruct (loop_body_handles ds fi rs1 e1) as (G1 & G2 & G3 & G4).
    repeat split; congruence.
  - repeat split; reflexivity.
Qed.

Lemma render_loop_loop_calls (ds : DisplaySystem) (frames : list FrameInput)
  (rs : RenderSystem) (e : Extern) :
  exists d, logged (render_loop ds frames rs) e d
            /\ Forall (fun c => loop_call c = true) d.
Proof.
  apply (render_loop_invariant
           (fun _ e' => exists d, calls e' = calls e ++ d
                                  /\ Forall (fun c => loop_call c = true) d)).
  - intros rs1 e1 (d & Hd & Fd). exists (d ++ [glfwWindowShouldClose (Window ds)]).
    split.
    + rewrite checked_calls, Hd. now rewrite app_assoc.
    + apply Forall_app. split; [ exact Fd | repeat constructor ].
  - intros fi rs1 e1 (d & Hd & Fd).
    destruct (loop_body_logged ds fi rs1 e1) as (k & Hk & Fk).
    eexists. split.
    + unfold logged in Hk. rewrite Hk, Hd. rewrite <- app_assoc. reflexivity.
    + apply Forall_app. split; [ exact Fd | ].
      repeat (constructor; [ reflexivity | ]).
      eapply Forall_impl; [ | exact Fk ]. exact key_call_loop_call.
  - exists []. split; [ symmetry; apply app_nil_r | constructor ].
Qed.

Lemma filter_nothing {A} (p : A -> bool) (l : list A) :
  Forall (fun c => p c = false) l -> filter p l = [].
Proof.
  induction 1 as [ | c l Hc _ IH ]; cbn; [ reflexivity | ].
  now rewrite Hc.
Qed.

Lemma loop_call_not_lifecycle (c : call) :
  loop_call c = true -> lifecycle c = false.
Proof.
  destruct c; cbn; try congruence; try reflexivity.
  destruct v; cbn; congruence.
Qed.

Lemma RenderSystem_delete_ready (this : RenderSystem) (e : Extern) :
  is_set (library_ this) = true ->
  is_set (device_ this) = true ->
  is_set (frame_ this) = true ->
  logged (RenderSystem_delete this) e
    [ anari_release (device_ this) (frame_ this);
      anari_release (device_ this) (device_ this);
      anari_unloadLibrary (library_ this) ].
Proof.
  intros Hl Hd Hf. unfold logged, RenderSystem_delete.
  rewrite Hl, Hd, Hf. cbn. repeat rewrite <- app_assoc. reflexivity.
Qed.

Lemma DisplaySystem_delete_logged (ds : DisplaySystem) (e : Extern) :
  exists d, logged (DisplaySystem_delete ds) e d
            /\ Forall (fun c => lifecycle c = false) d.
Proof.
  unfold logged, DisplaySystem_delete, WindowWrapper_delete, when.
  destruct (window_wrapper_ ds) as [ w | ];
    [ destruct (is_set (window_ w)) | ]; cbn;
    repeat rewrite <- app_assoc; eexists;
    (split; [ reflexivity | repeat constructor ]).
Qed.

(** The object-lifecycle calls of a complete run of [main], in order. *)
Lemma main_lifecycle (frames : list FrameInput) (w : handle) (err : string)
  (exts : Extensions) (code : Z) (e' : Extern) :
  main frames (initial w err exts) = (Some code, e') ->
  filter lifecycle (calls e') =
  [ anari_loadLibrary "helide" 1;
    anari_newDevice 1 "default" 2;
    anari_newObject 2 Renderer "default" 3;
    anari_newObject 2 Camera "perspective" 4;
    anari_newObject 2 World "" 5;
    anari_newObject 2 Geometry "triangle" 6;
    anari_newObject 2 Material "matte" 7;
    anari_newObject 2 Surface "" 8;
    anari_setParameter 2 8 "geometry" (VObject 6);
    anari_release 2 6;
    anari_setParameter 2 8 "material" (VObject 7);
    anari_release 2 7;
    anari_setParameterArray1D 2 5 "surface" (AObjects [8]);
    anari_release 2 8;
    anari_newObject 2 Frame "" 9;
    anari_setParameter 2 9 "renderer" (VObject 3);
    anari_release 2 3;
    anari_setParameter 2 9 "camera" (VObject 4);
    anari_release 2 4;
    anari_setParameter 2 9 "world" (VObject 5);
    anari_release 2 5;
    anari_release 2 9;
    anari_release 2 2;
    anari_unloadLibrary 1 ].
Proof.
  intros H. rewrite main_run in H. cbv zeta in H.
  rewrite startup_eval in H. cbn [fst snd] in H.
  match type of H with
  | context [eval (render_loop ?ds frames ?rs) ?e1] =>
      destruct (render_loop_handles ds frames rs e1) as (Hl & Hd & _ & Hf);
      destruct (render_loop_loop_calls ds frames rs e1) as (d & Hlog & Fd);
      destruct (snd (eval (render_loop ds frames rs) e1));
      [ | discriminate ];
      set (rs' := fst (eval (render_loop ds frames rs) e1)) in *;
      set (e2 := exec (render_loop ds frames rs) e1) in *
  end.
  cbn in Hl, Hd, Hf.
  injection H as _ He'. subst e'.
  destruct (DisplaySystem_delete_logged
              {| window_wrapper_ := Some {| window_ := w |} |}
              (exec (RenderSystem_delete rs') e2)) as (k & Hk & Fk).
  unfold logged in Hk. rewrite Hk.
  rewrite (RenderSystem_delete_ready rs' e2)
    by (rewrite ?Hl, ?Hd, ?Hf; reflexivity).
  rewrite Hl, Hd, Hf.
  unfold logged in Hlog. subst e2. rewrite Hlog.
  repeat rewrite filter_app. rewrite startup_lifecycle.
  rewrite (filter_nothing lifecycle (l := d))
    by (eapply Forall_impl; [ | exact Fd ]; exact loop_call_not_lifecycle).
  rewrite (filter_nothing lifecycle (l := k)) by exact Fk.
  reflexivity.
Qed.

(** The readings of the log that concern object lifetimes see only the
    lifecycle calls. *)
Lemma not_lifecycle (c : call) :
  lifecycle c = false ->
  (forall r, created (c :: r) = created r)
  /\ (forall h r, releases h (c :: r) = releases h r)
  /\ (forall h, stores h c = None)
  /\ (forall dev h, is_release dev h c = false).
Proof.
  destruct c; cbn; try discriminate; intros H; repeat split;
    try reflexivity; intros;
    match goal with
    | v : value |- _ => destruct v; try discriminate; reflexivity
    | a : array1D |- _ => destruct a; try discriminate; reflexivity
    end.
Qed.

Lemma created_filter (l : list call) :
  created (filter lifecycle l) = created l.
Proof.
  induction l as [ | c l IH ]; [ reflexivity | ].
  cbn [filter]. destruct (lifecycle c) eqn:Hc.
  - destruct c; cbn; rewrite IH; reflexivity.
  - destruct (not_lifecycle c Hc) as (H & _). now rewrite H.
Qed.

Lemma releases_filter (h : handle) (l : list call) :
  releases h (filter lifecycle l) = releases h l.
Proof.
  induction l as [ | c l IH ]; [ reflexivity | ].
  cbn [filter]. destruct (lifecycle c) eqn:Hc.
  - destruct c; cbn; rewrite IH; reflexivity.
  - destruct (not_lifecycle c Hc) as (_ & H & _). now rewrite H.
Qed.

Lemma parents_filter (h : handle) (l : list call) :
  parents h (filter lifecycle l) = parents h l.
Proof.
  induction l as [ | c l IH ]; [ reflexivity | ].
  cbn [filter]. destruct (lifecycle c) eqn:Hc.
  - cbn [parents]. now rewrite IH.
  - destruct (not_lifecycle c Hc) as (_ & _ & H & _).
    cbn [parents]. now rewrite H.
Qed.

Lemma existsb_is_release_filter (dev h : handle) (l : list call) :
  existsb (is_release dev h) (filter lifecycle l)
  = existsb (is_release dev h) l.
Proof.
  induction l as [ | c l IH ]; [ reflexivity | ].
  cbn [filter]. destruct (lifecycle c) eqn:Hc.
  - cbn [existsb]. now rewrite IH.
  - destruct (not_lifecycle c Hc) as (_ & _ & _ & H).
    cbn [existsb]. now rewrite H.
Qed.

Lemma released_before_device_filter (dev h : handle) (l : list call) :
  released_before_device dev h (filter lifecycle l)
  = released_before_device dev h l.
Proof.
  induction l as [ | c l IH ]; [ reflexivity | ].
  cbn [filter]. destruct (lifecycle c) eqn:Hc.
  - cbn [released_before_device].
    now rewrite IH, existsb_is_release_filter.
  - destruct (not_lifecycle c Hc) as (_ & _ & _ & H).
    cbn [released_before_device]. now rewrite H.
Qed.

Lemma stored_before_released_filter (dev h : handle) (l : list call) :
  stored_before_released dev h (filter lifecycle l)
  = stored_before_released dev h l.
Proof.
  induction l as [ | c l IH ]; [ reflexivity | ].
  cbn [filter]. destruct (lifecycle c) eqn:Hc.
  - cbn [stored_before_released].
    now rewrite IH, existsb_is_release_filter.
  - destruct (not_lifecycle c Hc) as (_ & _ & H & _).
    cbn [stored_before_released]. now rewrite H.
Qed.

(** C4. In every complete run of [main], whatever the platform answers and
    however many frames are drawn, the log satisfies the lifecycle
    discipline: the scene objects created are exactly a renderer, a camera,
    a world, a geometry, a material, a surface and a frame, all distinct.
    Each of them is released exactly once, and before the device is
    released (itself exactly once).  Each but the frame is stored into
    exactly one parent, before it is released: geometry and material into
    the surface, the surface into the world, and renderer, camera and world
    into the frame; the frame has no parent and is released by the
    destructor. *)
Theorem scene_objects_released_or_handed_over (frames : list FrameInput)
  (w : handle) (err : string) (exts : Extensions) (code : Z) (e' : Extern) :
  main frames (initial w err exts) = (Some code, e') ->
  lifecycle_discipline (calls e').
Proof.
  intros H. apply main_lifecycle in H. unfold lifecycle_discipline.
  exists 2, 3, 4, 5, 6, 7, 8, 9.
  rewrite <- created_filter.
  repeat match goal with
         | |- context [releases ?h (calls e')] =>
             rewrite <- (releases_filter h (calls e'))
         | |- context [parents ?h (calls e')] =>
             rewrite <- (parents_filter h (calls e'))
         end.
  rewrite H.
  split; [ reflexivity | ].
  split; [ repeat constructor; cbn; intuition discriminate | ].
  split; [ reflexivity | ].
  split.
  { intros k h Hin. rewrite <- releases_filter,
      <- released_before_device_filter, H.
    cbn in Hin.
    repeat (destruct Hin as [ Hin | Hin ];
            [ injection Hin as <- <-; split; reflexivity | ]).
    contradiction. }
  repeat (split; [ reflexivity | ]).
  intros h Hin. rewrite <- stored_before_released_filter, H.
  cbn in Hin.
  repeat (destruct Hin as [ <- | Hin ]; [ reflexivity | ]).
  contradiction.
Qed.

(** ** The camera over the loop *)

Lemma key_call_camera_param_ok (c : call) :
  key_call c = true -> camera_param_ok c.
Proof. destruct c; cbn; try discriminate; trivial. Qed.

Lemma loop_body_camera (ds : DisplaySystem) (fi : FrameInput)
  (rs : RenderSystem) (e : Extern) :
  let rs' := eval (loop_body ds fi rs) e in
  camera_up_ rs' = camera_up_ rs
  /\ camera_direction_ rs' = camera_direction_ rs
  /\ camera_position_ rs' =
     (fst (fst (camera_position_ rs)), fsin (fi_time fi),
      snd (camera_position_ rs)).
Proof.
  cbv zeta. rewrite loop_body_eval. cbn.
  destruct (camera_position_ rs) as [[x y] z]. repeat split; reflexivity.
Qed.

(** C9. The render loop is entered with the camera [CreateScene] set up:
    position (0, 0, 0), up (0, 1, 0), direction (0.1, 0, 1).  A pass leaves
    up and direction as they are and replaces only the y-component of the
    position, by the sine of that pass's elapsed time.  So, however many
    passes ran, up and direction still have their initial values and the
    position still has x = 0 and z = 0, both in the render system and in
    every camera vector the loop sent to the backend. *)
Theorem render_loop_camera_invariant (w : handle) (err : string)
  (exts : Extensions) (frames : list FrameInput) (ds : DisplaySystem)
  (fi : FrameInput) (rs : RenderSystem) (e : Extern) :
  (let rs1 := eval (loop_body ds fi rs) e in
   camera_up_ rs1 = camera_up_ rs
   /\ camera_direction_ rs1 = camera_direction_ rs
   /\ camera_position_ rs1 =
      (fst (fst (camera_position_ rs)), fsin (fi_time fi),
       snd (camera_position_ rs)))
  /\ (let p := eval startup (initial w err exts) in
      let e0 := exec startup (initial w err exts) in
      let rs' := fst (eval (render_loop (fst p) frames (snd p)) e0) in
      camera_position_ (snd p) = (flit 0, flit 0, flit 0)
      /\ camera_up_ rs' = (flit 0, flit 1, flit 0)
      /\ camera_direction_ rs' = (flit (1 # 10), flit 0, flit 1)
      /\ (exists y, camera_position_ rs' = (flit 0, y, flit 0))
      /\ exists d, logged (render_loop (fst p) frames (snd p)) e0 d
                   /\ Forall camera_param_ok d).
Proof.
  split; [ apply loop_body_camera | ].
  cbv zeta. rewrite startup_eval. cbn [fst snd].
  split; [ reflexivity | ].
  match goal with
  | |- context [eval (render_loop ?ds0 frames ?rs0) ?e0] =>
      pose proof
        (render_loop_invariant
           (fun r e' =>
              camera_up_ r = (flit 0, flit 1, flit 0)
              /\ camera_direction_ r = (flit (1 # 10), flit 0, flit 1)
              /\ (exists y, camera_position_ r = (flit 0, y, flit 0))
              /\ exists d, calls e' = calls e0 ++ d
                           /\ Forall camera_param_ok d)
           ds0) as R;
      apply (R) with (frames := frames) (rs := rs0) (e := e0); clear R
  end.
  - intros r e1 (Hu & Hd & Hp & d & Hl & Fd).
    repeat (split; [ assumption | ]).
    eexists. split.
    + rewrite checked_calls, Hl, <- app_assoc. reflexivity.
    + apply Forall_app. split; [ exact Fd | repeat constructor ].
  - intros fi1 r e1 (Hu & Hd & (y & Hp) & d & Hl & Fd).
    destruct (loop_body_camera
                {| window_wrapper_ := Some {| window_ := w |} |} fi1 r e1)
      as (Gu & Gd & Gp).
    destruct (loop_body_logged
                {| window_wrapper_ := Some {| window_ := w |} |} fi1 r e1)
      as (k & Hk & Fk).
    rewrite Gu, Gd, Gp, Hu, Hd, Hp. cbn [fst snd].
    repeat (split; [ reflexivity | ]).
    split; [ eexists; reflexivity | ].
    eexists. split.
    + unfold logged in Hk. rewrite Hk, Hl, <- app_assoc. reflexivity.
    + apply Forall_app. split; [ exact Fd | ].
      rewrite Hu, Hd, Hp.
      repeat (constructor;
              [ cbn; try exact I;
                repeat split; intros; try discriminate; reflexivity | ]).
      eapply Forall_impl; [ | exact Fk ]. exact key_call_camera_param_ok.
  - repeat (split; [ reflexivity | ]).
    split; [ eexists; reflexivity | ].
    exists []. split; [ symmetry; apply app_nil_r | constructor ].
Qed.

(** ** What the loop animates *)

Lemma loop_call_not_vertex_color (c : call) :
  loop_call c = true -> sets_vertex_color c = false.
Proof. destruct c; cbn; try congruence; reflexivity. Qed.

Lemma shutdown_call_not_vertex_color (c : call) :
  shutdown_call c = true -> sets_vertex_color c = false.
Proof. destruct c; cbn; try congruence; reflexivity. Qed.

Lemma shutdown_logged (rs : RenderSystem) (ds : DisplaySystem) (e : Extern) :
  exists d,
    calls (exec (DisplaySystem_delete ds) (exec (RenderSystem_delete rs) e))
    = calls e ++ d
    /\ Forall (fun c => shutdown_call c = true) d.
Proof.
  unfold DisplaySystem_delete, WindowWrapper_delete.
  handle_cases rs;
    (destruct (window_wrapper_ ds) as [ w | ];
     [ destruct (window_ w =? 0) | ]); cbn;
    repeat rewrite <- app_assoc; eexists;
    (split; [ reflexivity | repeat constructor ]).
Qed.

Lemma startup_vertex_color (w : handle) (err : string) (exts : Extensions) :
  filter sets_vertex_color (calls (exec startup (initial w err exts))) =
  [ anari_setParameterArray1D 2 6 "vertex.color" (AVec4 scene_color) ].
Proof.
  destruct exts as [a b c d].
  unfold exec, startup, bind, CreateWindow, when, bind, initial. cbn.
  destruct (w =? nullptr), a, b, c, d; reflexivity.
Qed.

(** C5, as the code has it.  Every pass of the render loop animates the
    camera: it sets the camera position with the y-component replaced by
    the sine of the elapsed time, sets up and direction, and commits the
    camera, all before the pass's render request.  No pass touches the
    mesh's per-vertex colours: in a run of [main] of any length they are set
    exactly once, by [CreateScene], to the scene's fixed colours. *)
Theorem render_loop_animates_camera_only (ds : DisplaySystem)
  (fi : FrameInput) (rs : RenderSystem) (e : Extern)
  (frames : list FrameInput) (w : handle) (err : string)
  (exts : Extensions) :
  (exists a b,
      logged (loop_body ds fi rs) e
        (a ++ [ anari_setParameter (device_ rs) (camera_ rs) "position"
                  (VVec3 (vec3_set1 (camera_position_ rs)
                            (fsin (fi_time fi))));
                anari_setParameter (device_ rs) (camera_ rs) "up"
                  (VVec3 (camera_up_ rs));
                anari_setParameter (device_ rs) (camera_ rs) "direction"
                  (VVec3 (camera_direction_ rs));
                anari_commitParameters (device_ rs) (camera_ rs);
                anari_render (device_ rs) (frame_ rs) ] ++ b)
      /\ Forall (fun c => sets_vertex_color c = false) (a ++ b))
  /\ filter sets_vertex_color
       (calls (exec (main frames) (initial w err exts)))
     = [ anari_setParameterArray1D 2 6 "vertex.color" (AVec4 scene_color) ].
Proof.
  split.
  - destruct (loop_body_logged ds fi rs e) as (k & Hk & Fk).
    exists [ glfwGetFramebufferSize (Window ds);
             anari_setParameter (device_ rs) (frame_ rs) "size"
               (VUVec2 (to_uint32 (fi_width fi), to_uint32 (fi_height fi)));
             anari_commitParameters (device_ rs) (frame_ rs) ].
    eexists. split; [ exact Hk | ].
    cbn. repeat (constructor; [ reflexivity | ]).
    eapply Forall_impl; [ | exact Fk ].
    intros c Hc. apply loop_call_not_vertex_color.
    now apply key_call_loop_call.
  - unfold exec at 1. rewrite main_run. cbv zeta.
    destruct (render_loop_loop_calls
                (fst (eval startup (initial w err exts))) frames
                (snd (eval startup (initial w err exts)))
                (exec startup (initial w err exts))) as (d & Hd & Fd).
    unfold logged in Hd.
    assert (Hq : filter sets_vertex_color d = []).
    { apply filter_nothing. eapply Forall_impl; [ | exact Fd ].
      exact loop_call_not_vertex_color. }
    destruct (snd (eval (render_loop (fst (eval startup (initial w err exts)))
                           frames (snd (eval startup (initial w err exts))))
                     (exec startup (initial w err exts)))); cbn [snd].
    + match goal with
      | |- context [exec (DisplaySystem_delete ?ds0)
                      (exec (RenderSystem_delete ?rs0) ?e0)] =>
          destruct (shutdown_logged rs0 ds0 e0) as (k & Hk & Fk)
      end.
      rewrite Hk, Hd. repeat rewrite filter_app.
      rewrite startup_vertex_color, Hq.
      rewrite (filter_nothing sets_vertex_color (l := k)); [ reflexivity | ].
      eapply Forall_impl; [ | exact Fk ].
      exact shutdown_call_not_vertex_color.
    + rewrite Hd, filter_app, startup_vertex_color, Hq. reflexivity.
Qed.

(** ** Window creation *)

Lemma strict_windows_faults_on_empty_window_only :
  faults_on_empty_window_only strict_windows.
Proof.
  intros c Hc. destruct c; try reflexivity; cbn in *; unfold is_set;
    (destruct (Z.eqb_spec window nullptr) as [ E | N ];
     [ exfalso; apply Hc; now rewrite E | reflexivity ]).
Qed.

(** The process gets through a log exactly when it reaches all of it. *)
Lemma survives_reached (p : platform) (d : list call) :
  survives p d = true -> reached p d = d.
Proof.
  induction d as [ | c d IH ]; [ reflexivity | ].
  cbn. destruct (p c); [ | discriminate ].
  intros H. now rewrite (IH H).
Qed.

Lemma survives_app (p : platform) (a b : list call) :
  survives p (a ++ b) = survives p a && survives p b.
Proof. apply forallb_app. Qed.

Lemma survives_without_window (p : platform) (d : list call) :
  faults_on_empty_window_only p ->
  Forall (fun c => window_of c = None) d ->
  survives p d = true.
Proof.
  intros Hp F. apply forallb_forall. rewrite Forall_forall in F.
  intros c Hc. apply Hp. rewrite (F c Hc). discriminate.
Qed.

Lemma survives_replaced_wrapper (p : platform) (this : DisplaySystem) :
  faults_on_empty_window_only p ->
  survives p (replaced_wrapper_log this) = true.
Proof.
  intros Hp. unfold replaced_wrapper_log.
  destruct (window_wrapper_ this) as [ [old] | ]; [ | reflexivity ].
  cbn [window_]. unfold is_set.
  destruct (Z.eqb_spec old nullptr) as [ E | N ]; [ reflexivity | ].
  cbn. rewrite Hp; [ reflexivity | ]. cbn. congruence.
Qed.

Lemma survives_failed_window (p : platform) (this : DisplaySystem)
  (err : string) :
  faults_on_empty_window_only p ->
  survives p (failed_window_log this err)
  = p (glfwMakeContextCurrent nullptr)
    && p (glfwSetWindowUserPointer nullptr)
    && p (glfwSetKeyCallback nullptr).
Proof.
  intros Hp. unfold failed_window_log.
  rewrite !survives_app, survives_replaced_wrapper by exact Hp.
  cbn. rewrite !Hp by discriminate.
  destruct (p (glfwMakeContextCurrent nullptr)),
    (p (glfwSetWindowUserPointer nullptr)), (p (glfwSetKeyCallback nullptr));
    reflexivity.
Qed.

Lemma CreateWindow_failed (this : DisplaySystem) (e : Extern) :
  window_result e = nullptr ->
  eval (CreateWindow this) e
  = {| window_wrapper_ := Some {| window_ := nullptr |} |}
  /\ logged (CreateWindow this) e (failed_window_log this (error_str e)).
Proof.
  intros H. destruct e as [cl sc nh wr es x]. cbn in H. subst wr.
  unfold logged, eval, exec, CreateWindow, failed_window_log,
    replaced_wrapper_log, WindowWrapper_delete, when, bind.
  destruct (window_wrapper_ this) as [ [old] | ]; cbn [window_];
    [ destruct (is_set old) | ]; cbn;
    repeat rewrite <- app_assoc; split; reflexivity.
Qed.

(** [startup] when no window could be created: after the calls of
    [CreateWindow] come those of [Init], [CreateScene] and [SetupFrame],
    none of which asks for a window or hands one to GLFW. *)
Lemma startup_failed_window (e : Extern) :
  window_result e = nullptr ->
  exists rest,
    logged startup e
      (std_printf "Starting the app\n" [] :: glfwInit
       :: failed_window_log {| window_wrapper_ := None |} (error_str e)
       ++ rest)
    /\ Forall (fun c => requests_window c = false) rest
    /\ Forall (fun c => window_of c = None) rest
    /\ In (std_printf "Initializing ANARI\n" []) rest
    /\ In (std_printf "Creating a scene\n" []) rest
    /\ In (std_printf "Setuping frame\n" []) rest
    /\ Window (fst (eval startup e)) = nullptr
    /\ is_set (frame_ (snd (eval startup e))) = true.
Proof.
  intros H. destruct e as [cl sc nh wr es [a b c d]]. cbn in H. subst wr.
  destruct a, b, c, d;
    unfold logged, eval, exec, startup, CreateWindow, when, bind; cbn;
    repeat rewrite <- app_assoc; cbn;
    eexists; (split; [ reflexivity | ]);
    (split; [ repeat (constructor; [ reflexivity | ]); constructor | ]);
    (split; [ repeat (constructor; [ reflexivity | ]); constructor | ]);
    repeat (split; [ solve [ repeat first [ left; reflexivity | right ] ] | ]);
    split; reflexivity.
Qed.

(** C6, amended.  When the windowing library returns no window,
    [CreateWindow] logs its diagnostic with the library's error text, asks
    for a window exactly once, and returns a display system whose window
    handle is empty.  It has no guard and no exit on this path: its
    remaining calls pass the empty handle on to [glfwMakeContextCurrent],
    [glfwSetWindowUserPointer] and [glfwSetKeyCallback].  So, on a platform
    that lets every call return that is not handed the empty handle,
    [CreateWindow] gets through exactly when the windowing library lets
    these three calls return; [main] then goes on to initialise the
    renderer, build the scene and set up the frame, with no further request
    for a window and no further call on one, and reaches the render loop
    with the empty handle. *)
Theorem CreateWindow_failure_is_unguarded (p : platform)
  (this : DisplaySystem) (e : Extern) :
  window_result e = nullptr ->
  faults_on_empty_window_only p ->
  Window (eval (CreateWindow this) e) = nullptr
  /\ logged (CreateWindow this) e (failed_window_log this (error_str e))
  /\ List.length (filter requests_window (failed_window_log this (error_str e)))
     = 1%nat
  /\ survives p (new_calls (CreateWindow this) e)
     = p (glfwMakeContextCurrent nullptr)
       && p (glfwSetWindowUserPointer nullptr)
       && p (glfwSetKeyCallback nullptr)
  /\ (exists rest,
        logged startup e
          (std_printf "Starting the app\n" [] :: glfwInit
           :: failed_window_log {| window_wrapper_ := None |} (error_str e)
           ++ rest)
        /\ Forall (fun c => requests_window c = false) rest
        /\ Forall (fun c => window_of c = None) rest
        /\ In (std_printf "Initializing ANARI\n" []) rest
        /\ In (std_printf "Creating a scene\n" []) rest
        /\ In (std_printf "Setuping frame\n" []) rest
        /\ Window (fst (eval startup e)) = nullptr
        /\ is_set (frame_ (snd (eval startup e))) = true)
  /\ survives p (new_calls startup e)
     = p (glfwMakeContextCurrent nullptr)
       && p (glfwSetWindowUserPointer nullptr)
       && p (glfwSetKeyCallback nullptr).
Proof.
  intros H Hp.
  destruct (CreateWindow_failed this e H) as (Hv & Hl).
  assert (S : exists rest,
             logged startup e
               (std_printf "Starting the app\n" [] :: glfwInit
                :: failed_window_log {| window_wrapper_ := None |}
                     (error_str e)
                ++ rest)
             /\ Forall (fun c => requests_window c = false) rest
             /\ Forall (fun c => window_of c = None) rest
             /\ In (std_printf "Initializing ANARI\n" []) rest
             /\ In (std_printf "Creating a scene\n" []) rest
             /\ In (std_printf "Setuping frame\n" []) rest
             /\ Window (fst (eval startup e)) = nullptr
             /\ is_set (frame_ (snd (eval startup e))) = true).
  { exact (@startup_failed_window e H). }
  split; [ rewrite Hv; reflexivity | ].
  split; [ exact Hl | ].
  split.
  { unfold failed_window_log, replaced_wrapper_log.
    destruct (window_wrapper_ this) as [ [old] | ];
      [ destruct (is_set (window_ {| window_ := old |})) | ]; reflexivity. }
  split.
  { rewrite (logged_new_calls Hl). apply survives_failed_window. exact Hp. }
  split; [ exact S | ].
  destruct S as (rest & Hs & _ & F2 & _).
  rewrite (logged_new_calls Hs).
  change (std_printf "Starting the app\n" [] :: glfwInit
          :: failed_window_log {| window_wrapper_ := None |} (error_str e)
          ++ rest)
    with ([std_printf "Starting the app\n" []; glfwInit]
          ++ failed_window_log {| window_wrapper_ := None |} (error_str e)
          ++ rest).
  rewrite !survives_app, survives_failed_window by exact Hp.
  rewrite (survives_without_window Hp F2), andb_true_r.
  cbn. rewrite !Hp by discriminate. reflexivity.
Qed.

End Properties.

(** * Concrete runs *)

(** The sample run: one frame is drawn, escape is pressed, [main] returns
    0. *)
Example main_sample_exits : eval (main [sample_frame]) sample_world = Some 0.
Proof. vm_compute. reflexivity. Qed.

(** One pass with a 640 x 480 framebuffer: one render request, its wait,
    then the buffer swap. *)
Example one_pass_640_480 :
  filter paced
    (new_calls
       (render_loop sample_display
          [ {| fi_time := TLit 0 : @float TermFloat;
               fi_width := 640; fi_height := 480;
               fi_events := [key_press GLFW_KEY_ESCAPE];
               fi_close_clicked := false |} ]
          sample_system)
       (exec startup sample_world))
  = [ anari_render 2 9; anari_wait 2 9; glfwSwapBuffers 77 ].
Proof. vm_compute. reflexivity. Qed.

(** The first pass of the sample run does update the camera position. *)
Example first_pass_sets_camera_position :
  existsb (sets_camera_position (camera_ sample_system))
    (new_calls (loop_body sample_display sample_frame sample_system)
       (exec startup sample_world)) = true.
Proof. vm_compute. reflexivity. Qed.

(** A press of [A] leaves the close-request flag as it was. *)
Lemma HandleKey_only_escape_closes_witness :
  GLFW_KEY_A <> GLFW_KEY_ESCAPE
  /\ should_close
       (exec (HandleKey sample_wrapper GLFW_KEY_A 0 GLFW_PRESS 0) sample_world)
     = should_close sample_world.
Proof.
  split; [ discriminate | ].
  pose proof (HandleKey_only_escape_closes sample_wrapper GLFW_KEY_A 0
                GLFW_PRESS 0 sample_world) as H.
  cbv zeta in H. destruct H as [_ H].
  apply H. discriminate.
Defined.

(** A release of escape changes nothing. *)
Lemma HandleKey_ignores_non_press_witness :
  GLFW_RELEASE <> GLFW_PRESS
  /\ HandleKey sample_wrapper GLFW_KEY_ESCAPE 0 GLFW_RELEASE 0 sample_world
     = (tt, sample_world).
Proof.
  split; [ discriminate | ].
  apply (@HandleKey_ignores_non_press TermFloat sample_wrapper
           GLFW_KEY_ESCAPE 0 GLFW_RELEASE 0 sample_world).
  discriminate.
Defined.

(** The destructor of a fully set up render system. *)
Lemma RenderSystem_delete_order_witness :
  is_set (library_ sample_system) = true
  /\ is_set (device_ sample_system) = true
  /\ is_set (frame_ sample_system) = true
  /\ logged (RenderSystem_delete sample_system) sample_world
       [ anari_release 2 9; anari_release 2 2; anari_unloadLibrary 1 ].
Proof.
  repeat (split; [ reflexivity | ]).
  destruct (RenderSystem_delete_order sample_system sample_world)
    as (d & Hl & _ & Hd).
  rewrite (Hd eq_refl eq_refl eq_refl) in Hl. exact Hl.
Defined.

(** The destructor of a render system that was never initialised. *)
Lemma RenderSystem_delete_guards_witness :
  device_ (@RenderSystem_new TermFloat) = nullptr
  /\ library_ (@RenderSystem_new TermFloat) = nullptr
  /\ RenderSystem_delete RenderSystem_new sample_world = (tt, sample_world).
Proof.
  repeat (split; [ reflexivity | ]).
  apply (proj1 (RenderSystem_delete_guards RenderSystem_new sample_world));
    reflexivity.
Defined.

(** The sample run is complete, so its log keeps the discipline. *)
Lemma scene_objects_released_or_handed_over_witness :
  main [sample_frame] sample_world
  = (Some 0, exec (main [sample_frame]) sample_world)
  /\ lifecycle_discipline (calls (exec (main [sample_frame]) sample_world)).
Proof.
  assert (H : main [sample_frame] sample_world
              = (Some 0, exec (main [sample_frame]) sample_world))
    by (vm_compute; reflexivity).
  split; [ exact H | ].
  exact (@scene_objects_released_or_handed_over TermFloat [sample_frame]
           77 "" all_extensions 0 _ H).
Defined.

(** Window creation fails on the windowless platform. *)
Lemma CreateWindow_failure_is_unguarded_witness :
  window_result windowless_world = nullptr
  /\ @faults_on_empty_window_only TermFloat strict_windows
  /\ Window (eval (CreateWindow {| window_wrapper_ := None |})
               windowless_world) = nullptr
  /\ logged (CreateWindow {| window_wrapper_ := None |}) windowless_world
       (failed_window_log {| window_wrapper_ := None |} "no display")
  /\ survives strict_windows
       (new_calls (CreateWindow {| window_wrapper_ := None |})
          windowless_world)
     = false.
Proof.
  split; [ reflexivity | ].
  split; [ exact (@strict_windows_faults_on_empty_window_only TermFloat) | ].
  destruct (@CreateWindow_failure_is_unguarded TermFloat strict_windows
              {| window_wrapper_ := None |} windowless_world eq_refl
              (@strict_windows_faults_on_empty_window_only TermFloat))
    as (H1 & H2 & _ & H4 & _).
  split; [ exact H1 | ]. split; [ exact H2 | exact H4 ].
Defined.

(** Where the windowing library accepts the empty handle everywhere, the
    failure is not fatal. *)
Example failure_is_not_fatal_on_lenient_windows :
  failure_is_not_fatal lenient_windows {| window_wrapper_ := None |}
    windowless_world.
Proof.
  intros _.
  split; [ vm_compute; tauto | ].
  repeat split; vm_compute; reflexivity.
Qed.

(** Where it does not, the process gets as far as
    [glfwSetWindowUserPointer] on the empty handle. *)
Example failed_window_on_strict_windows :
  reached strict_windows
    (new_calls (CreateWindow {| window_wrapper_ := None |}) windowless_world)
  = [ std_printf "Info: Creating a window\n" [];
      glfwCreateWindow kWidth kHeight "glfw3-window";
      glfwGetError;
      std_printf "Error: Cannot create a window, err=%s\n" ["no display"];
      glfwMakeContextCurrent nullptr;
      glfwSetWindowUserPointer nullptr ].
Proof. vm_compute. reflexivity. Qed.

(** C6, as stated, fails where the windowing library does not let a call on
    the empty window handle return: there the process dies inside
    [CreateWindow], in [glfwSetWindowUserPointer], and the program does not
    continue. *)
Lemma CreateWindow_failure_is_fatal_on_strict_windows :
  ~ failure_is_not_fatal strict_windows {| window_wrapper_ := None |}
      windowless_world.
Proof.
  intros H. destruct (H eq_refl) as (_ & _ & _ & Hs & _).
  vm_compute in Hs. discriminate Hs.
Qed.

(** C5, as stated, fails on the first pass of the sample run: the pass
    updates the camera position but holds no update of the per-vertex
    colours. *)
Lemma first_pass_sets_no_vertex_color :
  ~ animates_camera_and_colors (camera_ sample_system)
      (new_calls (loop_body sample_display sample_frame sample_system)
         (exec startup sample_world)).
Proof.
  unfold animates_camera_and_colors. intros [_ H].
  vm_compute in H. discriminate H.
Qed.

(** * Further properties *)

Unset Implicit Arguments.

Section Further.
Context {FO : FloatOps}.

(** ** How long the loop runs *)

Lemma loop_body_renders_once (ds : DisplaySystem) (fi : FrameInput)
  (rs : RenderSystem) (e : Extern) :
  exists d, logged (loop_body ds fi rs) e d
            /\ List.length (filter is_render d) = 1%nat.
Proof.
  destruct (loop_body_logged ds fi rs e) as (k & Hk & Fk).
  eexists. split; [ exact Hk | ].
  cbn. f_equal. rewrite (filter_nothing is_render (l := k)); [ reflexivity | ].
  eapply Forall_impl; [ | exact Fk ].
  intros c Hc. destruct c; cbn in *; congruence.
Qed.

Lemma loop_body_after_pass (ds : DisplaySystem) (fi : FrameInput)
  (rs : RenderSystem) (e : Extern) :
  eval (loop_body ds fi rs) e = after_pass rs fi.
Proof. rewrite loop_body_eval. reflexivity. Qed.

(** Over a prefix of answers none of which raises a close request, the
    loop makes one pass per answer and arrives at its test with the flag
    still unset, whatever answers follow. *)
Lemma render_loop_quiet_prefix (ds : DisplaySystem)
  (pre : list FrameInput) (rs : RenderSystem) (e : Extern) :
  should_close e = false ->
  Forall (fun fi => closes ds fi = false) pre ->
  exists e' d,
    (forall rest,
        render_loop ds (pre ++ rest) rs e
        = render_loop ds rest (fold_left after_pass pre rs) e')
    /\ should_close e' = false
    /\ calls e' = calls e ++ d
    /\ List.length (filter is_render d) = List.length pre.
Proof.
  intros Hs Hq. revert rs e Hs.
  induction Hq as [ | fi pre Hfi _ IH ]; intros rs e Hs.
  - exists e, []. split; [ reflexivity | ]. split; [ exact Hs | ].
    split; [ symmetry; apply app_nil_r | reflexivity ].
  - assert (Hs' : should_close (exec (loop_body ds fi rs) (checked ds e))
                  = false).
    { rewrite loop_body_should_close, checked_should_close, Hs, Hfi.
      reflexivity. }
    destruct (IH (eval (loop_body ds fi rs) (checked ds e))
                (exec (loop_body ds fi rs) (checked ds e)) Hs')
      as (e' & d & H1 & H2 & H4 & H5).
    destruct (loop_body_renders_once ds fi rs (checked ds e))
      as (d1 & Hd1 & Hn1).
    rewrite loop_body_after_pass in H1.
    exists e', ((glfwWindowShouldClose (Window ds) :: d1) ++ d).
    split.
    { intros rest.
      rewrite <- app_comm_cons, render_loop_step by assumption.
      rewrite loop_body_after_pass. apply H1. }
    split; [ exact H2 | ]. split.
    + rewrite H4. unfold logged in Hd1. rewrite Hd1, checked_calls.
      repeat rewrite <- app_assoc. reflexivity.
    + rewrite filter_app, length_app, H5.
      change (filter is_render (glfwWindowShouldClose (Window ds) :: d1))
        with (filter is_render d1).
      rewrite Hn1. reflexivity.
Qed.

Lemma render_loop_logged_closed (ds : DisplaySystem)
  (frames : list FrameInput) (rs : RenderSystem) (e : Extern) :
  should_close e = true ->
  logged (render_loop ds frames rs) e [glfwWindowShouldClose (Window ds)].
Proof.
  intros H. unfold logged, exec. rewrite render_loop_closed by assumption.
  reflexivity.
Qed.

Lemma after_pass_keeps_x_z (pre : list FrameInput) (rs : RenderSystem) :
  fst (fst (camera_position_ (fold_left after_pass pre rs)))
  = fst (fst (camera_position_ rs))
  /\ snd (camera_position_ (fold_left after_pass pre rs))
     = snd (camera_position_ rs).
Proof.
  revert rs. induction pre as [ | fi pre IH ]; intros rs.
  - split; reflexivity.
  - cbn [fold_left]. destruct (IH (after_pass rs fi)) as [H1 H2].
    rewrite H1, H2. unfold after_pass. cbn.
    destruct (camera_position_ rs) as [[x y] z]. split; reflexivity.
Qed.

(** X1. While no answer of the platform raises a close request (no press of
    escape reaches the window, no close through the window manager), the
    loop does not end: it makes one pass, with one render request, per
    answer; and the render system then holds the framebuffer size of the
    latest answer and a camera position whose y-component is the sine of the
    latest elapsed time. *)
Theorem render_loop_without_close_request (ds : DisplaySystem)
  (frames : list FrameInput) (rs : RenderSystem) (e : Extern) :
  should_close e = false ->
  Forall (fun fi => closes ds fi = false) frames ->
  snd (eval (render_loop ds frames rs) e) = false
  /\ List.length (filter is_render (new_calls (render_loop ds frames rs) e))
     = List.length frames
  /\ forall pre fl, frames = pre ++ [fl] ->
       GetFrameSize (fst (eval (render_loop ds frames rs) e))
       = (to_uint32 (fi_width fl), to_uint32 (fi_height fl))
       /\ GetCameraPosition (fst (eval (render_loop ds frames rs) e))
          = vec3_set1 (GetCameraPosition rs) (fsin (fi_time fl)).
Proof.
  intros Hs Hq.
  destruct (render_loop_quiet_prefix ds _ rs e Hs Hq)
    as (e' & d & H1 & H2 & H3 & H4).
  specialize (H1 []).
  rewrite app_nil_r in H1. rewrite render_loop_out in H1 by assumption.
  unfold eval. rewrite (logged_new_calls (d := d ++ [glfwWindowShouldClose (Window ds)])).
  2:{ unfold logged, exec. rewrite H1. cbn [snd]. rewrite checked_calls, H3.
      now rewrite app_assoc. }
  rewrite H1. cbn [fst snd].
  split; [ reflexivity | ]. split.
  - rewrite filter_app, length_app. cbn. rewrite H4. apply Nat.add_0_r.
  - intros pre fl ->. rewrite fold_left_app. cbn [fold_left].
    destruct (after_pass_keeps_x_z pre rs) as [Hx Hz].
    set (rs1 := fold_left after_pass pre rs) in *.
    unfold GetFrameSize, GetCameraPosition, after_pass. cbn.
    split; [ reflexivity | ].
    destruct (camera_position_ rs1) as [[x y] z].
    destruct (camera_position_ rs) as [[x0 y0] z0].
    cbn in *. now subst.
Qed.

(** X2. The pass in which a close request is raised is the last one: with
    no close request in the answers before it, the loop makes exactly one
    pass per answer up to and including that one, ends, and never consumes
    the answers that follow. *)
Theorem render_loop_stops_on_close_request (ds : DisplaySystem)
  (pre post : list FrameInput) (fi : FrameInput) (rs : RenderSystem)
  (e : Extern) :
  should_close e = false ->
  Forall (fun f => closes ds f = false) pre ->
  closes ds fi = true ->
  render_loop ds (pre ++ fi :: post) rs e
  = render_loop ds (pre ++ [fi]) rs e
  /\ snd (eval (render_loop ds (pre ++ fi :: post) rs) e) = true
  /\ List.length
       (filter is_render
          (new_calls (render_loop ds (pre ++ fi :: post) rs) e))
     = S (List.length pre).
Proof.
  intros Hs Hq Hfi.
  destruct (render_loop_quiet_prefix ds _ rs e Hs Hq)
    as (e' & d & H1 & H2 & H3 & H4).
  assert (Hc : should_close
                 (exec (loop_body ds fi (fold_left after_pass pre rs))
                    (checked ds e')) = true).
  { rewrite loop_body_should_close, checked_should_close, H2, Hfi.
    reflexivity. }
  assert (R : forall rest,
             render_loop ds (pre ++ fi :: rest) rs e
             = ((after_pass (fold_left after_pass pre rs) fi, true),
                checked ds
                  (exec (loop_body ds fi (fold_left after_pass pre rs))
                     (checked ds e')))).
  { intros rest. rewrite H1, render_loop_step by assumption.
    rewrite render_loop_closed by assumption.
    now rewrite loop_body_after_pass. }
  split; [ now rewrite !R | ].
  destruct (loop_body_renders_once ds fi (fold_left after_pass pre rs)
              (checked ds e')) as (d1 & Hd1 & Hn1).
  unfold eval.
  rewrite (logged_new_calls
             (d := d ++ glfwWindowShouldClose (Window ds) :: d1
                     ++ [glfwWindowShouldClose (Window ds)])).
  2:{ unfold logged, exec. rewrite R. cbn [snd].
      unfold logged in Hd1. rewrite checked_calls, Hd1, checked_calls, H3.
      repeat rewrite <- app_assoc. reflexivity. }
  rewrite R. split; [ reflexivity | ].
  rewrite filter_app, length_app, H4.
  change (filter is_render (glfwWindowShouldClose (Window ds) :: d1
                              ++ [glfwWindowShouldClose (Window ds)]))
    with (filter is_render (d1 ++ [glfwWindowShouldClose (Window ds)])).
  rewrite filter_app, length_app, Hn1. cbn. lia.
Qed.

(** ** The whole run *)

(** The loop's log is made of passes. *)
Lemma render_loop_structure (ds : DisplaySystem) (frames : list FrameInput)
  (rs : RenderSystem) (e : Extern) :
  exists bodies,
    logged (render_loop ds frames rs) e (loop_log ds bodies)
    /\ Forall (pass_of ds rs) bodies.
Proof.
  revert rs e. induction frames as [ | fi rest IH ]; intros rs e;
    unfold logged; unfold exec at 1; destruct (should_close e) eqn:Hs.
  - rewrite render_loop_closed by assumption.
    exists []. split; [ reflexivity | constructor ].
  - rewrite render_loop_out by assumption.
    exists []. split; [ reflexivity | constructor ].
  - rewrite render_loop_closed by assumption.
    exists []. split; [ reflexivity | constructor ].
  - rewrite render_loop_step by assumption.
    destruct (loop_body_logged ds fi rs (checked ds e)) as (k & Hk & _).
    destruct (loop_body_handles ds fi rs (checked ds e)) as (_ & Hd & Hc & Hf).
    destruct (IH (eval (loop_body ds fi rs) (checked ds e))
                 (exec (loop_body ds fi rs) (checked ds e)))
      as (bodies & Hb & Fb).
    eexists (_ :: bodies). split.
    + unfold logged in Hb. unfold exec at 1 in Hb. rewrite Hb.
      unfold logged in Hk. rewrite Hk, checked_calls.
      unfold loop_log. cbn [map List.concat].
      repeat rewrite <- app_assoc. reflexivity.
    + constructor.
      * exists fi, rs, (checked ds e). repeat split; try reflexivity.
        exact Hk.
      * eapply Forall_impl; [ | exact Fb ].
        intros d (fi' & rs' & e' & H1 & H2 & H3 & H4).
        exists fi', rs', e'. repeat split; congruence.
Qed.

Lemma loop_log_Forall (P : call -> Prop) (ds : DisplaySystem)
  (bodies : list (list call)) :
  P (glfwWindowShouldClose (Window ds)) ->
  Forall (Forall P) bodies ->
  Forall P (loop_log ds bodies).
Proof.
  intros Hc F. unfold loop_log. apply Forall_app. split; [ | now constructor ].
  induction F as [ | b bodies Hb _ IH ]; cbn; [ constructor | ].
  constructor; [ exact Hc | ]. apply Forall_app. split; assumption.
Qed.

Lemma loop_log_existsb (p : call -> bool) (ds : DisplaySystem)
  (bodies : list (list call)) :
  p (glfwWindowShouldClose (Window ds)) = false ->
  existsb p (loop_log ds bodies) = existsb (existsb p) bodies.
Proof.
  intros Hc. unfold loop_log. rewrite existsb_app. cbn. rewrite Hc.
  rewrite !orb_false_r.
  induction bodies as [ | b bodies IH ]; cbn; [ reflexivity | ].
  now rewrite Hc, existsb_app, IH.
Qed.

(** What holds of the loop's test and of every call of a pass holds of all
    the loop's calls. *)
Lemma render_loop_Forall (P : call -> Prop) (ds : DisplaySystem)
  (frames : list FrameInput) (rs : RenderSystem) (e : Extern) :
  P (glfwWindowShouldClose (Window ds)) ->
  (forall d, pass_of ds rs d -> Forall P d) ->
  exists d, logged (render_loop ds frames rs) e d /\ Forall P d.
Proof.
  intros Hc Hb.
  destruct (render_loop_structure ds frames rs e) as (bodies & Hl & F).
  eexists. split; [ exact Hl | ].
  apply loop_log_Forall; [ exact Hc | ].
  eapply Forall_impl; [ | exact F ]. exact Hb.
Qed.

(** The log of a run of [main]: what [startup] logs, then the loop's
    passes, then, when the loop has ended, the two destructors' calls. *)
Lemma main_structure (frames : list FrameInput) (w : handle) (err : string)
  (exts : Extensions) :
  exists bodies,
    Forall (main_pass w) bodies
    /\ (fst (main frames (initial w err exts)) = None
        /\ calls (snd (main frames (initial w err exts)))
           = calls (exec startup (initial w err exts))
             ++ loop_log {| window_wrapper_ := Some {| window_ := w |} |}
                  bodies
        \/ fst (main frames (initial w err exts)) = Some 0
           /\ calls (snd (main frames (initial w err exts)))
              = calls (exec startup (initial w err exts))
                ++ loop_log {| window_wrapper_ := Some {| window_ := w |} |}
                     bodies
                ++ [ anari_release 2 9; anari_release 2 2;
                     anari_unloadLibrary 1; glfwTerminate ]
                ++ (if is_set w then [glfwDestroyWindow w] else [])).
Proof.
  rewrite main_run. cbv zeta.
  rewrite startup_eval. cbn [fst snd].
  match goal with
  | |- context [eval (render_loop ?ds frames ?rs) ?e1] =>
      destruct (render_loop_handles ds frames rs e1) as (Hl & Hd & _ & Hf);
      destruct (render_loop_structure ds frames rs e1)
        as (bodies & Hlog & Fd);
      destruct (snd (eval (render_loop ds frames rs) e1));
      set (rs' := fst (eval (render_loop ds frames rs) e1)) in *;
      set (e2 := exec (render_loop ds frames rs) e1) in *
  end; exists bodies; (split; [ exact Fd | ]).
  - right. split; [ reflexivity | ]. cbn [snd].
    cbn in Hl, Hd, Hf.
    assert (Hk : calls (exec (DisplaySystem_delete
                                {| window_wrapper_ := Some {| window_ := w |} |})
                          (exec (RenderSystem_delete rs') e2))
                 = calls (exec (RenderSystem_delete rs') e2)
                   ++ glfwTerminate
                      :: (if is_set w then [glfwDestroyWindow w] else [])).
    { unfold DisplaySystem_delete, WindowWrapper_delete, when.
      cbn [window_wrapper_ window_]. rewrite exec_bind.
      destruct (is_set w); cbn; repeat rewrite <- app_assoc; reflexivity. }
    rewrite Hk.
    rewrite (RenderSystem_delete_ready rs' e2)
      by (rewrite ?Hl, ?Hd, ?Hf; reflexivity).
    rewrite Hl, Hd, Hf. unfold logged in Hlog. subst e2. rewrite Hlog.
    repeat rewrite <- app_assoc. reflexivity.
  - left. split; [ reflexivity | ]. exact Hlog.
Qed.

Lemma main_log (P : call -> Prop) (frames : list FrameInput) (w : handle)
  (err : string) (exts : Extensions) :
  P (glfwWindowShouldClose w) ->
  (forall d, main_pass w d -> Forall P d) ->
  exists d,
    Forall P d
    /\ (fst (main frames (initial w err exts)) = None
        /\ calls (snd (main frames (initial w err exts)))
           = calls (exec startup (initial w err exts)) ++ d
        \/ fst (main frames (initial w err exts)) = Some 0
           /\ calls (snd (main frames (initial w err exts)))
              = calls (exec startup (initial w err exts)) ++ d
                ++ [ anari_release 2 9; anari_release 2 2;
                     anari_unloadLibrary 1; glfwTerminate ]
                ++ (if is_set w then [glfwDestroyWindow w] else [])).
Proof.
  intros Hc Hb.
  destruct (main_structure frames w err exts) as (bodies & F & H).
  eexists. split; [ | exact H ].
  apply loop_log_Forall; [ exact Hc | ].
  eapply Forall_impl; [ | exact F ]. exact Hb.
Qed.

(** The calls of one pass, for a property that every call a key event can
    cause has. *)
Ltac pass_calls H :=
  let fi := fresh "fi" in
  let rs := fresh "rs" in
  let e := fresh "e" in
  let k := fresh "k" in
  let Hk := fresh "Hk" in
  let Fk := fresh "Fk" in
  let Hd := fresh "Hd" in
  let Hc := fresh "Hc" in
  let Hf := fresh "Hf" in
  destruct H as (fi & rs & e & Hd & Hc & Hf & H);
  cbn [device_ camera_ frame_] in Hd, Hc, Hf;
  match type of H with
  | logged (loop_body ?ds _ _) _ ?d =>
      destruct (loop_body_logged ds fi rs e) as (k & Hk & Fk);
      unfold logged in H, Hk; rewrite Hk in H;
      apply app_inv_head in H; subst d;
      rewrite ?Hd, ?Hc, ?Hf;
      repeat (constructor; [ try reflexivity | ]);
      try (eapply Forall_impl; [ | exact Fk ])
  end.

Lemma startup_no_teardown (w : handle) (err : string) (exts : Extensions) :
  filter teardown_call (calls (exec startup (initial w err exts))) = []
  /\ filter sets_aspect (calls (exec startup (initial w err exts)))
     = [ anari_setParameter 2 4 "aspect"
           (VFloat (fdiv (float_of_uint kWidth) (float_of_uint kHeight))) ].
Proof.
  destruct exts as [a b c d].
  unfold exec, startup, bind, CreateWindow, when, bind, initial. cbn.
  destruct (w =? nullptr), a, b, c, d; split; reflexivity.
Qed.

Lemma Forall_filter_nil {A} (p : A -> bool) (P : A -> Prop) (l : list A) :
  (forall c, P c -> p c = false) -> Forall P l -> filter p l = [].
Proof.
  intros H F. apply filter_nothing. eapply Forall_impl; [ | exact F ].
  exact H.
Qed.

(** X3. A complete run of [main] returns 0 and ends with the teardown, in
    this order: release of the frame, release of the device, unload of the
    rendering library, then [glfwTerminate], and only then, when a window
    was created, [glfwDestroyWindow] on it (none when there is no window).
    Nothing is torn down before. *)
Theorem main_teardown_order (frames : list FrameInput) (w : handle)
  (err : string) (exts : Extensions) (code : Z) (e' : Extern) :
  main frames (initial w err exts) = (Some code, e') ->
  code = 0
  /\ exists before,
       calls e'
       = before
         ++ [ anari_release 2 9; anari_release 2 2; anari_unloadLibrary 1;
              glfwTerminate ]
         ++ (if is_set w then [glfwDestroyWindow w] else [])
       /\ filter teardown_call before = [].
Proof.
  intros H.
  destruct (main_log (fun c => teardown_call c = false) frames w err exts)
    as (d & Fd & [[Hn _] | [Hs Hl]]).
  - reflexivity.
  - intros d Hd. pass_calls Hd.
    intros c Hkey. destruct c; cbn in *; try discriminate; reflexivity.
  - rewrite H in Hn. discriminate.
  - rewrite H in Hs, Hl. cbn [fst snd] in Hs, Hl.
    split; [ congruence | ].
    exists (calls (exec startup (initial w err exts)) ++ d). split.
    + rewrite Hl. now rewrite app_assoc.
    + rewrite filter_app, (proj1 (startup_no_teardown w err exts)).
      apply filter_nothing. exact Fd.
Qed.

(** X4. The camera's aspect ratio is set exactly once in a run of [main] of
    any length: by [CreateScene], to the quotient of the constants 640 and
    480.  The framebuffer sizes polled in the loop reach the frame's size
    parameter only, never the camera's aspect. *)
Theorem main_sets_aspect_once (frames : list FrameInput) (w : handle)
  (err : string) (exts : Extensions) :
  filter sets_aspect (calls (exec (main frames) (initial w err exts)))
  = [ anari_setParameter 2 4 "aspect"
        (VFloat (fdiv (float_of_uint kWidth) (float_of_uint kHeight))) ].
Proof.
  destruct (main_log (fun c => sets_aspect c = false) frames w err exts)
    as (d & Fd & [[_ Hl] | [_ Hl]]).
  - reflexivity.
  - intros d Hd. pass_calls Hd.
    intros c Hkey. destruct c; cbn in *; try discriminate; reflexivity.
  - unfold exec. rewrite Hl, filter_app.
    rewrite (proj2 (startup_no_teardown w err exts)).
    now rewrite (filter_nothing sets_aspect (l := d)).
  - unfold exec. rewrite Hl, !filter_app.
    rewrite (proj2 (startup_no_teardown w err exts)).
    rewrite (filter_nothing sets_aspect (l := d)) by exact Fd.
    destruct (is_set w); reflexivity.
Qed.

(** ** Use after release *)

Lemma used_after_release_app (h : handle) (a b : list call) :
  used_after_release h (a ++ b)
  = if existsb (gives_up h) a
    then used_after_release h a || existsb (uses h) b
    else used_after_release h b.
Proof.
  induction a as [ | c a IH ]; [ reflexivity | ].
  cbn [app used_after_release existsb].
  destruct (gives_up h c); cbn [orb].
  - apply existsb_app.
  - exact IH.
Qed.

Lemma existsb_constant {A} (f : A -> bool) (v : bool) (l : list A) :
  Forall (fun x => f x = v) l ->
  existsb f l = v && negb (Nat.eqb (List.length l) 0).
Proof.
  induction 1 as [ | x l Hx _ IH ]; cbn.
  - now rewrite andb_false_r.
  - rewrite Hx, IH. destruct v, l; reflexivity.
Qed.

Lemma key_call_inert (k : list call) (h : handle) :
  Forall (fun c => key_call c = true) k ->
  existsb (uses h) k = false /\ existsb (gives_up h) k = false
  /\ existsb is_render k = false.
Proof.
  induction 1 as [ | c k Hc _ (I1 & I2 & I3) ]; cbn; [ repeat split | ].
  rewrite I1, I2, I3. destruct c; cbn in *; try discriminate; repeat split.
Qed.

(** A pass works on the camera and on the frame, on no other object, and
    releases nothing. *)
Lemma main_pass_uses (w : handle) (d : list call) (h : handle) :
  main_pass w d ->
  existsb (uses h) d = (h =? 4) || (h =? 9)
  /\ existsb (gives_up h) d = false
  /\ existsb is_render d = true.
Proof.
  intros (fi & rs & e & Hd & Hc & Hf & H).
  cbn [device_ camera_ frame_] in Hd, Hc, Hf.
  destruct (loop_body_logged
              {| window_wrapper_ := Some {| window_ := w |} |} fi rs e)
    as (k & Hk & Fk).
  unfold logged in H, Hk. rewrite Hk in H. apply app_inv_head in H. subst d.
  destruct (key_call_inert k h Fk) as (K1 & K2 & K3).
  rewrite Hd, Hc, Hf. cbn -[Z.eqb]. rewrite K1, K2.
  repeat split.
  destruct (Z.eqb_spec h 4) as [ -> | N4 ]; [ reflexivity | ].
  destruct (Z.eqb_spec h 9) as [ -> | N9 ]; [ reflexivity | ].
  replace (9 =? h) with false by (symmetry; apply Z.eqb_neq; congruence).
  replace (4 =? h) with false by (symmetry; apply Z.eqb_neq; congruence).
  reflexivity.
Qed.

Lemma not_object_call (c : call) (h : handle) :
  object_call c = false ->
  uses h c = false /\ gives_up h c = false /\ is_render c = false.
Proof. destruct c; cbn; try discriminate; repeat split. Qed.

Lemma existsb_object_calls (p : call -> bool) (l : list call) :
  (forall c, object_call c = false -> p c = false) ->
  existsb p (filter object_call l) = existsb p l.
Proof.
  intros Hp. induction l as [ | c l IH ]; [ reflexivity | ].
  cbn [filter]. destruct (object_call c) eqn:Hc; cbn [existsb].
  - now rewrite IH.
  - now rewrite (Hp c Hc).
Qed.

Lemma used_after_release_object_calls (h : handle) (l : list call) :
  used_after_release h (filter object_call l) = used_after_release h l.
Proof.
  induction l as [ | c l IH ]; [ reflexivity | ].
  cbn [filter]. destruct (object_call c) eqn:Hc; cbn [used_after_release].
  - rewrite IH, existsb_object_calls; [ reflexivity | ].
    intros c' Hc'. apply (not_object_call c' h Hc').
  - destruct (not_object_call c h Hc) as (_ & -> & _). exact IH.
Qed.

(** The object calls of [startup] do not depend on the platform's
    answers. *)
Lemma startup_object_calls (w : handle) (err : string) (exts : Extensions) :
  filter object_call (calls (exec startup (initial w err exts)))
  = filter object_call
      (calls (exec startup (initial nullptr "" all_extensions))).
Proof.
  destruct exts as [a b c d].
  unfold exec, startup, bind, CreateWindow, when, bind, initial. cbn.
  destruct (w =? nullptr), a, b, c, d; reflexivity.
Qed.

Lemma startup_releases (w : handle) (err : string) (exts : Extensions)
  (h : handle) :
  In h [3; 4; 5; 6; 7; 8; 9] ->
  used_after_release h (calls (exec startup (initial w err exts))) = false
  /\ existsb (gives_up h) (calls (exec startup (initial w err exts)))
     = negb (h =? 9)
  /\ existsb is_render (calls (exec startup (initial w err exts))) = false.
Proof.
  intros Hin.
  rewrite <- used_after_release_object_calls.
  rewrite <- (existsb_object_calls (gives_up h))
    by (intros c Hc; apply (not_object_call c h Hc)).
  rewrite <- (existsb_object_calls is_render)
    by (intros c Hc; apply (not_object_call c h Hc)).
  rewrite startup_object_calls.
  cbn in Hin.
  repeat (destruct Hin as [ <- | Hin ]; [ vm_compute; repeat split | ]).
  contradiction.
Qed.

(** X5. In a complete run of [main] no scene object is worked on after the
    program has released its handle to it, with one exception: [SetupFrame]
    releases the camera handle, and every pass of the loop then sets and
    commits camera parameters through that handle.  So the camera is used
    after its release exactly in the runs that render at least once. *)
Theorem main_use_after_release (frames : list FrameInput) (w : handle)
  (err : string) (exts : Extensions) (code : Z) (e' : Extern) :
  main frames (initial w err exts) = (Some code, e') ->
  forall k h,
    In (k, h) (created (calls e')) ->
    used_after_release h (calls e')
    = match k with
      | Camera => existsb is_render (calls e')
      | _ => false
      end.
Proof.
  intros H k h Hin.
  pose proof (@main_lifecycle FO frames w err exts code e' H) as HL.
  rewrite <- created_filter, HL in Hin. cbn in Hin.
  destruct (main_structure frames w err exts)
    as (bodies & F & [[Hn _] | [_ Hl]]);
    rewrite H in *; cbn [fst snd] in *; [ discriminate | ].
  assert (Hh : In h [3; 4; 5; 6; 7; 8; 9]).
  { cbn. repeat (destruct Hin as [ Hin | Hin ];
                 [ injection Hin as _ <-; tauto | ]). contradiction. }
  destruct (startup_releases w err exts h Hh) as (S1 & S2 & _).
  destruct (startup_releases w err exts 4 ltac:(cbn; tauto)) as (_ & _ & S3).
  assert (U : existsb (uses h)
                (loop_log {| window_wrapper_ := Some {| window_ := w |} |}
                   bodies)
              = ((h =? 4) || (h =? 9))
                && negb (Nat.eqb (List.length bodies) 0)).
  { rewrite loop_log_existsb by reflexivity. apply existsb_constant.
    eapply Forall_impl; [ | exact F ].
    intros d Hd. apply (main_pass_uses w d h Hd). }
  assert (G : existsb (gives_up h)
                (loop_log {| window_wrapper_ := Some {| window_ := w |} |}
                   bodies) = false).
  { rewrite loop_log_existsb by reflexivity.
    rewrite (existsb_constant _ false); [ reflexivity | ].
    eapply Forall_impl; [ | exact F ].
    intros d Hd. apply (main_pass_uses w d h Hd). }
  assert (R : existsb is_render
                (loop_log {| window_wrapper_ := Some {| window_ := w |} |}
                   bodies)
              = negb (Nat.eqb (List.length bodies) 0)).
  { rewrite loop_log_existsb by reflexivity.
    rewrite (existsb_constant _ true); [ reflexivity | ].
    eapply Forall_impl; [ | exact F ].
    intros d Hd. apply (main_pass_uses w d 0 Hd). }
  rewrite Hl, !existsb_app, S3, R.
  rewrite used_after_release_app, S1, S2, !existsb_app, U.
  rewrite used_after_release_app, G.
  repeat (destruct Hin as [ Hin | Hin ];
          [ injection Hin as <- <-; destruct (is_set w); cbn;
            rewrite ?orb_false_r, ?andb_false_r; reflexivity | ]).
  contradiction.
Qed.

(** ** The mapped colour buffer *)



(** ** Init *)

(** X7. A capability the device lacks never stops [Init]: whatever the
    extension struct answers, [Init] prints exactly one notice per missing
    capability, and goes on to create the device and one renderer, whose
    parameters it commits as its last call. *)
Theorem Init_is_best_effort (this : RenderSystem) (e : Extern) :
  exists d,
    logged (Init this) e d
    /\ List.length (filter capability_notice d) = missing (extensions e)
    /\ created d = [ (Renderer, renderer_ (eval (Init this) e)) ]
    /\ In (anari_newDevice (library_ (eval (Init this) e)) "default"
             (device_ (eval (Init this) e))) d
    /\ d = removelast d
           ++ [ anari_commitParameters (device_ (eval (Init this) e))
                  (renderer_ (eval (Init this) e)) ].
Proof.
  destruct e as [cl sc nh wr es [a b c d]].
  destruct a, b, c, d;
    unfold logged, eval, exec, Init, when, bind; cbn;
    repeat rewrite <- app_assoc; cbn;
    eexists; (split; [ reflexivity | ]);
    (split; [ reflexivity | ]); (split; [ reflexivity | ]);
    (split; [ cbn; tauto | reflexivity ]).
Qed.

(** ** From a key press to the end of the loop *)

(** X8. When a window could be created, [CreateWindow] stores it, asks for
    no error text and prints no diagnostic; and from then on the loop's test
    answers true after an event poll exactly when the close request was
    already raised, or the poll delivered a press of escape, or the window
    manager asked to close.  Releases and repeats of escape, and presses of
    any other key, do not end the loop. *)
Theorem CreateWindow_then_escape_closes (this : DisplaySystem)
  (evs : list KeyEvent) (clicked : bool) (e e1 : Extern) :
  window_result e <> nullptr ->
  Window (eval (CreateWindow this) e) = window_result e
  /\ logged (CreateWindow this) e
       ([ std_printf "Info: Creating a window\n" [];
          glfwCreateWindow kWidth kHeight "glfw3-window";
          glfwMakeContextCurrent (window_result e) ]
        ++ replaced_wrapper_log this
        ++ [ glfwSetWindowUserPointer (window_result e);
             glfwSetKeyCallback (window_result e) ])
  /\ eval (bind (PollEvents (eval (CreateWindow this) e) evs clicked)
             (fun _ =>
                WindowShouldClose (Window (eval (CreateWindow this) e))))
       e1
     = should_close e1 || existsb escape_press evs || clicked.
Proof.
  intros Hw. apply Z.eqb_neq in Hw.
  assert (Hds : eval (CreateWindow this) e
                = {| window_wrapper_ := Some {| window_ := window_result e |} |}).
  { unfold eval, CreateWindow, WindowWrapper_delete, when, bind.
    destruct (window_wrapper_ this) as [ [old] | ]; cbn; rewrite Hw;
      [ destruct (is_set old) | ]; reflexivity. }
  rewrite Hds. split; [ reflexivity | ]. split.
  - unfold logged, exec, CreateWindow, replaced_wrapper_log,
      WindowWrapper_delete, when, bind.
    destruct (window_wrapper_ this) as [ [old] | ]; cbn; rewrite Hw;
      [ destruct (is_set old) | ]; cbn;
      repeat rewrite <- app_assoc; reflexivity.
  - rewrite eval_bind. unfold PollEvents. rewrite !exec_bind.
    unfold WindowShouldClose. rewrite eval_bind. cbn [eval ask fst].
    rewrite emit_should_close.
    unfold when. destruct clicked.
    + cbn. now rewrite orb_true_r.
    + change (exec (ret tt) ?x) with x.
      rewrite deliver_should_close, emit_should_close.
      unfold is_set, Window. cbn [window_wrapper_ window_]. rewrite Hw.
      cbn. now rewrite orb_false_r.
Qed.

End Further.

Section Small.

Ltac severity_cases s sev :=
  destruct (Z.eqb_spec sev (ANARI_SEVERITY_FATAL_ERROR s));
  [ | destruct (Z.eqb_spec sev (ANARI_SEVERITY_ERROR s));
      [ | destruct (Z.eqb_spec sev (ANARI_SEVERITY_WARNING s));
          [ | destruct (Z.eqb_spec sev (ANARI_SEVERITY_PERFORMANCE_WARNING s));
              [ | destruct (Z.eqb_spec sev (ANARI_SEVERITY_INFO s));
                  [ | destruct (Z.eqb_spec sev (ANARI_SEVERITY_DEBUG s)) ] ] ] ] ].

(** X9. [statusFunc] never prints more than one line, and the line carries
    the message unchanged.  It is silent exactly on a severity that is none
    of the six it knows.  The line tells the severity: two reports print the
    same line only if they have the same severity and the same message. *)
Theorem statusFunc_line_tells_severity (s : Severities)
  (sev1 sev2 : Z) (m1 m2 : string) :
  (List.length (statusFunc s sev1 m1) <= 1)%nat
  /\ (forall l, In l (statusFunc s sev1 m1) -> snd l = m1)
  /\ (statusFunc s sev1 m1 = [] <-> ~ In sev1 (severities s))
  /\ (statusFunc s sev1 m1 <> [] ->
      statusFunc s sev1 m1 = statusFunc s sev2 m2 ->
      sev1 = sev2 /\ m1 = m2).
Proof.
  unfold statusFunc, severities.
  severity_cases s sev1; cbn [List.length In];
    (split; [ lia | ]);
    (split; [ intros l [ <- | [] ] || intros l []; reflexivity | ]);
    (split;
     [ split;
       [ try discriminate; intros _ H;
         repeat (destruct H as [ H | H ]; [ congruence | ]); exact H
       | try reflexivity; intros H; exfalso; apply H;
         repeat first [ left; congruence | right ] ]
     | ]);
    intros Hne Heq; try (exfalso; apply Hne; reflexivity);
    severity_cases s sev2; try discriminate Heq;
    injection Heq as ->; split; congruence.
Qed.

Lemma nth_error_concat_rows {T} (rows : list (list T)) (n i j : nat) :
  Forall (fun r => List.length r = n) rows ->
  (i < n)%nat -> (j < List.length rows)%nat ->
  nth_error (List.concat rows) (j * n + i) = nth_error (nth j rows []) i.
Proof.
  intros F Hi. revert j. induction F as [ | r rows Hr _ IH ]; intros j Hj.
  - cbn in Hj. lia.
  - cbn [List.concat]. destruct j as [ | j ].
    + cbn [Nat.mul Nat.add nth]. apply nth_error_app1. lia.
    + cbn [nth]. rewrite nth_error_app2 by (cbn; lia).
      replace (S j * n + i - List.length r)%nat with (j * n + i)%nat
        by (cbn; lia).
      apply IH. cbn in Hj. lia.
Qed.

(** X10. [getPixelValue] reads a row-major image: for a buffer made of rows
    of [width] pixels each, small enough to be indexed in 32 bits, and a
    coordinate inside the image, it returns pixel [x] of row [y], and the
    read is inside the buffer. *)
Theorem getPixelValue_row_major {T} (rows : list (list T)) (width x y : Z) :
  Forall (fun r => Z.of_nat (List.length r) = width) rows ->
  width < 2 ^ 31 ->
  width * Z.of_nat (List.length rows) <= 2 ^ 32 ->
  0 <= x < width ->
  0 <= y < Z.of_nat (List.length rows) ->
  getPixelValue (x, y) width (List.concat rows)
  = nth_error (nth (Z.to_nat y) rows []) (Z.to_nat x)
  /\ getPixelValue (x, y) width (List.concat rows) <> None.
Proof.
  intros F Hw Hsz Hx Hy.
  assert (F' : Forall (fun r => List.length r = Z.to_nat width) rows).
  { eapply Forall_impl; [ | exact F ]. cbn. intros r Hr. lia. }
  assert (E : getPixelValue (x, y) width (List.concat rows)
              = nth_error (nth (Z.to_nat y) rows []) (Z.to_nat x)).
  { unfold getPixelValue, to_uint32. cbn [fst snd].
    rewrite (Z.mod_small width) by lia.
    rewrite Z.mod_small by nia.
    replace (Z.to_nat (y * width + x))
      with (Z.to_nat y * Z.to_nat width + Z.to_nat x)%nat by nia.
    apply nth_error_concat_rows; [ exact F' | lia | lia ]. }
  split; [ exact E | ].
  rewrite E. apply nth_error_Some.
  assert (Hin : In (nth (Z.to_nat y) rows []) rows) by (apply nth_In; lia).
  rewrite Forall_forall in F'. rewrite (F' _ Hin). lia.
Qed.

(** X11. The id check of the older [main] reads the centre pixel
    [(w / 2, h / 2)] of a buffer of [w * h] pixels.  That read is inside
    the buffer exactly when the image is not empty: with a framebuffer of
    width or height 0 (a minimised window) it reads past the end of an
    empty buffer. *)
Theorem getPixelValue_centre {T} (buf : list T) (w h : Z) :
  0 <= w < 2 ^ 31 ->
  0 <= h ->
  w * h <= 2 ^ 32 ->
  Z.of_nat (List.length buf) = w * h ->
  (getPixelValue (w / 2, h / 2) w buf <> None <-> 0 < w /\ 0 < h).
Proof.
  intros Hw Hh Hsz Hlen. unfold getPixelValue, to_uint32. cbn [fst snd].
  rewrite (Z.mod_small w) by lia.
  rewrite nth_error_Some.
  assert (H2w : 0 <= w / 2) by (apply Z.div_pos; lia).
  assert (H2h : 0 <= h / 2) by (apply Z.div_pos; lia).
  split.
  - intros Hlt.
    assert (0 < w * h) by lia. nia.
  - intros [Pw Ph].
    assert (w / 2 < w) by (apply Z.div_lt; lia).
    assert (h / 2 < h) by (apply Z.div_lt; lia).
    assert (Hi : 0 <= h / 2 * w + w / 2 < w * h) by nia.
    rewrite Z.mod_small by lia. lia.
Qed.

End Small.

(** * The older program *)

Section OlderProgram.
Context {FO : FloatOps}.
Variable fcos : float -> float.

Import LegacyLog.

Lemma legacy_deliver (w : handle) (evs : list KeyEvent) (e : Extern) :
  exists k,
    logged (Legacy.deliver w evs) e k
    /\ Forall (fun c => c = glfwSetWindowShouldClose w GL_TRUE) k
    /\ should_close (exec (Legacy.deliver w evs) e)
       = should_close e || (is_set w && existsb escape_press evs).
Proof.
  revert e. induction evs as [ | ev evs IH ]; intros e.
  - exists []. unfold logged. cbn. rewrite app_nil_r, andb_false_r, orb_false_r.
    repeat split. constructor.
  - cbn [Legacy.deliver]. unfold logged. rewrite exec_bind.
    match goal with
    | |- context [exec (Legacy.deliver w evs) ?E] =>
        destruct (IH E) as (k & Hk & Fk & Sk)
    end.
    unfold logged in Hk. rewrite Hk, Sk.
    unfold Legacy.key_callback, when, escape_press. cbn [existsb].
    destruct (is_set w); cbn [andb].
    + destruct ((ev_key ev =? GLFW_KEY_ESCAPE) && (ev_action ev =? GLFW_PRESS)).
      * eexists (_ :: k). cbn. rewrite <- app_assoc, orb_true_r.
        repeat split. now constructor.
      * exists k. cbn. repeat split. exact Fk.
    + exists k. cbn. rewrite !orb_false_r. repeat split. exact Fk.
Qed.

Lemma legacy_PollEvents (w : handle) (evs : list KeyEvent) (clicked : bool)
  (e : Extern) :
  exists k,
    logged (Legacy.PollEvents w evs clicked) e (glfwPollEvents :: k)
    /\ Forall (fun c => c = glfwSetWindowShouldClose w GL_TRUE) k
    /\ should_close (exec (Legacy.PollEvents w evs clicked) e)
       = should_close e || (is_set w && existsb escape_press evs) || clicked.
Proof.
  unfold Legacy.PollEvents, logged. rewrite !exec_bind.
  destruct (legacy_deliver w evs (exec (emit glfwPollEvents) e))
    as (k & Hk & Fk & Sk).
  exists k. unfold logged in Hk.
  unfold when. destruct clicked.
  - cbn [exec set_should_close snd calls should_close].
    change (calls (snd (Legacy.deliver w evs (exec (emit glfwPollEvents) e))))
      with (calls (exec (Legacy.deliver w evs) (exec (emit glfwPollEvents) e))).
    rewrite Hk. cbn. rewrite <- app_assoc, orb_true_r. repeat split. exact Fk.
  - change (exec (ret tt) ?x) with x. rewrite Hk, Sk. cbn.
    rewrite <- app_assoc, orb_false_r. repeat split. exact Fk.
Qed.


Lemma bind_emit {A} (c : call) (k : unit -> M A) (e : Extern) :
  bind (emit c) k e = k tt (exec (emit c) e).
Proof. reflexivity. Qed.

Lemma bind_run {A B} (m : M A) (k : A -> M B) (e : Extern) :
  bind m k e = k (eval m e) (exec m e).
Proof. unfold bind, eval, exec. destruct (m e). reflexivity. Qed.

Lemma run_congr {A} (m m' : M A) (e e' : Extern) :
  m e = m' e' -> eval m e = eval m' e' /\ exec m e = exec m' e'.
Proof. intros H. unfold eval, exec. rewrite H. split; reflexivity. Qed.

Lemma exec_ret {A} (v : A) (e : Extern) : exec (ret v) e = e.
Proof. reflexivity. Qed.

Lemma eval_ret {A} (v : A) (e : Extern) : eval (ret v) e = v.
Proof. reflexivity. Qed.

Lemma calls_emit (c : call) (e : Extern) :
  calls (exec (emit c) e) = calls e ++ [c].
Proof. reflexivity. Qed.

(** The id check: the lines it prints, and whether it reads past a
    buffer. *)
Lemma legacy_id_check {A} (c1 c2 : bool) (f1 f2 f3 : string)
  (p1 p2 p3 : option Z) (K : M (option A)) (E : Extern) :
  exists E' pre,
    calls E' = calls E ++ pre
    /\ should_close E' = should_close E
    /\ Forall (fun c => report_call c = true) pre
    /\ (Legacy.print_pixel c1 f1 p1
          (Legacy.print_pixel c2 f2 p2 (Legacy.print_pixel c1 f3 p3 K)) E
        = (None, E')
        \/ Legacy.print_pixel c1 f1 p1
             (Legacy.print_pixel c2 f2 p2 (Legacy.print_pixel c1 f3 p3 K)) E
           = K E').
Proof.
  unfold Legacy.print_pixel.
  destruct c1, c2; try destruct p1 as [ v1 | ]; try destruct p2 as [ v2 | ];
    try destruct p3 as [ v3 | ]; unfold bind, emit, ret; cbn;
    eexists; eexists;
    (split; [ | split; [ | split;
       [ | first [ left; reflexivity | right; reflexivity ] ] ] ]).
  all: try (cbn; repeat rewrite <- app_assoc;
            first [ reflexivity | symmetry; apply app_nil_r ]).
  all: try reflexivity.
  all: repeat constructor.
Qed.

Lemma legacy_loop_body_head (fi : FrameInput) (ids : IdBuffers)
  (l : Legacy.Locals) (e : Extern) :
  exists E,
    calls E = calls e ++ pass_head fcos l fi
    /\ should_close E = should_close e
    /\ Legacy.loop_body fcos fi ids l e
       = Legacy.print_pixel (is_uint32 (fbPrimId ids)) "    primId: %u\n"
           (getPixelValue
              (to_uint32 (fi_width fi) / 2, to_uint32 (fi_height fi) / 2)
              (to_int32 (to_uint32 (fi_width fi))) (data (fbPrimId ids)))
           (Legacy.print_pixel (is_uint32 (fbObjId ids)) "     objId: %u\n"
              (getPixelValue
                 (to_uint32 (fi_width fi) / 2, to_uint32 (fi_height fi) / 2)
                 (to_int32 (to_uint32 (fi_width fi))) (data (fbObjId ids)))
              (Legacy.print_pixel (is_uint32 (fbPrimId ids))
                 "    instId: %u\n"
                 (getPixelValue
                    (to_uint32 (fi_width fi) / 2,
                     to_uint32 (fi_height fi) / 2)
                    (to_int32 (to_uint32 (fi_width fi)))
                    (data (fbInstId ids)))
                 (bind
                    (Legacy.PollEvents (Legacy.Window (Legacy.ds l))
                       (fi_events fi) (fi_close_clicked fi))
                    (fun _ => ret (Some (after_pass fcos l fi))))))
           E.
Proof.
  unfold Legacy.loop_body, setParameter, setParameterArray1D,
    commitParameters.
  cbv zeta. rewrite !bind_emit.
  eexists. split; [ | split; [ | reflexivity ] ].
  - rewrite !calls_emit. unfold pass_head. cbv zeta.
    repeat rewrite <- app_assoc. reflexivity.
  - rewrite !emit_should_close. reflexivity.
Qed.


(** One pass: the head, then the lines of the id check, the event poll and
    what the key callback causes; the pass either runs into an undefined
    read or leaves the locals of [after_pass]. *)
Lemma legacy_loop_body (fi : FrameInput) (ids : IdBuffers)
  (l : Legacy.Locals) (e : Extern) :
  exists t,
    logged (Legacy.loop_body fcos fi ids l) e (pass_head fcos l fi ++ t)
    /\ Forall (fun c => report_call c = true) t
    /\ (eval (Legacy.loop_body fcos fi ids l) e = None
        \/ eval (Legacy.loop_body fcos fi ids l) e
           = Some (after_pass fcos l fi)
           /\ should_close (exec (Legacy.loop_body fcos fi ids l) e)
              = should_close e
                || (is_set (Legacy.Window (Legacy.ds l))
                    && existsb escape_press (fi_events fi))
                || fi_close_clicked fi).
Proof.
  destruct (legacy_loop_body_head fi ids l e) as (E & HE & SE & HH).
  unfold logged, eval, exec. rewrite HH. clear HH.
  match goal with
  | |- context [Legacy.print_pixel ?c1 ?f1 ?p1
                  (Legacy.print_pixel ?c2 ?f2 ?p2
                     (Legacy.print_pixel ?c1 ?f3 ?p3 ?K)) E] =>
      destruct (legacy_id_check c1 c2 f1 f2 f3 p1 p2 p3 K E)
        as (E' & pre & HE' & SE' & Fpre & [ R | R ])
  end; rewrite R.
  - exists pre. cbn [fst snd]. rewrite HE', HE, <- app_assoc.
    split; [ reflexivity | ]. split; [ exact Fpre | ]. left. reflexivity.
  - destruct (legacy_PollEvents (Legacy.Window (Legacy.ds l)) (fi_events fi)
                (fi_close_clicked fi) E') as (k & Hk & Fk & Sk).
    exists (pre ++ glfwPollEvents :: k).
    unfold logged in Hk.
    change (snd (?a E')) with (exec a E').
    change (fst (?a E')) with (eval a E').
    rewrite exec_bind, eval_bind.
    change (exec (ret ?v) ?x) with x. change (eval (ret ?v) ?x) with v.
    rewrite Hk, Sk, HE', SE', HE, SE. repeat rewrite <- app_assoc.
    split; [ reflexivity | ]. split.
    + apply Forall_app. split; [ exact Fpre | ].
      constructor; [ reflexivity | ].
      eapply Forall_impl; [ | exact Fk ]. intros c ->. reflexivity.
    + right. split; reflexivity.
Qed.

Lemma set_reds_twice (c : Legacy.colors) (a b a' b' : float) :
  set_reds (set_reds c a b) a' b' = set_reds c a' b'.
Proof. destruct c as [[[[[[? ?] ?] ?] ?] ?] [[[? ?] ?] ?]]. reflexivity. Qed.

Lemma same_scene_refl (l : Legacy.Locals) : same_scene l l.
Proof.
  repeat split.
  destruct (Legacy.color l) as [[[[[[a ?] ?] ?] ?] ?] [[[b ?] ?] ?]].
  exists a, b. reflexivity.
Qed.

Lemma same_scene_after_pass (l l' : Legacy.Locals) (fi : FrameInput) :
  same_scene (after_pass fcos l fi) l' -> same_scene l l'.
Proof.
  intros (H1 & H2 & H3 & H4 & H5 & H6 & H7 & r0 & r3 & H8).
  cbn in *. repeat split; try assumption.
  exists r0, r3. rewrite H8. apply set_reds_twice.
Qed.

Lemma pass_head_after_pass (l : Legacy.Locals) (fi fi' : FrameInput) :
  pass_head fcos (after_pass fcos l fi) fi' = pass_head fcos l fi'.
Proof.
  unfold pass_head, after_pass. cbn. rewrite set_reds_twice. reflexivity.
Qed.

Lemma legacy_render_loop_closed (frames : list (FrameInput * IdBuffers))
  (l : Legacy.Locals) (e : Extern) :
  should_close e = true ->
  Legacy.render_loop fcos frames l e
  = (Some (l, true),
     exec (WindowShouldClose (Legacy.Window (Legacy.ds l))) e).
Proof.
  intros H. destruct frames as [ | [fi ids] rest ];
    unfold Legacy.render_loop, bind, WindowShouldClose; cbn; rewrite H;
    reflexivity.
Qed.

Lemma legacy_render_loop_out (l : Legacy.Locals) (e : Extern) :
  should_close e = false ->
  Legacy.render_loop fcos [] l e
  = (Some (l, false),
     exec (WindowShouldClose (Legacy.Window (Legacy.ds l))) e).
Proof.
  intros H. unfold Legacy.render_loop, bind, WindowShouldClose; cbn.
  rewrite H. reflexivity.
Qed.

Lemma legacy_render_loop_step (fi : FrameInput) (ids : IdBuffers)
  (rest : list (FrameInput * IdBuffers)) (l : Legacy.Locals) (e : Extern) :
  should_close e = false ->
  Legacy.render_loop fcos ((fi, ids) :: rest) l e
  = match eval (Legacy.loop_body fcos fi ids l)
            (exec (WindowShouldClose (Legacy.Window (Legacy.ds l))) e) with
    | Some l' =>
        Legacy.render_loop fcos rest l'
          (exec (Legacy.loop_body fcos fi ids l)
             (exec (WindowShouldClose (Legacy.Window (Legacy.ds l))) e))
    | None =>
        (None,
         exec (Legacy.loop_body fcos fi ids l)
           (exec (WindowShouldClose (Legacy.Window (Legacy.ds l))) e))
    end.
Proof.
  intros H. cbn [Legacy.render_loop].
  rewrite bind_run.
  change (eval (WindowShouldClose ?w) e) with (should_close e).
  rewrite H. rewrite bind_run.
  destruct (eval _ _); reflexivity.
Qed.


Lemma filter_cons_false {A} (p : A -> bool) (c : A) (l : list A) :
  p c = false -> filter p (c :: l) = filter p l.
Proof. intros H. cbn. rewrite H. reflexivity. Qed.

Lemma flat_map_firstn_S {A B} (f : A -> list B) (n : nat) (x : A)
  (l : list A) :
  flat_map f (firstn (S n) (x :: l)) = f x ++ flat_map f (firstn n l).
Proof. reflexivity. Qed.

(** The loop's log, read through a filter that drops the loop's test and
    the calls after the head of a pass: the heads of the passes begun, one
    per answer consumed. *)
Lemma legacy_render_loop_run (frames : list (FrameInput * IdBuffers))
  (l : Legacy.Locals) (e : Extern) :
  exists n dlog,
    (n <= List.length frames)%nat
    /\ logged (Legacy.render_loop fcos frames l) e dlog
    /\ (forall p : call -> bool,
           p (glfwWindowShouldClose (Legacy.Window (Legacy.ds l))) = false ->
           (forall c, report_call c = true -> p c = false) ->
           filter p dlog
           = flat_map (fun x => filter p (pass_head fcos l (fst x)))
               (firstn n frames))
    /\ (forall l' b,
           eval (Legacy.render_loop fcos frames l) e = Some (l', b) ->
           same_scene l l').
Proof.
  revert l e. induction frames as [ | [fi ids] rest IH ]; intros l e;
    unfold logged, eval, exec; destruct (should_close e) eqn:Hs.
  - rewrite legacy_render_loop_closed by assumption.
    exists O. eexists. split; [ apply Nat.le_0_l | ].
    split; [ reflexivity | ]. split.
    + intros p Hc _. cbn. now rewrite Hc.
    + intros l' b [= <- _]. apply same_scene_refl.
  - rewrite legacy_render_loop_out by assumption.
    exists O. eexists. split; [ apply Nat.le_0_l | ].
    split; [ reflexivity | ]. split.
    + intros p Hc _. cbn. now rewrite Hc.
    + intros l' b [= <- _]. apply same_scene_refl.
  - rewrite legacy_render_loop_closed by assumption.
    exists O. eexists. split; [ apply Nat.le_0_l | ].
    split; [ reflexivity | ]. split.
    + intros p Hc _. cbn. now rewrite Hc.
    + intros l' b [= <- _]. apply same_scene_refl.
  - rewrite legacy_render_loop_step by assumption.
    set (e1 := exec (WindowShouldClose (Legacy.Window (Legacy.ds l))) e).
    destruct (legacy_loop_body fi ids l e1) as (t & Ht & Ft & [ R | [ R _ ] ]);
      rewrite R; unfold logged in Ht.
    + exists 1%nat. eexists. split; [ cbn; lia | ]. split.
      * cbn [snd]. rewrite Ht. subst e1.
        change (calls (exec (WindowShouldClose ?w) e))
          with (calls e ++ [glfwWindowShouldClose w]).
        rewrite <- app_assoc. reflexivity.
      * split; [ | discriminate ].
        intros p Hc Hp. rewrite flat_map_firstn_S.
        change ([glfwWindowShouldClose ?w] ++ ?x)
          with (glfwWindowShouldClose w :: x).
        rewrite (filter_cons_false p _ _ Hc), filter_app.
        rewrite (filter_nothing p (l := t))
          by (eapply Forall_impl; [ | exact Ft ]; exact Hp).
        reflexivity.
    + destruct (IH (after_pass fcos l fi)
                  (exec (Legacy.loop_body fcos fi ids l) e1))
        as (n & dlog & Hn & Hl & Hf & Hi).
      unfold logged in Hl. unfold exec at 1 in Hl. unfold eval in Hi.
      exists (S n). eexists. split; [ cbn; lia | ]. split.
      * rewrite Hl, Ht. subst e1.
        change (calls (exec (WindowShouldClose ?w) e))
          with (calls e ++ [glfwWindowShouldClose w]).
        repeat rewrite <- app_assoc. reflexivity.
      * split.
        -- intros p Hc Hp. rewrite flat_map_firstn_S.
           change ([glfwWindowShouldClose ?w] ++ ?x)
             with (glfwWindowShouldClose w :: x).
           rewrite (filter_cons_false p _ _ Hc), !filter_app.
           rewrite (filter_nothing p (l := t))
             by (eapply Forall_impl; [ | exact Ft ]; exact Hp).
           rewrite (Hf p Hc Hp). rewrite app_nil_l.
           apply (f_equal (app (filter p (pass_head fcos l fi)))).
           apply flat_map_ext. intros x. rewrite pass_head_after_pass.
           reflexivity.
        -- intros l' b Hr. eapply same_scene_after_pass. eapply Hi.
           exact Hr.
Qed.


(** ** The whole run of the older program *)

Lemma legacy_startup_eval (w : handle) (err : string) (exts : Extensions) :
  eval Legacy.startup (initial w err exts) = entry w.
Proof.
  destruct exts as [a b c d].
  unfold eval, Legacy.startup, bind, Legacy.CreateWindow,
    Legacy.DisplaySystem_new, when, bind, initial. cbn.
  destruct (w =? nullptr), a, b, c, d; reflexivity.
Qed.

Lemma legacy_startup_log (w : handle) (err : string) (exts : Extensions) :
  filter (animator 3) (calls (exec Legacy.startup (initial w err exts)))
  = [ anari_setParameter 2 3 "position" (VVec3 (flit 0, flit 0, flit 0));
      anari_setParameterArray1D 2 5 "vertex.color"
        (AVec4 (Legacy.colors_list (Legacy.color (entry w)))) ]
  /\ filter buffer_call (calls (exec Legacy.startup (initial w err exts)))
     = []
  /\ filter is_render (calls (exec Legacy.startup (initial w err exts))) = []
  /\ filter teardown_call (calls (exec Legacy.startup (initial w err exts)))
     = []
  /\ created (calls (exec Legacy.startup (initial w err exts)))
     = [ (Camera, 3); (World, 4); (Geometry, 5); (Material, 6);
         (Surface, 7); (Renderer, 8); (Frame, 9) ]
  /\ filter object_call (calls (exec Legacy.startup (initial w err exts)))
     = filter object_call
         (calls (exec Legacy.startup (initial nullptr "" all_extensions))).
Proof.
  destruct exts as [a b c d].
  unfold exec, Legacy.startup, bind, Legacy.CreateWindow,
    Legacy.DisplaySystem_new, when, bind, initial. cbn.
  destruct (w =? nullptr), a, b, c, d; repeat split; reflexivity.
Qed.

Lemma legacy_main_run (frames : list (FrameInput * IdBuffers)) (e : Extern) :
  Legacy.main fcos frames e
  = match eval (Legacy.render_loop fcos frames (eval Legacy.startup e))
            (exec Legacy.startup e) with
    | None =>
        (Legacy.undefined,
         exec (Legacy.render_loop fcos frames (eval Legacy.startup e))
           (exec Legacy.startup e))
    | Some (_, false) =>
        (Legacy.looping,
         exec (Legacy.render_loop fcos frames (eval Legacy.startup e))
           (exec Legacy.startup e))
    | Some (l, true) =>
        (Legacy.returned 0,
         exec (Legacy.DisplaySystem_delete (Legacy.ds l))
           (exec (emit (std_printf "done!\n" []))
              (exec (emit (anari_unloadLibrary (Legacy.lib l)))
                 (exec (emit (anari_release (Legacy.d l) (Legacy.d l)))
                    (exec (emit (anari_release (Legacy.d l)
                                   (Legacy.frame l)))
                       (exec (emit (std_printf "\ncleaning up objects..."
                                      []))
                          (exec (Legacy.render_loop fcos frames
                                   (eval Legacy.startup e))
                             (exec Legacy.startup e))))))))
    end.
Proof.
  unfold Legacy.main. rewrite !bind_run.
  destruct (eval (Legacy.render_loop fcos frames (eval Legacy.startup e))
              (exec Legacy.startup e)) as [ [l [ | ]] | ]; try reflexivity.
  unfold printf, release, unloadLibrary. rewrite !bind_run. reflexivity.
Qed.

(** The log of a run of the older [main]: what [startup] logs, then the
    loop's calls, then, when the loop has ended, the cleanup. *)
Lemma legacy_main_structure (frames : list (FrameInput * IdBuffers))
  (w : handle) (err : string) (exts : Extensions) :
  exists n dlog,
    (n <= List.length frames)%nat
    /\ (forall p : call -> bool,
           p (glfwWindowShouldClose w) = false ->
           (forall c, report_call c = true -> p c = false) ->
           filter p dlog
           = flat_map (fun x => filter p (pass_head fcos (entry w) (fst x)))
               (firstn n frames))
    /\ (fst (Legacy.main fcos frames (initial w err exts))
        <> Legacy.returned 0
        /\ calls (snd (Legacy.main fcos frames (initial w err exts)))
           = calls (exec Legacy.startup (initial w err exts)) ++ dlog
        \/ fst (Legacy.main fcos frames (initial w err exts))
           = Legacy.returned 0
           /\ calls (snd (Legacy.main fcos frames (initial w err exts)))
              = calls (exec Legacy.startup (initial w err exts)) ++ dlog
                ++ cleanup w).
Proof.
  rewrite legacy_main_run, legacy_startup_eval.
  destruct (legacy_render_loop_run frames (entry w)
              (exec Legacy.startup (initial w err exts)))
    as (n & dlog & Hn & Hl & Hf & Hi).
  exists n, dlog. split; [ exact Hn | ]. split; [ exact Hf | ].
  unfold logged in Hl.
  destruct (eval (Legacy.render_loop fcos frames (entry w))
              (exec Legacy.startup (initial w err exts)))
    as [ [l [ | ]] | ].
  - right. split; [ reflexivity | ].
    destruct (Hi l true eq_refl) as (H1 & _ & H3 & H4 & _ & _ & H7 & _).
    cbn [fst snd]. rewrite H1, H3, H4, H7.
    unfold Legacy.DisplaySystem_delete, when. rewrite exec_bind.
    unfold cleanup. cbn [entry Legacy.ds Legacy.window_ Legacy.lib Legacy.d
                          Legacy.frame].
    destruct (is_set w).
    + rewrite !calls_emit, Hl. repeat rewrite <- app_assoc. reflexivity.
    + change (exec (ret tt) ?x) with x.
      rewrite !calls_emit, Hl. repeat rewrite <- app_assoc. reflexivity.
  - left. split; [ discriminate | exact Hl ].
  - left. split; [ discriminate | exact Hl ].
Qed.


Lemma report_call_inert (c : call) :
  report_call c = true ->
  animator 3 c = false /\ buffer_call c = false /\ is_render c = false
  /\ object_call c = false /\ lifecycle c = false
  /\ teardown_call c = false.
Proof. destruct c; cbn; try discriminate; repeat split. Qed.

Lemma flat_map_nil_all {A B} (g : A -> list B) (l : list A) :
  (forall x, g x = []) -> flat_map g l = [].
Proof.
  intros H. induction l as [ | x l IH ]; [ reflexivity | ].
  cbn [flat_map]. now rewrite H, IH.
Qed.

Lemma length_flat_map_one {A B} (g : A -> list B) (l : list A) :
  (forall x, List.length (g x) = 1%nat) ->
  List.length (flat_map g l) = List.length l.
Proof.
  intros H. induction l as [ | x l IH ]; [ reflexivity | ].
  cbn [flat_map]. rewrite length_app, H, IH. reflexivity.
Qed.

Lemma legacy_cleanup_filters (w : handle) :
  filter (animator 3) (cleanup w) = []
  /\ filter buffer_call (cleanup w) = []
  /\ filter is_render (cleanup w) = []
  /\ filter object_call (cleanup w) = [anari_release 2 9; anari_release 2 2]
  /\ filter lifecycle (cleanup w)
     = [anari_release 2 9; anari_release 2 2; anari_unloadLibrary 1].
Proof. unfold cleanup. destruct (is_set w); repeat split; reflexivity. Qed.

(** The number of passes begun is the number of render requests. *)
Lemma legacy_main_renders (frames : list (FrameInput * IdBuffers))
  (w : handle) (err : string) (exts : Extensions) (n : nat)
  (dlog tail : list call) :
  (n <= List.length frames)%nat ->
  filter is_render dlog
  = flat_map (fun x => filter is_render (pass_head fcos (entry w) (fst x)))
      (firstn n frames) ->
  filter is_render tail = [] ->
  List.length
    (filter is_render
       (calls (exec Legacy.startup (initial w err exts)) ++ dlog ++ tail))
  = n.
Proof.
  intros Hn Hd Ht.
  destruct (legacy_startup_log w err exts) as (_ & _ & S3 & _).
  rewrite !filter_app, S3, Hd, Ht, app_nil_r. cbn [app].
  rewrite length_flat_map_one by reflexivity.
  apply firstn_length_le. exact Hn.
Qed.

(** X12. The older loop animates both the camera and the colours.  Of the
    calls of a run of the older [main], those that set the camera position
    or the per-vertex colours are: the two of the scene setup, then one
    pair per pass, in which the colours sent have the sine of the elapsed
    time as red component of the first vertex and its cosine as red
    component of the last, every other component as set up, and the camera
    position is (0, sin t, 0).  The passes begun are as many as the render
    requests. *)
Theorem legacy_main_animates_camera_and_colors
  (frames : list (FrameInput * IdBuffers)) (w : handle) (err : string)
  (exts : Extensions) :
  exists n,
    (n <= List.length frames)%nat
    /\ List.length
         (filter is_render
            (calls (exec (Legacy.main fcos frames) (initial w err exts))))
       = n
    /\ filter (animator 3)
         (calls (exec (Legacy.main fcos frames) (initial w err exts)))
       = [ anari_setParameter 2 3 "position"
             (VVec3 (flit 0, flit 0, flit 0));
           anari_setParameterArray1D 2 5 "vertex.color"
             (AVec4
                [ (flit (9 # 10), flit (5 # 10), flit (5 # 10), flit 1);
                  (flit (8 # 10), flit (8 # 10), flit (8 # 10), flit 1);
                  (flit (8 # 10), flit (8 # 10), flit (8 # 10), flit 1);
                  (flit (5 # 10), flit (9 # 10), flit (5 # 10), flit 1) ]) ]
         ++ flat_map
              (fun x =>
                 [ anari_setParameterArray1D 2 5 "vertex.color"
                     (AVec4
                        [ (fsin (fi_time (fst x)), flit (5 # 10),
                           flit (5 # 10), flit 1);
                          (flit (8 # 10), flit (8 # 10), flit (8 # 10),
                           flit 1);
                          (flit (8 # 10), flit (8 # 10), flit (8 # 10),
                           flit 1);
                          (fcos (fi_time (fst x)), flit (9 # 10),
                           flit (5 # 10), flit 1) ]);
                   anari_setParameter 2 3 "position"
                     (VVec3 (flit 0, fsin (fi_time (fst x)), flit 0)) ])
              (firstn n frames).
Proof.
  destruct (legacy_main_structure frames w err exts)
    as (n & dlog & Hn & Hf & H).
  destruct (legacy_startup_log w err exts) as (S1 & _).
  destruct (legacy_cleanup_filters w) as (C1 & _ & C3 & _).
  pose proof (Hf (animator 3) eq_refl) as Ha.
  pose proof (Hf is_render eq_refl) as Hr.
  exists n. split; [ exact Hn | ]. unfold exec.
  destruct H as [ [_ ->] | [_ ->] ].
  - split.
    + rewrite <- (app_nil_r dlog).
      apply (legacy_main_renders frames); [ exact Hn | | reflexivity ].
      apply Hr. intros c Hc. now apply report_call_inert.
    + rewrite filter_app, S1, Ha. reflexivity.
      intros c Hc. now apply report_call_inert.
  - split.
    + apply (legacy_main_renders frames); [ exact Hn | | exact C3 ].
      apply Hr. intros c Hc. now apply report_call_inert.
    + rewrite !filter_app, S1, C1, app_nil_r, Ha. reflexivity.
      intros c Hc. now apply report_call_inert.
Qed.

(** X13. The older loop unmaps the colour channel only.  Of the calls of a
    run of the older [main], those that map, draw from or unmap a frame
    buffer are six per pass: map, draw and unmap of "channel.color", then
    the maps of "channel.primitiveId", "channel.objectId" and
    "channel.instanceId", with no unmap for these three, in this or in any
    later pass. *)
Theorem legacy_main_id_channels_stay_mapped
  (frames : list (FrameInput * IdBuffers)) (w : handle) (err : string)
  (exts : Extensions) :
  exists n,
    (n <= List.length frames)%nat
    /\ List.length
         (filter is_render
            (calls (exec (Legacy.main fcos frames) (initial w err exts))))
       = n
    /\ filter buffer_call
         (calls (exec (Legacy.main fcos frames) (initial w err exts)))
       = flat_map
           (fun x =>
              [ anari_map 2 9 "channel.color";
                glDrawPixels (fi_width (fst x)) (fi_height (fst x));
                anari_unmap 2 9 "channel.color";
                anari_map 2 9 "channel.primitiveId";
                anari_map 2 9 "channel.objectId";
                anari_map 2 9 "channel.instanceId" ])
           (firstn n frames).
Proof.
  destruct (legacy_main_structure frames w err exts)
    as (n & dlog & Hn & Hf & H).
  destruct (legacy_startup_log w err exts) as (_ & S2 & _).
  destruct (legacy_cleanup_filters w) as (_ & C2 & C3 & _).
  pose proof (Hf buffer_call eq_refl) as Ha.
  pose proof (Hf is_render eq_refl) as Hr.
  exists n. split; [ exact Hn | ]. unfold exec.
  destruct H as [ [_ ->] | [_ ->] ].
  - split.
    + rewrite <- (app_nil_r dlog).
      apply (legacy_main_renders frames); [ exact Hn | | reflexivity ].
      apply Hr. intros c Hc. now apply report_call_inert.
    + rewrite filter_app, S2, Ha. reflexivity.
      intros c Hc. now apply report_call_inert.
  - split.
    + apply (legacy_main_renders frames); [ exact Hn | | exact C3 ].
      apply Hr. intros c Hc. now apply report_call_inert.
    + rewrite !filter_app, S2, C2, app_nil_r, Ha. reflexivity.
      intros c Hc. now apply report_call_inert.
Qed.


(** X17. A complete run of the older [main] returns 0 and ends with its
    cleanup, in this order: release of the frame, release of the device,
    unload of the rendering library, then the destruction of the window
    when one was created, and [glfwTerminate] last.  Nothing is torn down
    before. *)
Theorem legacy_main_teardown_order (frames : list (FrameInput * IdBuffers))
  (w : handle) (err : string) (exts : Extensions) (code : Z) (e' : Extern) :
  Legacy.main fcos frames (initial w err exts) = (Legacy.returned code, e') ->
  code = 0
  /\ exists before,
       calls e'
       = before
         ++ [ std_printf "\ncleaning up objects..." [];
              anari_release 2 9; anari_release 2 2; anari_unloadLibrary 1;
              std_printf "done!\n" [] ]
         ++ (if is_set w then [glfwDestroyWindow w] else [])
         ++ [ glfwTerminate ]
       /\ filter teardown_call before = [].
Proof.
  intros H.
  destruct (legacy_main_structure frames w err exts)
    as (n & dlog & Hn & Hf & [ [Hne _] | [He Hl] ]);
    rewrite H in *; cbn [fst snd] in *.
  - exfalso. rewrite legacy_main_run in H.
    destruct (eval _ _) as [ [l [ | ]] | ] in H; try discriminate H.
    injection H as <- _. now apply Hne.
  - split; [ congruence | ].
    exists (calls (exec Legacy.startup (initial w err exts)) ++ dlog).
    split; [ rewrite Hl, <- app_assoc; reflexivity | ].
    destruct (legacy_startup_log w err exts) as (_ & _ & _ & S4 & _).
    rewrite filter_app, S4, (Hf teardown_call eq_refl).
    + apply flat_map_nil_all. intros x. reflexivity.
    + intros c Hc. now apply report_call_inert.
Qed.


(** ** Use after release in the older program *)

Lemma created_app (a b : list call) :
  created (a ++ b) = created a ++ created b.
Proof.
  induction a as [ | c a IH ]; [ reflexivity | ].
  destruct c; cbn; rewrite ?IH; reflexivity.
Qed.

Lemma existsb_flat_map_constant {A B} (p : B -> bool) (g : A -> list B)
  (v : bool) (l : list A) :
  (forall x, existsb p (g x) = v) ->
  existsb p (flat_map g l) = v && negb (Nat.eqb (List.length l) 0).
Proof.
  intros H. induction l as [ | x l IH ]; cbn [flat_map].
  - now rewrite andb_false_r.
  - rewrite existsb_app, H, IH. destruct v, l; reflexivity.
Qed.

(** The object calls of a pass, for the use of a scene object [h]. *)
Lemma legacy_pass_uses (w : handle) (fi : FrameInput) (h : handle) :
  In h [3; 4; 5; 6; 7; 8; 9] ->
  existsb (uses h) (filter object_call (pass_head fcos (entry w) fi))
  = (h =? 3) || (h =? 5) || (h =? 9)
  /\ existsb (gives_up h) (filter object_call (pass_head fcos (entry w) fi))
     = false
  /\ existsb is_render (filter object_call (pass_head fcos (entry w) fi))
     = true.
Proof.
  intros Hin. cbn in Hin.
  repeat (destruct Hin as [ <- | Hin ]; [ repeat split | ]).
  contradiction.
Qed.

Lemma legacy_startup_releases (h : handle) :
  In h [3; 4; 5; 6; 7; 8; 9] ->
  used_after_release h
    (filter object_call
       (calls (exec Legacy.startup (initial nullptr "" all_extensions))))
  = false
  /\ existsb (gives_up h)
       (filter object_call
          (calls (exec Legacy.startup (initial nullptr "" all_extensions))))
     = negb (h =? 9)
  /\ existsb is_render
       (filter object_call
          (calls (exec Legacy.startup (initial nullptr "" all_extensions))))
     = false.
Proof.
  intros Hin. cbn in Hin.
  repeat (destruct Hin as [ <- | Hin ]; [ vm_compute; repeat split | ]).
  contradiction.
Qed.

(** X16. In a run of the older [main], two scene objects are worked on
    after the program has released its handle to them: the geometry, which
    [setAndReleaseParameter] releases when it is put into the surface, and
    the camera, released when it is put into the frame.  Every pass of the
    loop sets and commits parameters of both.  No other scene object is
    touched after its release. *)
Theorem legacy_main_use_after_release
  (frames : list (FrameInput * IdBuffers)) (w : handle) (err : string)
  (exts : Extensions) (k : objkind) (h : handle) :
  In (k, h)
    (created (calls (exec (Legacy.main fcos frames) (initial w err exts)))) ->
  used_after_release h
    (calls (exec (Legacy.main fcos frames) (initial w err exts)))
  = match k with
    | Camera | Geometry =>
        existsb is_render
          (calls (exec (Legacy.main fcos frames) (initial w err exts)))
    | _ => false
    end.
Proof.
  destruct (legacy_main_structure frames w err exts)
    as (n & dlog & Hn & Hf & H).
  destruct (legacy_startup_log w err exts) as (_ & _ & _ & _ & S5 & S6).
  destruct (legacy_cleanup_filters w) as (_ & _ & _ & C4 & C5).
  pose proof (Hf object_call eq_refl
                (fun c Hc => proj1 (proj2 (proj2 (proj2
                                (report_call_inert c Hc)))))) as Ho.
  pose proof (Hf lifecycle eq_refl
                (fun c Hc => proj1 (proj2 (proj2 (proj2 (proj2
                                (report_call_inert c Hc))))))) as Hlc.
  rewrite (flat_map_nil_all
             (fun x => filter lifecycle (pass_head fcos (entry w) (fst x))))
    in Hlc by reflexivity.
  assert (T : exists tail,
             calls (exec (Legacy.main fcos frames) (initial w err exts))
             = calls (exec Legacy.startup (initial w err exts))
               ++ dlog ++ tail
             /\ (filter object_call tail = []
                 \/ filter object_call tail
                    = [anari_release 2 9; anari_release 2 2])
             /\ created (filter lifecycle tail) = []).
  { unfold exec at 1. destruct H as [ [_ ->] | [_ ->] ].
    - exists []. rewrite app_nil_r. repeat split. now left.
    - exists (cleanup w). split; [ reflexivity | ].
      split; [ right; exact C4 | ]. rewrite C5. reflexivity. }
  destruct T as (tail & -> & Ht & Hc).
  intros Hin.
  rewrite <- created_filter, !filter_app, Hlc, !created_app, Hc in Hin.
  rewrite created_filter, S5 in Hin. cbn in Hin.
  assert (Hh : In h [3; 4; 5; 6; 7; 8; 9]).
  { cbn. repeat (destruct Hin as [ Hin | Hin ];
                 [ injection Hin as _ <-; tauto | ]). contradiction. }
  rewrite <- used_after_release_object_calls.
  rewrite <- (existsb_object_calls is_render)
    by (intros c Hc'; apply (not_object_call c 0 Hc')).
  rewrite !filter_app, S6, Ho.
  destruct (legacy_startup_releases h Hh) as (S1 & S2 & _).
  destruct (legacy_startup_releases 3 ltac:(cbn; tauto)) as (_ & _ & S3).
  rewrite !existsb_app, S3.
  rewrite used_after_release_app, S1, S2, !existsb_app.
  rewrite used_after_release_app.
  rewrite (existsb_flat_map_constant (uses h) _ ((h =? 3) || (h =? 5) || (h =? 9)))
    by (intros x; apply (legacy_pass_uses w (fst x) h Hh)).
  rewrite (existsb_flat_map_constant (gives_up h) _ false)
    by (intros x; apply (legacy_pass_uses w (fst x) h Hh)).
  rewrite (existsb_flat_map_constant is_render _ true)
    by (intros x; apply (legacy_pass_uses w (fst x) 3 ltac:(cbn; tauto))).
  destruct Ht as [ -> | -> ];
    repeat (destruct Hin as [ Hin | Hin ];
            [ injection Hin as <- <-; cbn;
              rewrite ?orb_false_r, ?andb_false_r; reflexivity | ]);
    contradiction.
Qed.


(** ** The id check *)

Lemma to_uint32_to_int32 (u : Z) :
  0 <= u < 2 ^ 32 -> to_uint32 (to_int32 u) = u.
Proof.
  intros H. unfold to_uint32, to_int32.
  rewrite Zminus_mod_idemp_l.
  replace (u + 2 ^ 31 - 2 ^ 31) with u by lia.
  apply Z.mod_small. exact H.
Qed.

Lemma to_uint32_range (i : Z) : 0 <= to_uint32 i < 2 ^ 32.
Proof. unfold to_uint32. apply Z.mod_pos_bound. reflexivity. Qed.

(** The read of the centre pixel of an image of [w * h] pixels, as the
    loop makes it. *)
Lemma legacy_centre_read {T} (buf : list T) (w h : Z) :
  0 <= w < 2 ^ 32 -> 0 <= h ->
  Z.of_nat (List.length buf) = w * h ->
  (getPixelValue (w / 2, h / 2) (to_int32 w) buf <> None <-> 0 < w /\ 0 < h).
Proof.
  intros Hw Hh Hlen. unfold getPixelValue. cbn [fst snd].
  rewrite to_uint32_to_int32 by exact Hw.
  rewrite nth_error_Some.
  assert (H2w : 0 <= w / 2) by (apply Z.div_pos; lia).
  assert (H2h : 0 <= h / 2) by (apply Z.div_pos; lia).
  pose proof (to_uint32_range (h / 2 * w + w / 2)) as Hr.
  split.
  - intros Hlt. assert (0 < w * h) by lia. nia.
  - intros [Pw Ph].
    assert (w / 2 < w) by (apply Z.div_lt; lia).
    assert (h / 2 < h) by (apply Z.div_lt; lia).
    assert (Hi : 0 <= h / 2 * w + w / 2 < w * h) by nia.
    assert (to_uint32 (h / 2 * w + w / 2) <= h / 2 * w + w / 2).
    { unfold to_uint32. apply Z.mod_le; lia. }
    lia.
Qed.

(** X15. A pass of the older loop over an empty framebuffer is undefined.
    When the backend answers id buffers of as many pixels as the polled
    framebuffer has, and the primitive-id buffer has the pixel type the
    program asked for, the pass reads inside the buffers exactly when
    neither the width nor the height polled is 0 (after conversion to
    [unsigned]); with a minimised window the check reads past the end of an
    empty buffer. *)
Theorem legacy_pass_defined (fi : FrameInput) (ids : IdBuffers)
  (l : Legacy.Locals) (e : Extern) :
  is_uint32 (fbPrimId ids) = true ->
  Forall
    (fun m =>
       Z.of_nat (List.length (data m))
       = to_uint32 (fi_width fi) * to_uint32 (fi_height fi))
    [fbPrimId ids; fbObjId ids; fbInstId ids] ->
  (eval (Legacy.loop_body fcos fi ids l) e <> None
   <-> 0 < to_uint32 (fi_width fi) /\ 0 < to_uint32 (fi_height fi)).
Proof.
  intros Hp F.
  apply Forall_cons_iff in F. destruct F as [L1 F].
  apply Forall_cons_iff in F. destruct F as [L2 F].
  apply Forall_cons_iff in F. destruct F as [L3 _].
  pose proof (to_uint32_range (fi_width fi)) as Hw.
  pose proof (to_uint32_range (fi_height fi)) as Hh.
  pose proof (legacy_centre_read _ _ _ Hw (proj1 Hh) L1) as R1.
  pose proof (legacy_centre_read _ _ _ Hw (proj1 Hh) L2) as R2.
  pose proof (legacy_centre_read _ _ _ Hw (proj1 Hh) L3) as R3.
  destruct (legacy_loop_body_head fi ids l e) as (E & _ & _ & HH).
  unfold eval. rewrite HH. clear HH. rewrite Hp.
  unfold Legacy.print_pixel.
  destruct (getPixelValue _ _ (data (fbPrimId ids))) as [ v1 | ].
  - assert (P : 0 < to_uint32 (fi_width fi) /\ 0 < to_uint32 (fi_height fi))
      by (apply R1; discriminate).
    split; [ intros _; exact P | intros _ ].
    destruct (getPixelValue _ _ (data (fbObjId ids))) as [ v2 | ];
      [ | exfalso; now apply R2 ].
    destruct (getPixelValue _ _ (data (fbInstId ids))) as [ v3 | ];
      [ | exfalso; now apply R3 ].
    destruct (is_uint32 (fbObjId ids));
      rewrite !bind_emit, bind_run; discriminate.
  - split; [ intros H; now contradiction H | ].
    intros P. exfalso. now apply R1.
Qed.

Lemma existsb_Forall_false {A} (p : A -> bool) (l : list A) :
  Forall (fun x => p x = false) l -> existsb p l = false.
Proof.
  induction 1 as [ | x l Hx _ IH ]; [ reflexivity | ].
  cbn. now rewrite Hx, IH.
Qed.

Lemma legacy_pass_head_no_id_line (fmt : string) (l : Legacy.Locals)
  (fi : FrameInput) :
  existsb (id_line fmt) (pass_head fcos l fi) = false.
Proof. reflexivity. Qed.

(** X14. The third line of the id check is guarded by the pixel type of the
    primitive-id buffer.  A pass that reads inside its buffers prints the
    "instId" line exactly when the primitive-id buffer is [ANARI_UINT32],
    as it does for the "primId" line, and the "objId" line exactly when the
    object-id buffer is; the pixel type of the instance-id buffer is never
    looked at. *)
Theorem legacy_instance_id_guard (fi : FrameInput) (ids : IdBuffers)
  (l : Legacy.Locals) (e : Extern) :
  eval (Legacy.loop_body fcos fi ids l) e <> None ->
  existsb (id_line "    primId: %u\n")
    (new_calls (Legacy.loop_body fcos fi ids l) e)
  = is_uint32 (fbPrimId ids)
  /\ existsb (id_line "     objId: %u\n")
       (new_calls (Legacy.loop_body fcos fi ids l) e)
     = is_uint32 (fbObjId ids)
  /\ existsb (id_line "    instId: %u\n")
       (new_calls (Legacy.loop_body fcos fi ids l) e)
     = is_uint32 (fbPrimId ids).
Proof.
  intros Hdef.
  destruct (legacy_loop_body_head fi ids l e) as (E & HE & _ & HH).
  destruct (run_congr _ _ _ _ HH) as [Hev Hex]. clear HH.
  rewrite Hev in Hdef. clear Hev.
  assert (G : exists pre k,
             logged (Legacy.loop_body fcos fi ids l) e
               (pass_head fcos l fi ++ pre ++ glfwPollEvents :: k)
             /\ Forall (fun c => c = glfwSetWindowShouldClose
                                       (Legacy.Window (Legacy.ds l)) GL_TRUE)
                  k
             /\ existsb (id_line "    primId: %u\n") pre
                = is_uint32 (fbPrimId ids)
             /\ existsb (id_line "     objId: %u\n") pre
                = is_uint32 (fbObjId ids)
             /\ existsb (id_line "    instId: %u\n") pre
                = is_uint32 (fbPrimId ids)).
  { unfold logged. rewrite Hex. clear Hex. revert Hdef.
    generalize (getPixelValue
                  (to_uint32 (fi_width fi) / 2, to_uint32 (fi_height fi) / 2)
                  (to_int32 (to_uint32 (fi_width fi)))
                  (data (fbPrimId ids))).
    generalize (getPixelValue
                  (to_uint32 (fi_width fi) / 2, to_uint32 (fi_height fi) / 2)
                  (to_int32 (to_uint32 (fi_width fi)))
                  (data (fbObjId ids))).
    generalize (getPixelValue
                  (to_uint32 (fi_width fi) / 2, to_uint32 (fi_height fi) / 2)
                  (to_int32 (to_uint32 (fi_width fi)))
                  (data (fbInstId ids))).
    intros p3 p2 p1 Hdef.
    exists ((if is_uint32 (fbPrimId ids)
             then match p1 with
                  | Some v => [std_printf "    primId: %u\n" [show_uint v]]
                  | None => []
                  end
             else [])
            ++ (if is_uint32 (fbObjId ids)
                then match p2 with
                     | Some v => [std_printf "     objId: %u\n" [show_uint v]]
                     | None => []
                     end
                else [])
            ++ (if is_uint32 (fbPrimId ids)
                then match p3 with
                     | Some v => [std_printf "    instId: %u\n" [show_uint v]]
                     | None => []
                     end
                else [])).
    destruct (legacy_PollEvents (Legacy.Window (Legacy.ds l)) (fi_events fi)
                (fi_close_clicked fi)
                (exec (Legacy.print_pixel (is_uint32 (fbPrimId ids))
                         "    primId: %u\n" p1
                         (Legacy.print_pixel (is_uint32 (fbObjId ids))
                            "     objId: %u\n" p2
                            (Legacy.print_pixel (is_uint32 (fbPrimId ids))
                               "    instId: %u\n" p3 (ret (@None unit))))) E))
      as (k & Hk & Fk & _).
    exists k. unfold logged in Hk. revert Hdef Hk.
    unfold Legacy.print_pixel.
    destruct (is_uint32 (fbPrimId ids)), (is_uint32 (fbObjId ids)),
      p1 as [ v1 | ], p2 as [ v2 | ], p3 as [ v3 | ];
      rewrite ?eval_bind, ?exec_bind, ?exec_ret, ?eval_ret;
      intros Hdef Hk;
      try (exfalso; apply Hdef; reflexivity);
      rewrite Hk, ?calls_emit, HE;
      (split; [ repeat rewrite <- app_assoc; reflexivity | ]);
      (split; [ exact Fk | ]); repeat split. }
  destruct G as (pre & k & Hl & Fk & G1 & G2 & G3).
  assert (K : forall fmt, existsb (id_line fmt) (glfwPollEvents :: k) = false).
  { intros fmt. apply existsb_Forall_false. constructor; [ reflexivity | ].
    eapply Forall_impl; [ | exact Fk ]. intros c ->. reflexivity. }
  rewrite (logged_new_calls Hl), !existsb_app, !legacy_pass_head_no_id_line,
    !K, G1, G2, G3, !orb_false_r.
  repeat split.
Qed.

(** X18. The older key callback reacts to a press of escape and to nothing
    else, and prints nothing: an event poll logs, after [glfwPollEvents],
    only close requests on the window, and the close request is raised
    afterwards exactly when it was raised before, or a press of escape was
    delivered to an existing window, or the window manager asked to
    close. *)
Theorem legacy_PollEvents_escape_only (w : handle) (evs : list KeyEvent)
  (clicked : bool) (e : Extern) :
  exists k,
    logged (Legacy.PollEvents w evs clicked) e (glfwPollEvents :: k)
    /\ Forall (fun c => c = glfwSetWindowShouldClose w GL_TRUE) k
    /\ List.length k
       = (List.length (filter escape_press evs)
          * (if is_set w then 1 else 0))%nat
    /\ eval (bind (Legacy.PollEvents w evs clicked)
               (fun _ => WindowShouldClose w)) e
       = should_close e || (is_set w && existsb escape_press evs) || clicked.
Proof.
  assert (D : forall e0,
             exists k,
               logged (Legacy.deliver w evs) e0 k
               /\ Forall (fun c => c = glfwSetWindowShouldClose w GL_TRUE) k
               /\ List.length k
                  = (List.length (filter escape_press evs)
                     * (if is_set w then 1 else 0))%nat).
  { induction evs as [ | ev evs' IH ]; intros e0.
    - exists []. unfold logged. cbn. rewrite app_nil_r. repeat split.
      constructor.
    - cbn [Legacy.deliver]. unfold logged. rewrite exec_bind.
      match goal with
      | |- context [exec (Legacy.deliver w evs') ?E] =>
          destruct (IH E) as (k & Hk & Fk & Lk)
      end.
      unfold logged in Hk. rewrite Hk.
      unfold Legacy.key_callback, when. cbn [filter].
      unfold escape_press at 1 3.
      destruct (is_set w);
        destruct ((ev_key ev =? GLFW_KEY_ESCAPE)
                  && (ev_action ev =? GLFW_PRESS)).
      + eexists (_ :: k). cbn. rewrite <- app_assoc.
        split; [ reflexivity | ]. split; [ now constructor | ].
        cbn in Lk. rewrite Lk. reflexivity.
      + exists k. cbn. repeat split; assumption.
      + exists k. cbn. repeat split; assumption.
      + exists k. cbn. repeat split; assumption. }
  destruct (legacy_PollEvents w evs clicked e) as (k0 & Hk0 & _ & Sk0).
  destruct (D (exec (emit glfwPollEvents) e)) as (k & Hk & Fk & Lk).
  exists k. split; [ | split; [ exact Fk | split; [ exact Lk | ] ] ].
  - unfold Legacy.PollEvents, logged. rewrite !exec_bind.
    unfold logged in Hk. unfold when. destruct clicked.
    + change (calls (exec (set_should_close true) ?x)) with (calls x).
      rewrite Hk, calls_emit, <- app_assoc. reflexivity.
    + change (exec (ret tt) ?x) with x.
      rewrite Hk, calls_emit, <- app_assoc. reflexivity.
  - rewrite eval_bind. unfold WindowShouldClose. rewrite eval_bind.
    cbn [eval ask fst]. rewrite emit_should_close. exact Sk0.
Qed.

End OlderProgram.

(** * Further concrete runs *)


Lemma statusFunc_line_tells_severity_witness :
  statusFunc anari_severities 6002 "slow" = [ ("[WARN ] %s\n", "slow") ]
  /\ (statusFunc anari_severities 6002 "slow"
      = statusFunc anari_severities 6002 "slow" ->
      6002 = 6002 /\ "slow" = "slow").
Proof.
  split; [ reflexivity | ].
  apply (proj2 (proj2 (proj2
           (statusFunc_line_tells_severity anari_severities 6002 6002
              "slow" "slow")))).
  discriminate.
Defined.

Lemma getPixelValue_row_major_witness :
  getPixelValue (1, 1) 2 (List.concat [[10; 11]; [20; 21]]) = Some 21.
Proof.
  refine (eq_trans
            (proj1 (getPixelValue_row_major [[10; 11]; [20; 21]] 2 1 1
                      _ _ _ _ _)) _);
    try reflexivity; try (cbn; lia).
  repeat constructor.
Defined.

Lemma getPixelValue_centre_witness :
  Z.of_nat (List.length [10; 11; 20; 21]) = 2 * 2
  /\ getPixelValue (2 / 2, 2 / 2) 2 [10; 11; 20; 21] <> None.
Proof.
  split; [ reflexivity | ].
  apply (proj2 (getPixelValue_centre [10; 11; 20; 21] 2 2
                  ltac:(lia) ltac:(lia) ltac:(cbn; lia) eq_refl)).
  lia.
Defined.

(** The state in which the sample run enters the loop. *)
Lemma render_loop_without_close_request_witness :
  should_close (exec startup sample_world) = false
  /\ Forall (fun fi => closes sample_display fi = false)
       [quiet_frame; quiet_frame]
  /\ snd (eval (render_loop sample_display [quiet_frame; quiet_frame]
                  sample_system) (exec startup sample_world)) = false.
Proof.
  assert (Hs : should_close (exec startup sample_world) = false)
    by (vm_compute; reflexivity).
  assert (Hq : Forall (fun fi => closes sample_display fi = false)
                 [quiet_frame; quiet_frame])
    by (repeat constructor; vm_compute; reflexivity).
  split; [ exact Hs | ]. split; [ exact Hq | ].
  exact (proj1 (@render_loop_without_close_request TermFloat sample_display
                  [quiet_frame; quiet_frame] sample_system
                  (exec startup sample_world) Hs Hq)).
Defined.

(** Escape is pressed in the second pass; the third answer is never used. *)
Lemma render_loop_stops_on_close_request_witness :
  should_close (exec startup sample_world) = false
  /\ Forall (fun fi => closes sample_display fi = false) [quiet_frame]
  /\ closes sample_display sample_frame = true
  /\ snd (eval (render_loop sample_display
                  ([quiet_frame] ++ sample_frame :: [quiet_frame])
                  sample_system) (exec startup sample_world)) = true.
Proof.
  assert (Hs : should_close (exec startup sample_world) = false)
    by (vm_compute; reflexivity).
  assert (Hq : Forall (fun fi => closes sample_display fi = false)
                 [quiet_frame])
    by (repeat constructor; vm_compute; reflexivity).
  assert (Hc : closes sample_display sample_frame = true)
    by (vm_compute; reflexivity).
  split; [ exact Hs | ]. split; [ exact Hq | ]. split; [ exact Hc | ].
  exact (proj1 (proj2
           (@render_loop_stops_on_close_request TermFloat sample_display
              [quiet_frame] [quiet_frame] sample_frame sample_system
              (exec startup sample_world) Hs Hq Hc))).
Defined.

(** The sample run is complete; its teardown is in the stated order. *)
Lemma main_teardown_order_witness :
  main [sample_frame] sample_world
  = (Some 0, exec (main [sample_frame]) sample_world)
  /\ exists before,
       calls (exec (main [sample_frame]) sample_world)
       = before
         ++ [ anari_release 2 9; anari_release 2 2; anari_unloadLibrary 1;
              glfwTerminate ]
         ++ [ glfwDestroyWindow 77 ]
       /\ filter teardown_call before = [].
Proof.
  assert (H : main [sample_frame] sample_world
              = (Some 0, exec (main [sample_frame]) sample_world))
    by (vm_compute; reflexivity).
  split; [ exact H | ].
  exact (proj2 (@main_teardown_order TermFloat [sample_frame] 77 ""
                  all_extensions 0 _ H)).
Defined.

(** In the sample run the camera (handle 4) is used after its release, the
    frame (handle 9) is not. *)
Lemma main_use_after_release_witness :
  main [sample_frame] sample_world
  = (Some 0, exec (main [sample_frame]) sample_world)
  /\ In (Frame, 9) (created (calls (exec (main [sample_frame]) sample_world)))
  /\ used_after_release 9 (calls (exec (main [sample_frame]) sample_world))
     = false.
Proof.
  assert (H : main [sample_frame] sample_world
              = (Some 0, exec (main [sample_frame]) sample_world))
    by (vm_compute; reflexivity).
  assert (Hin : In (Frame, 9)
                  (created (calls (exec (main [sample_frame]) sample_world))))
    by (vm_compute; tauto).
  split; [ exact H | ]. split; [ exact Hin | ].
  exact (@main_use_after_release TermFloat [sample_frame] 77 ""
           all_extensions 0 _ H Frame 9 Hin).
Defined.

(** On the sample platform a window is created (window 77). *)
Lemma CreateWindow_then_escape_closes_witness :
  window_result sample_world <> nullptr
  /\ Window (eval (CreateWindow {| window_wrapper_ := None |}) sample_world)
     = 77.
Proof.
  assert (H : window_result sample_world <> nullptr) by discriminate.
  split; [ exact H | ].
  exact (proj1 (@CreateWindow_then_escape_closes TermFloat
                  {| window_wrapper_ := None |} [] false sample_world
                  sample_world H)).
Defined.

(** The sample pass of the older loop reads inside its buffers, and prints
    the instance-id line although that buffer's type is not
    [ANARI_UINT32]. *)
Lemma legacy_instance_id_guard_witness :
  eval (Legacy.loop_body sample_cos small_frame sample_ids (LegacyLog.entry 77))
    legacy_world <> None
  /\ existsb (LegacyLog.id_line "    instId: %u\n")
       (new_calls
          (Legacy.loop_body sample_cos small_frame sample_ids (LegacyLog.entry 77))
          legacy_world)
     = true.
Proof.
  assert (H : eval (Legacy.loop_body sample_cos small_frame sample_ids
                      (LegacyLog.entry 77)) legacy_world <> None)
    by (vm_compute; discriminate).
  split; [ exact H | ].
  exact (proj2 (proj2
           (@legacy_instance_id_guard TrigFloat sample_cos small_frame sample_ids
              (LegacyLog.entry 77) legacy_world H))).
Defined.

Lemma legacy_pass_defined_witness :
  is_uint32 (fbPrimId sample_ids) = true
  /\ eval (Legacy.loop_body sample_cos small_frame sample_ids (LegacyLog.entry 77))
       legacy_world <> None.
Proof.
  split; [ reflexivity | ].
  apply (proj2
           (@legacy_pass_defined TrigFloat sample_cos small_frame sample_ids
              (LegacyLog.entry 77) legacy_world eq_refl
              ltac:(repeat constructor))).
  split; reflexivity.
Defined.

(** In the sample run of the older program the geometry (handle 5) is used
    after its release. *)
Lemma legacy_main_use_after_release_witness :
  In (Geometry, 5)
    (created
       (calls (exec (Legacy.main sample_cos [(small_frame, sample_ids)])
                 legacy_world)))
  /\ used_after_release 5
       (calls (exec (Legacy.main sample_cos [(small_frame, sample_ids)])
                 legacy_world))
     = true.
Proof.
  assert (Hin : In (Geometry, 5)
                  (created
                     (calls (exec (Legacy.main sample_cos
                                     [(small_frame, sample_ids)])
                               legacy_world))))
    by (vm_compute; tauto).
  split; [ exact Hin | ].
  refine (eq_trans
            (@legacy_main_use_after_release TrigFloat sample_cos
               [(small_frame, sample_ids)] 77 "" all_extensions Geometry 5
               Hin) _).
  vm_compute. reflexivity.
Defined.

(** The sample run of the older program is complete. *)
Lemma legacy_main_teardown_order_witness :
  Legacy.main sample_cos [(small_frame, sample_ids)] legacy_world
  = (Legacy.returned 0,
     exec (Legacy.main sample_cos [(small_frame, sample_ids)]) legacy_world)
  /\ exists before,
       calls (exec (Legacy.main sample_cos [(small_frame, sample_ids)])
                legacy_world)
       = before
         ++ [ std_printf "\ncleaning up objects..." [];
              anari_release 2 9; anari_release 2 2; anari_unloadLibrary 1;
              std_printf "done!\n" [] ]
         ++ [ glfwDestroyWindow 77 ]
         ++ [ glfwTerminate ]
       /\ filter teardown_call before = [].
Proof.
  assert (H : Legacy.main sample_cos [(small_frame, sample_ids)] legacy_world
              = (Legacy.returned 0,
                 exec (Legacy.main sample_cos [(small_frame, sample_ids)])
                   legacy_world))
    by (vm_compute; reflexivity).
  split; [ exact H | ].
  exact (proj2 (@legacy_main_teardown_order TrigFloat sample_cos
                  [(small_frame, sample_ids)] 77 "" all_extensions 0 _ H)).
Defined.
